(** * smpfunc: alignment of SMP profiles against snow-pit references

    A shallow embedding of [smpfunc.py] (calibration formulas, random
    stretch candidates, profile warping, windowed sample extraction,
    skill scoring and the brute-force alignment search) together with
    the properties stated about it.  The error of a comparison table
    from [tvcfunc.py] and the decibel conversions of [radarfunc.py] are
    embedded at the end of the definitions.

    Conventions of the embedding.
    - A numpy [float64] is an extended real: a real number, one of the
      two infinities, or NaN.  Arithmetic on finite values is exact;
      rounding error and the sign of zero are left out, with two
      exceptions where a property hangs on the rounding: [np.round]
      rounds its scaled argument to binary64, and the module
      [binary64] at the end of the definitions runs [random_scaling]
      on binary64 numbers.
    - A Python exception is a result [Raise e]; a loop that is still
      running when the fuel of the model is used up is [Timeout].
    - Objects that the code mutates in place (data frames, the global
      random generator) are passed in and handed back explicitly. *)

From Stdlib Require Import String.
From Stdlib Require Import Reals Lra Lia List ZArith Bool Arith.
From Stdlib Require Import Permutation Sorted.
From Stdlib Require Floats.
Import ListNotations.

Local Open Scope R_scope.

(** ** Exceptions and results *)

Inductive exn : Type :=
| IndexError
| KeyError
| AttributeError
| ValueError
| TypeError
| ZeroDivisionError.

Inductive outcome (A : Type) : Type :=
| Ok (a : A)
| Raise (e : exn)
| Timeout.

Arguments Ok {A} a.
Arguments Raise {A} e.
Arguments Timeout {A}.

Definition bind {A B : Type} (m : outcome A) (k : A -> outcome B) : outcome B :=
  match m with
  | Ok a => k a
  | Raise e => Raise e
  | Timeout => Timeout
  end.

Notation "x <- m ;; k" := (bind m (fun x => k))
  (at level 61, m at next level, right associativity).
Notation "' p <- m ;; k" := (bind m (fun x => let p := x in k))
  (at level 61, p pattern, m at next level, right associativity).

Fixpoint mapM {A B : Type} (f : A -> outcome B) (l : list A) : outcome (list B) :=
  match l with
  | [] => Ok []
  | x :: t => y <- f x ;; ys <- mapM f t ;; Ok (y :: ys)
  end.

Definition nth_or {A : Type} (e : exn) (l : list A) (i : nat) : outcome A :=
  match nth_error l i with
  | Some x => Ok x
  | None => Raise e
  end.

(** ** Extended reals standing for float64 *)

Inductive float : Type :=
| Fin (x : R)
| PInf
| NInf
| NaN.

Definition Rleb (a b : R) : bool := if Rle_dec a b then true else false.
Definition Rltb (a b : R) : bool := if Rlt_dec a b then true else false.
Definition Reqb (a b : R) : bool := if Req_dec_T a b then true else false.

Definition is_nan (a : float) : bool :=
  match a with NaN => true | _ => false end.

Definition fopp (a : float) : float :=
  match a with
  | Fin x => Fin (- x)
  | PInf => NInf
  | NInf => PInf
  | NaN => NaN
  end.

Definition fabs (a : float) : float :=
  match a with
  | Fin x => Fin (Rabs x)
  | PInf | NInf => PInf
  | NaN => NaN
  end.

Definition fadd (a b : float) : float :=
  match a, b with
  | NaN, _ | _, NaN => NaN
  | Fin x, Fin y => Fin (x + y)
  | PInf, NInf | NInf, PInf => NaN
  | PInf, _ | _, PInf => PInf
  | NInf, _ | _, NInf => NInf
  end.

Definition fsub (a b : float) : float := fadd a (fopp b).

(** The infinity with the sign of [x], NaN when [x] is zero. *)
Definition signed_inf (x : R) : float :=
  if Rltb 0 x then PInf else if Rltb x 0 then NInf else NaN.

Definition fmul (a b : float) : float :=
  match a, b with
  | NaN, _ | _, NaN => NaN
  | Fin x, Fin y => Fin (x * y)
  | Fin x, PInf | PInf, Fin x => signed_inf x
  | Fin x, NInf | NInf, Fin x => signed_inf (- x)
  | PInf, PInf | NInf, NInf => PInf
  | PInf, NInf | NInf, PInf => NInf
  end.

Definition fdiv (a b : float) : float :=
  match a, b with
  | NaN, _ | _, NaN => NaN
  | Fin x, Fin y => if Reqb y 0 then signed_inf x else Fin (x / y)
  | Fin _, _ => Fin 0
  | PInf, Fin y => if Rltb y 0 then NInf else PInf
  | NInf, Fin y => if Rltb y 0 then PInf else NInf
  | _, _ => NaN
  end.

Definition fsqrt (a : float) : float :=
  match a with
  | Fin x => if Rltb x 0 then NaN else Fin (sqrt x)
  | PInf => PInf
  | NInf | NaN => NaN
  end.

(** Comparisons are false as soon as one side is NaN. *)
Definition fleb (a b : float) : bool :=
  match a, b with
  | NaN, _ | _, NaN => false
  | Fin x, Fin y => Rleb x y
  | NInf, _ | _, PInf => true
  | _, _ => false
  end.

Definition fltb (a b : float) : bool :=
  match a, b with
  | NaN, _ | _, NaN => false
  | Fin x, Fin y => Rltb x y
  | PInf, _ | _, NInf => false
  | _, _ => true
  end.

Definition feqb (a b : float) : bool :=
  match a, b with
  | Fin x, Fin y => Reqb x y
  | PInf, PInf | NInf, NInf => true
  | _, _ => false
  end.

(** ** The numpy operations the module uses *)

Module np.

(** [np.sum]: 0.0 for an empty array. *)
Definition sum (l : list float) : float := fold_left fadd l (Fin 0).

(** [np.mean]: the sum over the number of elements, so NaN (0/0) for an
    empty array. *)
Definition mean (l : list float) : float :=
  fdiv (sum l) (Fin (INR (length l))).

Fixpoint insert_sorted (x : float) (l : list float) : list float :=
  match l with
  | [] => [x]
  | y :: t => if fleb x y then x :: y :: t else y :: insert_sorted x t
  end.

Definition sort (l : list float) : list float :=
  fold_right insert_sorted [] l.

(** [np.median]: NaN for an empty array or when a NaN is present,
    otherwise the middle element of the sorted array or the mean of the
    two middle ones. *)
Definition median (l : list float) : float :=
  if existsb is_nan l then NaN
  else
    let s := sort l in
    let n := length l in
    match n with
    | O => NaN
    | _ =>
        if Nat.even n
        then mean [nth (n / 2 - 1) s NaN; nth (n / 2) s NaN]
        else nth (n / 2) s NaN
    end.

(** [np.std] with the default ddof = 0. *)
Definition std (l : list float) : float :=
  let m := mean l in
  fsqrt (mean (map (fun x => let d := fabs (fsub x m) in fmul d d) l)).

(** [np.count_nonzero]: the number of elements different from zero
    (NaN is different from zero). *)
Definition count_nonzero (l : list float) : nat :=
  length (filter (fun x => negb (feqb x (Fin 0))) l).

(** [a[mask]] for a boolean mask: the mask must have the length of the
    array. *)
Fixpoint select {A : Type} (mask : list bool) (a : list A) : list A :=
  match mask, a with
  | b :: mt, x :: t => if b then x :: select mt t else select mt t
  | _, _ => []
  end.

Definition bool_index {A : Type} (a : list A) (mask : list bool)
  : outcome (list A) :=
  if Nat.eqb (length mask) (length a) then Ok (select mask a)
  else Raise IndexError.

(** [a[i:j]] for non-negative bounds. *)
Definition slice {A : Type} (a : list A) (i j : nat) : list A :=
  firstn (j - i) (skipn i a).

(** [np.argmin]: the index of the first NaN when there is one, else the
    first index of the least element; an empty array raises. *)
Fixpoint argmin_from (best : float) (bi : nat) (i : nat) (l : list float) : nat :=
  match l with
  | [] => bi
  | x :: t =>
      if is_nan best then bi
      else if is_nan x || fltb x best
           then argmin_from x i (S i) t
           else argmin_from best bi (S i) t
  end.

Definition argmin (l : list float) : outcome nat :=
  match l with
  | [] => Raise ValueError
  | x :: t => Ok (argmin_from x 0%nat 1%nat t)
  end.

(** [np.arange(0, stop, step)] with float arguments: [ceil(stop/step)]
    values [0 + i*step]. *)
Definition arange0 (stop step : float) : outcome (list float) :=
  match stop, step with
  | Fin t, Fin h =>
      if Reqb h 0 then Raise ZeroDivisionError
      else Ok (map (fun i => Fin (0 + INR i * h))
                   (seq 0 (Z.to_nat (Zceil (t / h)))))
  | _, _ => Raise ValueError
  end.

(** [np.argsort] of integers, as the indices in stable sorted order. *)
Fixpoint insert_key (p : nat * nat) (l : list (nat * nat)) : list (nat * nat) :=
  match l with
  | [] => [p]
  | q :: t =>
      if Nat.leb (fst p) (fst q) then p :: q :: t else q :: insert_key p t
  end.

Definition argsort (l : list nat) : list nat :=
  map snd (fold_right insert_key [] (combine l (seq 0 (length l)))).

(** [a[idx]] for an integer index array. *)
Definition take {A : Type} (a : list A) (idx : list nat) : outcome (list A) :=
  mapM (nth_or IndexError a) idx.

(** Python's [x % h] on floats: the remainder has the sign of [h]. *)
Definition fmod (a b : float) : float :=
  match a, b with
  | Fin x, Fin h =>
      if Reqb h 0 then NaN else Fin (x - IZR (Zfloor (x / h)) * h)
  | Fin x, PInf => if Rltb x 0 then PInf else Fin x
  | Fin x, NInf => if Rltb 0 x then NInf else Fin x
  | _, _ => NaN
  end.

(** [np.log]. *)
Definition log (a : float) : float :=
  match a with
  | Fin x => if Rltb 0 x then Fin (ln x) else if Reqb x 0 then NInf else NaN
  | PInf => PInf
  | NInf | NaN => NaN
  end.

(** Round half to even, [np.rint]. *)
Definition rint (y : R) : Z :=
  let f := Zfloor y in
  let d := y - IZR f in
  if Rltb d (1 / 2) then f
  else if Rltb (1 / 2) d then (f + 1)%Z
  else if Z.even f then f else (f + 1)%Z.

(** The binade of a real that is not zero: the exponent [e] with
    [2^e <= |x| < 2^(e+1)]. *)
Definition binade (x : R) : Z := Zfloor (ln (Rabs x) / ln 2).

(** The binary64 number nearest to a real, ties to even: a real of the
    binade [e] is rounded to a multiple of [2^(e-52)].  Overflow and
    the subnormal range are left out. *)
Definition float64 (x : R) : R :=
  if Reqb x 0 then 0
  else IZR (rint (x * powerRZ 2 (52 - binade x))) * powerRZ 2 (binade x - 52).

(** [np.round(x, 1)]: scale by ten, which rounds the product to
    binary64, round that to the nearest integer, scale back. *)
Definition round1 (a : float) : float :=
  match a with
  | Fin x => Fin (IZR (rint (float64 (x * 10))) / 10)
  | _ => a
  end.

(** [np.ceil(x).astype(int)]; a value that is not finite becomes the
    least 64-bit integer. *)
Definition ceil_int (a : float) : Z :=
  match a with
  | Fin x => Zceil x
  | _ => (- 2 ^ 63)%Z
  end.

(** [np.log10]. *)
Definition log10 (a : float) : float :=
  match a with
  | Fin x =>
      if Rltb 0 x then Fin (ln x / ln 10) else if Reqb x 0 then NInf else NaN
  | PInf => PInf
  | NInf | NaN => NaN
  end.

(** [10 ** a] on floats. *)
Definition pow10 (a : float) : float :=
  match a with
  | Fin x => Fin (Rpower 10 x)
  | PInf => PInf
  | NInf => Fin 0
  | NaN => NaN
  end.

(** [np.isnan] on an array and [~mask] on a boolean array. *)
Definition isnan (y : list float) : list bool := map is_nan y.

Definition invert (mask : list bool) : list bool := map negb mask.

(** [z.nonzero()[0]] for a boolean array: the positions of the true
    entries, in order. *)
Fixpoint nonzero_from (i : nat) (z : list bool) : list nat :=
  match z with
  | [] => []
  | b :: t => if b then i :: nonzero_from (S i) t else nonzero_from (S i) t
  end.

Definition nonzero (z : list bool) : list nat := nonzero_from 0 z.

(** [np.exp]. *)
Definition exp (a : float) : float :=
  match a with
  | Fin x => Fin (Rtrigo_def.exp x)
  | PInf => PInf
  | NInf => Fin 0
  | NaN => NaN
  end.

End np.

(** ** Data frames *)

(** A cell is a number (NaN marks a missing value) or a text. *)
Inductive cell : Type :=
| Num (x : float)
| Str (s : string).

Definition column : Type := list cell.

(** A data frame: its columns in order, each with its label.  The rows
    are the positions of the columns, which all have the same length;
    the row labels are 0, 1, ... (a [RangeIndex]). *)
Definition DataFrame : Type := list (string * column).

Definition columns (df : DataFrame) : list string := map fst df.

(** [c in df] *)
Definition has_column (df : DataFrame) (c : string) : bool :=
  existsb (String.eqb c) (columns df).

(** [df.columns.get_loc(c)] for a label that is present. *)
Fixpoint get_loc (df : DataFrame) (c : string) : option nat :=
  match df with
  | [] => None
  | (n, _) :: t =>
      if String.eqb c n then Some 0%nat
      else option_map S (get_loc t c)
  end.

Fixpoint lookup (df : DataFrame) (c : string) : option column :=
  match df with
  | [] => None
  | (n, col) :: t => if String.eqb c n then Some col else lookup t c
  end.

(** [df[c]] and [df.c] differ in the exception for a missing column. *)
Definition getitem (df : DataFrame) (c : string) : outcome column :=
  match lookup df c with Some col => Ok col | None => Raise KeyError end.

Definition getattr (df : DataFrame) (c : string) : outcome column :=
  match lookup df c with Some col => Ok col | None => Raise AttributeError end.

(** [len(df)] *)
Definition nrows (df : DataFrame) : nat :=
  match df with
  | [] => 0%nat
  | (_, col) :: _ => length col
  end.

(** The numbers of a numeric column; arithmetic on a text raises. *)
Definition as_float (c : cell) : outcome float :=
  match c with Num x => Ok x | Str _ => Raise TypeError end.

Definition values (col : column) : outcome (list float) := mapM as_float col.

(** [df.assign(c = col)]: a new frame, with the column replaced where it
    is, or added at the end. *)
Fixpoint assign (df : DataFrame) (c : string) (col : column) : DataFrame :=
  match df with
  | [] => [(c, col)]
  | (n, old) :: t =>
      if String.eqb c n then (n, col) :: t else (n, old) :: assign t c col
  end.

(** [df.rename(columns={old: new}, inplace=True)]: the frame after the
    call; a label that is absent is ignored. *)
Definition rename (df : DataFrame) (old new : string) : DataFrame :=
  map (fun p => if String.eqb (fst p) old then (new, snd p) else p) df.

(** ** Calibration formulas *)

Fixpoint map2 {A B C : Type} (f : A -> B -> C) (l : list A) (m : list B) : list C :=
  match l, m with
  | x :: t, y :: u => f x y :: map2 f t u
  | _, _ => []
  end.

Inductive frame_or_array : Type :=
| AsFrame (df : DataFrame)
| AsArray (a : list float).

(** [calc_density(shot_noise, coefs, return_df)] *)
Definition calc_density (shot_noise : DataFrame) (coefs : list R)
    (return_df : bool) : outcome frame_or_array :=
  c0 <- nth_or IndexError coefs 0 ;;
  c1 <- nth_or IndexError coefs 1 ;;
  fm <- getattr shot_noise "force_median" ;;
  fm <- values fm ;;
  let t1 := map (fun f => fmul (Fin c1) (np.log f)) fm in
  let s1 := map (fadd (Fin c0)) t1 in
  c2 <- nth_or IndexError coefs 2 ;;
  l <- getattr shot_noise "l" ;;
  l <- values l ;;
  let t2 := map2 fmul (map (fun f => fmul (Fin c2) (np.log f)) fm) l in
  let s2 := map2 fadd s1 t2 in
  c3 <- nth_or IndexError coefs 3 ;;
  let t3 := map (fmul (Fin c3)) l in
  let density := map np.round1 (map2 fadd s2 t3) in
  if return_df
  then Ok (AsFrame (assign shot_noise "density" (map Num density)))
  else Ok (AsArray density).



(** The shot-noise table with the two columns the formula reads. *)
Definition shot_noise_of (rows : list (R * R)) : DataFrame :=
  [("force_median"%string, map (fun r => Num (Fin (fst r))) rows);
   ("l"%string, map (fun r => Num (Fin (snd r))) rows)].

(** ** Code that mutates: results together with the state left behind *)

Definition M (S A : Type) : Type := S -> outcome A * S.

Definition ret {S A : Type} (a : A) : M S A := fun s => (Ok a, s).

Definition bindM {S A B : Type} (m : M S A) (k : A -> M S B) : M S B :=
  fun s =>
    match m s with
    | (Ok a, s') => k a s'
    | (Raise e, s') => (Raise e, s')
    | (Timeout, s') => (Timeout, s')
    end.

Definition lift {S A : Type} (o : outcome A) : M S A := fun s => (o, s).
Definition get {S : Type} : M S S := fun s => (Ok s, s).
Definition modify {S : Type} (f : S -> S) : M S unit := fun s => (Ok tt, f s).

Notation "x <~ m ;; k" := (bindM m (fun x => k))
  (at level 61, m at next level, right associativity).

Fixpoint mapMS {S A B : Type} (f : A -> M S B) (l : list A) : M S (list B) :=
  match l with
  | [] => ret []
  | x :: t => y <~ f x ;; ys <~ mapMS f t ;; ret (y :: ys)
  end.

(** ** Random stretch candidates *)

Definition Rsum (l : list R) : R := fold_left Rplus l 0.

Section RandomScaling.

(** The global generator of [np.random]: its state and the two draws
    the module makes.  [choice n] is
    [np.random.choice(n, n, replace=False)] and [uniform lo hi] is
    [np.random.uniform(lo, hi)]. *)
Variable G : Type.
Variable choice : nat -> G -> list nat * G.
Variable uniform : R -> R -> G -> R * G.

(** [np.random.choice(layer_num, layer_num, replace=False)] refuses a
    negative population. *)
Definition random_choice (layer_num : Z) : M G (list nat) :=
  fun g =>
    if (layer_num <? 0)%Z then (Raise ValueError, g)
    else let (p, g') := choice (Z.to_nat layer_num) g in (Ok p, g').

(** The [for] loop of [random_scaling]: one draw per layer, appended in
    the order drawn. *)
Fixpoint draw_layers (k : nat) (max_change_layer : R) (g : G) : list R * G :=
  match k with
  | O => ([], g)
  | S k' =>
      let (x, g1) := uniform (- max_change_layer) max_change_layer g in
      let (xs, g2) := draw_layers k' max_change_layer g1 in
      (x :: xs, g2)
  end.

(** [random_scaling(layer_num, max_change, max_change_layer)]; [fuel]
    bounds the rounds of the [while True] loop that the model follows. *)
Fixpoint random_scaling (fuel : nat) (layer_num : Z)
    (max_change max_change_layer : R) : M G (list R) :=
  match fuel with
  | O => fun g => (Timeout, g)
  | S fuel' =>
      layer_order <~ random_choice layer_num ;;
      layer_stretch <~ (fun g =>
        let (v, g') := draw_layers (length layer_order) max_change_layer g in
        (Ok v, g')) ;;
      if Rleb (Rabs (Rsum layer_stretch)) max_change
      then lift (np.take layer_stretch (np.argsort layer_order))
      else random_scaling fuel' layer_num max_change max_change_layer
  end.




End RandomScaling.

(** A generator that replays recorded draws: the state is the list of
    the draws to come, in tenths of the interval, and the permutation
    drawn is the reversal. *)
Definition replay_choice (n : nat) (g : list nat) : list nat * list nat :=
  (rev (seq 0 n), g).

Definition replay_uniform (lo hi : R) (g : list nat) : R * list nat :=
  match g with
  | [] => (lo, [])
  | k :: g' => (lo + (hi - lo) * (INR (k mod 11) / 10), g')
  end.

(** ** Warping a profile *)

Section ScaleProfile.

(** [scipy.ndimage.interpolation.zoom(a, z)], a spline resampling of [a]
    to [round(len(a) * z)] values. *)
Variable zoom : list float -> R -> list float.

(** The nearest index: [(np.abs(a - x)).argmin()]. *)
Definition nearest (a : list float) (x : float) : outcome nat :=
  np.argmin (map (fun d => fabs (fsub d x)) a).

Record warp_state : Type := {
  l_last : float;
  result_dist : list float;
  result_value : list float
}.

(** One round of the loop over the layers. *)
Definition scale_layer (depth_array value_array layer_thickness depth_stretch : list float)
    (l_resample : R) (h_resample : float) (st : warp_state) (l_idx : nat)
  : outcome warp_state :=
  let ol_start := l_resample * INR l_idx in
  let old_end := ol_start + l_resample in
  ol_start_idx <- nearest depth_array (Fin ol_start) ;;
  ol_end_idx <- nearest depth_array (Fin old_end) ;;
  let orig_dist := np.slice depth_array ol_start_idx ol_end_idx in
  let orig_value := np.slice value_array ol_start_idx ol_end_idx in
  let cum := np.sum (firstn (l_idx + 1) layer_thickness) in
  let l_end := fsub cum (np.fmod cum h_resample) in
  l_end_idx <- nearest depth_stretch l_end ;;
  let l_start := fadd (l_last st) h_resample in
  l_start_idx <- nearest depth_stretch l_start ;;
  if Nat.ltb 2 (length orig_value)
  then
    let scaled_dist := np.slice depth_stretch l_start_idx (l_end_idx + 1) in
    if Nat.eqb (length orig_dist) 0 then Raise ZeroDivisionError
    else
      let scaling_z := INR (length scaled_dist) / INR (length orig_dist) in
      let scaled_value := zoom orig_value scaling_z in
      Ok {| l_last := l_end;
            result_dist := result_dist st ++ scaled_dist;
            result_value := result_value st ++ scaled_value |}
  else
    Ok {| l_last := l_end;
          result_dist := result_dist st;
          result_value := result_value st |}.

Fixpoint scale_layers (depth_array value_array layer_thickness depth_stretch : list float)
    (l_resample : R) (h_resample : float) (st : warp_state) (idxs : list nat)
  : outcome warp_state :=
  match idxs with
  | [] => Ok st
  | l_idx :: rest =>
      st' <- scale_layer depth_array value_array layer_thickness depth_stretch
               l_resample h_resample st l_idx ;;
      scale_layers depth_array value_array layer_thickness depth_stretch
        l_resample h_resample st' rest
  end.

(** [scale_profile(scaling_guess, depth_array, value_array, l_resample,
    h_resample)]. *)
Definition scale_profile (scaling_guess : list R) (depth_array value_array : list float)
    (l_resample : R) (h_resample : option float)
  : outcome (list float * list float) :=
  d0 <- nth_or IndexError depth_array 0 ;;
  d1 <- nth_or IndexError depth_array 1 ;;
  let delta_h := fsub d1 d0 in
  let h_resample := match h_resample with None => delta_h | Some h => h end in
  let layer_thickness :=
    map (fun s => Fin (l_resample + s * l_resample)) scaling_guess in
  let new_total_thickness := np.sum layer_thickness in
  depth_stretch <- np.arange0 new_total_thickness h_resample ;;
  st <- scale_layers depth_array value_array layer_thickness depth_stretch
          l_resample h_resample
          {| l_last := fopp h_resample; result_dist := []; result_value := [] |}
          (seq 0 (length layer_thickness)) ;;
  Ok (result_dist st, result_value st).

End ScaleProfile.

(** A regularly spaced depth array: [n] depths from [d0] in steps of
    [h]. *)
Definition regular_depths (d0 h : R) (n : nat) : list float :=
  map (fun i => Fin (d0 + INR i * h)) (seq 0 n).

(** The values of [np.arange(0, stop, h)] when it has [N] of them. *)
Definition grid (h : R) (N : nat) : list R :=
  map (fun i => 0 + INR i * h) (seq 0 N).




(** A stand-in for [zoom] with the length law of the real one: the
    nearest-neighbour resampling of [a] to [round(len(a) * z)] values. *)
Definition zoom_nearest (a : list float) (z : R) : list float :=
  let m := Z.to_nat (np.rint (INR (length a) * z)) in
  map (fun i => nth (i * length a / m) a NaN) (seq 0 m).

(** ** Windowed samples *)

(** [a_value[np.abs(a_height - height) <= window_size]] *)
Definition window (a_height a_value : list float) (height : float)
    (window_size : R) : outcome (list float) :=
  np.bool_index a_value
    (map (fun h => fleb (fabs (fsub h height)) (Fin window_size)) a_height).

(** [extract_samples(a_height, a_value, b_height, window_size)]: one
    list comprehension per column, in the order of the dictionary. *)
Definition extract_samples (a_height a_value b_height : list float)
    (window_size : R) : outcome DataFrame :=
  count_samp <- mapM (fun height =>
      w <- window a_height a_value height window_size ;;
      Ok (Num (Fin (INR (np.count_nonzero w))))) b_height ;;
  mean_samp <- mapM (fun height =>
      w <- window a_height a_value height window_size ;;
      Ok (Num (np.mean w))) b_height ;;
  median_samp <- mapM (fun height =>
      w <- window a_height a_value height window_size ;;
      Ok (Num (np.median w))) b_height ;;
  stdev_samp <- mapM (fun height =>
      w <- window a_height a_value height window_size ;;
      Ok (Num (np.std w))) b_height ;;
  Ok [("count_samp"%string, count_samp);
      ("mean_samp"%string, mean_samp);
      ("median_samp"%string, median_samp);
      ("stdev_samp"%string, stdev_samp)].

(** The samples of the window of a target depth, for aligned arrays. *)
Definition in_window (a_height a_value : list float) (w : R) (d : float)
  : list float :=
  np.select (map (fun h => fleb (fabs (fsub h d)) (Fin w)) a_height) a_value.

(** ** Scoring a comparison table *)

(** A missing value, as [dropna] sees it. *)
Definition is_na (c : cell) : bool :=
  match c with Num NaN => true | _ => false end.

Definition filter_rows (keep : list bool) (df : DataFrame) : DataFrame :=
  map (fun p => (fst p, np.select keep (snd p))) df.

Definition row_complete (df : DataFrame) (i : nat) : bool :=
  forallb (fun p => negb (is_na (nth i (snd p) (Num NaN)))) df.

(** [df.dropna(inplace=True)]: the frame after the call. *)
Definition dropna (df : DataFrame) : DataFrame :=
  filter_rows (map (row_complete df) (seq 0 (nrows df))) df.

(** [series.isin(labels)] on one cell. *)
Definition isin (labels : list string) (c : cell) : bool :=
  match c with
  | Str s => existsb (String.eqb s) labels
  | Num _ => false
  end.

Definition dot (x y : list float) : float := np.sum (map2 fmul x y).

(** [np.clip(c, -1, 1)] *)
Definition clip1 (a : float) : float :=
  if fltb a (Fin (-1)) then Fin (-1) else if fltb (Fin 1) a then Fin 1 else a.

(** [np.corrcoef(x, y)[1][0]], following numpy: the covariance matrix
    with ddof = 1 (the factor is set to zero when it is not positive),
    divided by the two standard deviations and clipped to [-1, 1]. *)
Definition corrcoef10 (x y : list float) : float :=
  let avg_x := np.mean x in
  let avg_y := np.mean y in
  let fact := INR (length x) - 1 in
  let fact := if Rleb fact 0 then 0 else fact in
  let xc := map (fun a => fsub a avg_x) x in
  let yc := map (fun a => fsub a avg_y) y in
  let scale := fdiv (Fin 1) (Fin fact) in
  let c_xx := fmul (dot xc xc) scale in
  let c_yy := fmul (dot yc yc) scale in
  let c_yx := fmul (dot yc xc) scale in
  let stddev_x := fsqrt c_xx in
  let stddev_y := fsqrt c_yy in
  clip1 (fdiv (fdiv c_yx stddev_y) stddev_x).

(** [np.mean] of a pandas series is the mean of the series, which
    leaves the NaN values out. *)
Definition series_mean (l : list float) : float :=
  np.mean (filter (fun x => negb (is_nan x)) l).

(** [calc_skill(result, window_size, drop_na)], run on the table object
    that is passed: the state is that object. *)
Definition calc_skill (window_size : R) (drop_na : bool)
  : M DataFrame (float * float) :=
  _ <~ (if drop_na then modify dropna else ret tt) ;;
  result <~ get ;;
  grain_type <~ lift (getitem result "grain_type") ;;
  let result :=
    filter_rows (map (fun c => negb (isin ["N"%string; "I"%string] c)) grain_type)
                result in
  lift (mean_samp <- getitem result "mean_samp" ;;
        ref_val <- getitem result "ref_val" ;;
        mean_samp <- values mean_samp ;;
        ref_val <- values ref_val ;;
        let r := corrcoef10 mean_samp ref_val in
        let rmse :=
          fsqrt (series_mean (map2 (fun a b => let d := fsub a b in fmul d d)
                                   mean_samp ref_val)) in
        Ok (r, rmse)).

(** The rows that count for the score, read off the table row by row:
    the complete rows whose grain type is neither new snow ("N") nor ice
    ("I"), as the pair of their [mean_samp] and [ref_val] columns. *)
Definition valid_rows (df : DataFrame) : outcome (list float * list float) :=
  grain_type <- getitem df "grain_type" ;;
  mean_samp <- getitem df "mean_samp" ;;
  ref_val <- getitem df "ref_val" ;;
  let keep :=
    map2 andb (map (row_complete df) (seq 0 (nrows df)))
         (map (fun c => negb (isin ["N"%string; "I"%string] c)) grain_type) in
  x <- values (np.select keep mean_samp) ;;
  y <- values (np.select keep ref_val) ;;
  Ok (x, y).

(** A comparison table with a single row, of grain type rounded ("R"). *)
Definition one_row_table : DataFrame :=
  [("count_samp"%string, [Num (Fin 4)]);
   ("mean_samp"%string, [Num (Fin 3)]);
   ("median_samp"%string, [Num (Fin 3)]);
   ("stdev_samp"%string, [Num (Fin 0)]);
   ("ref_val"%string, [Num (Fin 1)]);
   ("grain_type"%string, [Str "R"])].

(** A comparison table of three rows: a rounded-grain row, a new-snow
    row, and a row whose window was empty. *)
Definition sparse_table : DataFrame :=
  [("count_samp"%string, [Num (Fin 4); Num (Fin 2); Num (Fin 0)]);
   ("mean_samp"%string, [Num (Fin 3); Num (Fin 7); Num NaN]);
   ("median_samp"%string, [Num (Fin 3); Num (Fin 7); Num NaN]);
   ("stdev_samp"%string, [Num (Fin 0); Num (Fin 1); Num NaN]);
   ("ref_val"%string, [Num (Fin 1); Num (Fin 5); Num (Fin 6)]);
   ("grain_type"%string, [Str "R"; Str "N"; Str "F"])].

(** ** The alignment search *)

(** [series.max()]: the greatest value that is not NaN, NaN when there
    is none. *)
Definition series_max (l : list float) : float :=
  fold_left (fun acc x =>
               if is_nan x then acc
               else if is_nan acc then x
               else if fltb acc x then x else acc) l NaN.

(** [np.amin([a, b])] *)
Definition amin2 (a b : float) : float :=
  if is_nan a || is_nan b then NaN else if fltb b a then b else a.

(** Whether a trial sorts strictly before another under
    [sort_values(['r', 'rmse'], ascending=[False, True])]: greater [r]
    first, then smaller [rmse], NaN last in both. *)
Definition rmse_before (a b : float) : bool :=
  if is_nan a then false else if is_nan b then true else fltb a b.

Definition sorts_before (a b : float * float) : bool :=
  if is_nan (fst a) then
    (if is_nan (fst b) then rmse_before (snd a) (snd b) else false)
  else if is_nan (fst b) then true
  else if fltb (fst b) (fst a) then true
  else if fltb (fst a) (fst b) then false
  else rmse_before (snd a) (snd b).

(** The label of the first row after the (stable) sort. *)
Fixpoint best_from (best : float * float) (bi i : nat)
    (l : list (float * float)) : nat :=
  match l with
  | [] => bi
  | x :: t =>
      if sorts_before x best then best_from x i (S i) t
      else best_from best bi (S i) t
  end.

Definition min_scaling_idx (skill : list (float * float)) : list nat :=
  match skill with
  | [] => []
  | x :: t => [best_from x 0%nat 1%nat t]
  end.

(** The loop [calc_skill(profile, samp_h) for profile in
    compare_profiles]: every table of the list is handed to
    [calc_skill] and is left as that call leaves it. *)
Fixpoint score_profiles (samp_h : R) (profiles : list DataFrame)
  : outcome (list (float * float) * list DataFrame) :=
  match profiles with
  | [] => Ok ([], [])
  | p :: t =>
      match calc_skill samp_h true p with
      | (Ok s, p') =>
          rest <- score_profiles samp_h t ;;
          Ok (s :: fst rest, p' :: snd rest)
      | (Raise e, _) => Raise e
      | (Timeout, _) => Timeout
      end
  end.

(** The one-row table [scaling_meta]. *)
Record scaling_meta : Type := {
  index : nat;
  r : float;
  rmse : float;
  ref_type : string;
  scale_coeff : list R;
  scale_per : R;
  n_obs : nat;
  n_comp : nat;
  n_tests : nat
}.

Section EvalScaling.

Variable G : Type.
Variable choice : nat -> G -> list nat * G.
Variable uniform : R -> R -> G -> R * G.
Variable zoom : list float -> R -> list float.

(** What [eval_scaling] can change: the generator and the two tables it
    is given. *)
Record world : Type := {
  rng : G;
  smp_dat : DataFrame;
  ref_dat : DataFrame
}.

Definition with_rng {A : Type} (m : M G A) : M world A :=
  fun w =>
    let (o, g) := m (rng w) in
    (o, {| rng := g; smp_dat := smp_dat w; ref_dat := ref_dat w |}).

Definition get_smp : M world DataFrame := fun w => (Ok (smp_dat w), w).
Definition get_ref : M world DataFrame := fun w => (Ok (ref_dat w), w).

Definition rename_ref (old new : string) : M world unit :=
  modify (fun w => {| rng := rng w; smp_dat := smp_dat w;
                      ref_dat := rename (ref_dat w) old new |}).

Definition rename_smp (old new : string) : M world unit :=
  modify (fun w => {| rng := rng w; smp_dat := rename (smp_dat w) old new;
                      ref_dat := ref_dat w |}).

Definition col_types : list string := ["density"%string; "ssa"%string].

(** [ref_dat.columns[ref_iloc][0]] with
    [ref_iloc = [get_loc(c) for c in col_types if c in ref_dat]]. *)
Definition reference_type (ref : DataFrame) : outcome string :=
  let ref_iloc :=
    flat_map (fun c => if has_column ref c
                       then match get_loc ref c with Some i => [i] | None => [] end
                       else [])
             col_types in
  nth_or IndexError (map (fun i => nth i (columns ref) EmptyString) ref_iloc) 0.

(** The body of [eval_scaling] from the two renames on, for the
    reference type [ref_type] found in the reference table; [fuel] is
    handed to every call of [random_scaling]. *)
Definition eval_scaling_body (ref_type : string) (fuel : nat) (num_tests : nat)
    (layer_h max_stretch max_layer_stretch samp_h : R)
  : M world (scaling_meta * DataFrame) :=
  _ <~ rename_ref ref_type "ref_val" ;;
  _ <~ rename_smp ref_type "smp_val" ;;
  ref <~ get_ref ;;
  _ <~ lift (site <- getitem ref "site" ;; nth_or IndexError site 0) ;;
  (* Generate scaling candidates *)
  smp <~ get_smp ;;
  smp_max <~ lift (c <- getitem smp "rel_height" ;; v <- values c ;;
                   Ok (series_max v)) ;;
  ref <~ get_ref ;;
  ref_max <~ lift (c <- getattr ref "height" ;; v <- values c ;;
                   Ok (series_max v)) ;;
  let min_len := amin2 smp_max ref_max in
  let num_sections := np.ceil_int (fdiv min_len (Fin layer_h)) in
  random_tests <~ mapMS
    (fun x => with_rng (random_scaling G choice uniform fuel x
                          max_stretch max_layer_stretch))
    (repeat num_sections num_tests) ;;
  scaled_profiles <~ mapMS
    (fun test =>
       smp <~ get_smp ;;
       lift (d <- getattr smp "rel_height" ;; d <- values d ;;
             v <- getattr smp "smp_val" ;; v <- values v ;;
             scale_profile zoom test d v layer_h None))
    random_tests ;;
  (* Extract SMP data at reference measurement heights *)
  compare_profiles <~ mapMS
    (fun p =>
       ref <~ get_ref ;;
       lift (b <- getattr ref "rel_height" ;; b <- values b ;;
             extract_samples (fst p) (snd p) b samp_h))
    scaled_profiles ;;
  compare_profiles <~ mapMS
    (fun profile => ref <~ get_ref ;; ret (profile ++ ref))
    compare_profiles ;;
  scored <~ lift (score_profiles samp_h compare_profiles) ;;
  let retrieved_skill := fst scored in
  let compare_profiles := snd scored in
  let idx := min_scaling_idx retrieved_skill in
  (* Summarize scaling evaluation *)
  i <~ lift (nth_or IndexError idx 0) ;;
  test <~ lift (nth_or IndexError random_tests i) ;;
  ref <~ get_ref ;;
  best <~ lift (nth_or IndexError compare_profiles i) ;;
  skill <~ lift (nth_or IndexError retrieved_skill i) ;;
  ret ({| index := i;
          r := fst skill;
          rmse := snd skill;
          ref_type := ref_type;
          scale_coeff := test;
          scale_per := Rsum test;
          n_obs := nrows ref;
          n_comp := nrows best;
          n_tests := num_tests |},
       best).

(** [eval_scaling(smp_dat, ref_dat, num_tests, layer_h, max_stretch,
    max_layer_stretch, samp_h)]: the reference type is read off the
    columns of the reference table, then the body runs. *)
Definition eval_scaling (fuel : nat) (num_tests : nat)
    (layer_h max_stretch max_layer_stretch samp_h : R)
  : M world (scaling_meta * DataFrame) :=
  (* Determine reference type *)
  ref <~ get_ref ;;
  ref_type <~ lift (reference_type ref) ;;
  eval_scaling_body ref_type fuel num_tests
    layer_h max_stretch max_layer_stretch samp_h.

(** A step that leaves the two tables as they are, and one that leaves
    the generator as it is. *)
Definition tables_unchanged {A : Type} (m : M world A) : Prop :=
  forall w, smp_dat (snd (m w)) = smp_dat w /\ ref_dat (snd (m w)) = ref_dat w.

Definition rng_unchanged {A : Type} (m : M world A) : Prop :=
  forall w, rng (snd (m w)) = rng w.

End EvalScaling.

(** ** A small site *)

(** A profile of two samples and a reference table of one density
    measurement, with and without an SSA column beside it. *)
Definition short_profile : DataFrame :=
  [("rel_height"%string, [Num (Fin 0); Num (Fin 1)]);
   ("density"%string, [Num (Fin 300); Num (Fin 310)])].

Definition pit_density : DataFrame :=
  [("site"%string, [Str "TVC01"]);
   ("height"%string, [Num (Fin 1)]);
   ("rel_height"%string, [Num (Fin 0)]);
   ("density"%string, [Num (Fin 305)]);
   ("grain_type"%string, [Str "R"])].

Definition pit_density_ssa : DataFrame :=
  [("site"%string, [Str "TVC01"]);
   ("height"%string, [Num (Fin 1)]);
   ("rel_height"%string, [Num (Fin 0)]);
   ("density"%string, [Num (Fin 305)]);
   ("ssa"%string, [Num (Fin 20)]);
   ("grain_type"%string, [Str "R"])].

Definition pit_temperature : DataFrame :=
  [("site"%string, [Str "TVC01"]);
   ("height"%string, [Num (Fin 1)]);
   ("rel_height"%string, [Num (Fin 0)]);
   ("temperature_k"%string, [Num (Fin 263)])].

(** A profile of four samples and a reference table of two density
    measurements, at the depths 1 and 3. *)
Definition layered_profile : DataFrame :=
  [("rel_height"%string, [Num (Fin 0); Num (Fin 1); Num (Fin 2); Num (Fin 3)]);
   ("density"%string,
    [Num (Fin 300); Num (Fin 310); Num (Fin 320); Num (Fin 330)])].

Definition pit_two_layers : DataFrame :=
  [("site"%string, [Str "TVC02"; Str "TVC02"]);
   ("height"%string, [Num (Fin 3); Num (Fin 3)]);
   ("rel_height"%string, [Num (Fin 1); Num (Fin 3)]);
   ("density"%string, [Num (Fin 300); Num (Fin 320)]);
   ("grain_type"%string, [Str "R"; Str "F"])].

(** The comparison tables of that site for the windows of half a depth
    step: of the profile as it is, whose three warped samples leave the
    window at depth 3 empty, and of the profile stretched by 0.15. *)
Definition table_unchanged : DataFrame :=
  [("count_samp"%string, [Num (Fin 1); Num (Fin 0)]);
   ("mean_samp"%string, [Num (Fin 310); Num NaN]);
   ("median_samp"%string, [Num (Fin 310); Num NaN]);
   ("stdev_samp"%string, [Num (Fin 0); Num NaN])]
  ++ rename pit_two_layers "density" "ref_val".

Definition table_stretched : DataFrame :=
  [("count_samp"%string, [Num (Fin 1); Num (Fin 1)]);
   ("mean_samp"%string, [Num (Fin 300); Num (Fin 320)]);
   ("median_samp"%string, [Num (Fin 300); Num (Fin 320)]);
   ("stdev_samp"%string, [Num (Fin 0); Num (Fin 0)])]
  ++ rename pit_two_layers "density" "ref_val".

(** The row that [extract_samples] gives a target depth whose window is
    empty. *)
Definition empty_window_row : DataFrame :=
  [("count_samp"%string, [Num (Fin 0)]);
   ("mean_samp"%string, [Num NaN]);
   ("median_samp"%string, [Num NaN]);
   ("stdev_samp"%string, [Num NaN])].

(** What the replaying generator draws in [-0.75, 0.75] for the
    recorded tenth [k]. *)
Definition replay_draw (k : nat) : R :=
  fst (replay_uniform (Ropp 0.75) 0.75 [k]).

(** ** The two SSA calibrations and the helper for missing samples *)

(** [calc_ssa_loglog(shot_noise, coefs, return_df)] *)
Definition calc_ssa_loglog (shot_noise : DataFrame) (coefs : list R)
    (return_df : bool) : outcome frame_or_array :=
  c0 <- nth_or IndexError coefs 0 ;;
  c1 <- nth_or IndexError coefs 1 ;;
  l <- getattr shot_noise "l" ;;
  l <- values l ;;
  let s1 := map (fun x => fadd (Fin c0) (fmul (Fin c1) (np.log x))) l in
  c2 <- nth_or IndexError coefs 2 ;;
  fm <- getattr shot_noise "force_median" ;;
  fm <- values fm ;;
  let s2 := map2 fadd s1 (map (fun f => fmul (Fin c2) (np.log f)) fm) in
  let ssa := map np.exp s2 in
  if return_df
  then Ok (AsFrame (assign shot_noise "ssa" (map Num ssa)))
  else Ok (AsArray ssa).

(** [calc_ssa(shot_noise, coefs, return_df)] *)
Definition calc_ssa (shot_noise : DataFrame) (coefs : list R)
    (return_df : bool) : outcome frame_or_array :=
  c0 <- nth_or IndexError coefs 0 ;;
  c1 <- nth_or IndexError coefs 1 ;;
  l <- getattr shot_noise "l" ;;
  l <- values l ;;
  let s1 := map (fun x => fadd (Fin c0) (fmul (Fin c1) (np.log x))) l in
  c2 <- nth_or IndexError coefs 2 ;;
  fm <- getattr shot_noise "force_median" ;;
  fm <- values fm ;;
  let s2 := map2 fadd s1 (map (fun f => fmul (Fin c2) (np.log f)) fm) in
  let ssa := map np.round1 s2 in
  if return_df
  then Ok (AsFrame (assign shot_noise "ssa" (map Num ssa)))
  else Ok (AsArray ssa).

(** [nan_helper(y)]: the mask of the NaN entries and the function that
    turns a mask into positions. *)
Definition nan_helper (y : list float) : list bool * (list bool -> list nat) :=
  (np.isnan y, fun z => np.nonzero z).

(** A table is rectangular when all its columns have the length of the
    first one. *)
Definition rectangular (df : DataFrame) : Prop :=
  Forall (fun p => length (snd p) = nrows df) df.

(** ** tvcfunc: the error of a comparison table *)

(** [calc_rmse(x)] *)
Definition calc_rmse (x : DataFrame) : outcome float :=
  smp_val <- getitem x "smp_val" ;;
  ref_val <- getitem x "ref_val" ;;
  smp_val <- values smp_val ;;
  ref_val <- values ref_val ;;
  Ok (fsqrt (series_mean (map2 (fun a b => let d := fsub a b in fmul d d)
                               smp_val ref_val))).

(** ** radarfunc: decibels *)

(** [to_dB(val)] and [to_lin(val)] on an array. *)
Definition to_dB (val : list float) : list float :=
  map (fun v => fmul (Fin 10) (np.log10 v)) val.

Definition to_lin (val : list float) : list float :=
  map (fun v => np.pow10 (fdiv v (Fin 10))) val.

(** ** Value ranges *)

(** A float that is not below zero (NaN and [+inf] count). *)
Definition not_negative (x : float) : Prop :=
  match x with
  | Fin r => 0 <= r
  | PInf | NaN => True
  | NInf => False
  end.

(** A correlation coefficient: NaN or a real in [-1, 1]. *)
Definition correlation_range (x : float) : Prop :=
  match x with
  | Fin r => -1 <= r <= 1
  | NaN => True
  | PInf | NInf => False
  end.

(** A table without a missing value. *)
Definition no_missing (df : DataFrame) : Prop :=
  forall p c, In p df -> In c (snd p) -> is_na c = false.

(** The sum of the products of two sequences of reals. *)
Definition Rdot (a b : list R) : R := Rsum (map2 Rmult a b).

(** Two comparison tables of two rows: one whose SMP means agree with
    the reference values, and one whose SMP means are all the same. *)
Definition matching_table : DataFrame :=
  [("mean_samp"%string, [Num (Fin 300); Num (Fin 320)]);
   ("ref_val"%string, [Num (Fin 300); Num (Fin 320)]);
   ("grain_type"%string, [Str "R"; Str "F"])].

Definition flat_table : DataFrame :=
  [("mean_samp"%string, [Num (Fin 300); Num (Fin 300)]);
   ("ref_val"%string, [Num (Fin 280); Num (Fin 320)]);
   ("grain_type"%string, [Str "R"; Str "F"])].

(** ** Random stretch candidates in binary64 *)

(** [random_scaling] once more, on binary64 numbers with the rounding
    of every operation: the budget test of the loop is made on the sum
    that numpy computes, which depends on the order of the draws. *)
Module binary64.
Import PrimFloat.

(** The loop [res += a[i]] of numpy's summation. *)
Definition sum_from (res : float) (a : list float) : float :=
  fold_left add a res.

(** The unrolled loop of the summation: eight partial sums, each adding
    up every eighth element of the blocks of eight that follow the
    first. *)
Fixpoint add_blocks (r a : list float) (blocks : nat)
  : list float * list float :=
  match blocks with
  | O => (r, a)
  | S b => add_blocks (map2 add r (firstn 8 a)) (skipn 8 a) b
  end.

Definition sum_unrolled (a : list float) : float :=
  let (r, rest) := add_blocks (firstn 8 a) (skipn 8 a) (length a / 8 - 1) in
  match r with
  | [r0; r1; r2; r3; r4; r5; r6; r7] =>
      sum_from (add (add (add r0 r1) (add r2 r3))
                    (add (add r4 r5) (add r6 r7)))
               rest
  | _ => nan
  end.

(** numpy's pairwise summation: fewer than eight elements are added up
    one after the other, up to 128 with the unrolled loop, and longer
    arrays are split in two; [fuel] bounds the depth of the splits. *)
Fixpoint pairwise_sum (fuel : nat) (a : list float) : float :=
  let n := length a in
  if Nat.ltb n 8 then sum_from zero a
  else if Nat.leb n 128 then sum_unrolled a
  else
    match fuel with
    | O => nan
    | S fuel' =>
        let n2 := (n / 2 - (n / 2) mod 8)%nat in
        add (pairwise_sum fuel' (firstn n2 a))
            (pairwise_sum fuel' (skipn n2 a))
    end.

(** [arr.sum()] of a one-dimensional float64 array: the reduction
    starts from zero (the sign of a zero result is not followed). *)
Definition sum (a : list float) : float :=
  add zero (pairwise_sum (length a) a).

(** [lo <= x <= hi] *)
Definition within (lo hi x : float) : bool := leb lo x && leb x hi.

Section RandomScaling.

Variable G : Type.
Variable choice : nat -> G -> list nat * G.
Variable uniform : float -> float -> G -> float * G.

Fixpoint draw_layers (k : nat) (max_change_layer : float) (g : G)
  : list float * G :=
  match k with
  | O => ([], g)
  | S k' =>
      let (x, g1) := uniform (opp max_change_layer) max_change_layer g in
      let (xs, g2) := draw_layers k' max_change_layer g1 in
      (x :: xs, g2)
  end.

Fixpoint random_scaling (fuel : nat) (layer_num : Z)
    (max_change max_change_layer : float) : M G (list float) :=
  match fuel with
  | O => fun g => (Timeout, g)
  | S fuel' =>
      layer_order <~ random_choice G choice layer_num ;;
      layer_stretch <~ (fun g =>
        let (v, g') := draw_layers (length layer_order) max_change_layer g in
        (Ok v, g')) ;;
      if leb (abs (sum layer_stretch)) max_change
      then lift (np.take layer_stretch (np.argsort layer_order))
      else random_scaling fuel' layer_num max_change max_change_layer
  end.

End RandomScaling.

(** A stand-in for the generator that replays recorded draws: the
    layers in reverse order, and for [np.random.uniform(lo, hi)] the
    recorded 53-bit integers [k] put through numpy's formula
    [lo + (hi - lo) * (k / 2^53)]. *)
Definition replay_choice (n : nat) (g : list Z) : list nat * list Z :=
  (rev (seq 0 n), g).

Definition random_sample (k : Z) : float :=
  mul (of_uint63 (Uint63.of_Z k)) 0x1p-53%float.

Definition replay_uniform (lo hi : float) (g : list Z) : float * list Z :=
  match g with
  | [] => (lo, [])
  | k :: g' =>
      let x := add lo (mul (sub hi lo) (random_sample k)) in
      (if within lo hi x then x else lo, g')
  end.

(** The value of a finite binary64 number, in units of [2^-1074]. *)
Definition exact (x : float) : Z :=
  match FloatOps.Prim2SF x with
  | SpecFloat.S754_finite s m e =>
      let z := (Z.pos m * 2 ^ (e + 1074))%Z in
      if s then (- z)%Z else z
  | _ => 0%Z
  end.

(** The binary64 numbers that Python writes 0.15 and 0.75, four recorded
    draws, and the four stretches they give between -0.75 and 0.75. *)
Definition budget : float := 0x1.3333333333333p-3%float.

Definition layer_budget : float := 0x1.8p-1%float.

Definition recorded : list Z :=
  [424525621092473; 2128834584728486; 7569292735496838; 6991025642690088]%Z.

Definition drawn : list float :=
  [(-0x1.5bcd823bc2f4ap-1)%float; (-0x1.94f823860050ep-2)%float;
   0x1.05658f30ce3c8p-1%float; 0x1.a82e700250278p-2%float].

End binary64.
(** * Properties *)

(** ** Deciding comparisons of reals *)

Lemma Rleb_true a b : a <= b -> Rleb a b = true.
Proof. unfold Rleb; destruct (Rle_dec a b); [reflexivity | contradiction]. Qed.

Lemma Rleb_false a b : b < a -> Rleb a b = false.
Proof. unfold Rleb; destruct (Rle_dec a b); [lra | reflexivity]. Qed.

Lemma Rltb_true a b : a < b -> Rltb a b = true.
Proof. unfold Rltb; destruct (Rlt_dec a b); [reflexivity | contradiction]. Qed.

Lemma Rltb_false a b : b <= a -> Rltb a b = false.
Proof. unfold Rltb; destruct (Rlt_dec a b); [lra | reflexivity]. Qed.

Lemma Reqb_true a b : a = b -> Reqb a b = true.
Proof. unfold Reqb; destruct (Req_dec_T a b); [reflexivity | contradiction]. Qed.

Lemma Reqb_false a b : a <> b -> Reqb a b = false.
Proof. unfold Reqb; destruct (Req_dec_T a b); [contradiction | reflexivity]. Qed.

Lemma Rleb_iff a b : Rleb a b = true <-> a <= b.
Proof. unfold Rleb; destruct (Rle_dec a b); split; auto; discriminate. Qed.

Lemma Rltb_iff a b : Rltb a b = true <-> a < b.
Proof. unfold Rltb; destruct (Rlt_dec a b); split; auto; discriminate. Qed.

(** Settle every comparison of the goal whose outcome [lra] can tell. *)
Ltac rdecide :=
  repeat match goal with
    | |- context [Rleb ?a ?b] =>
        first [ rewrite (Rleb_true a b) by lra
              | rewrite (Rleb_false a b) by lra ]
    | |- context [Rltb ?a ?b] =>
        first [ rewrite (Rltb_true a b) by lra
              | rewrite (Rltb_false a b) by lra ]
    | |- context [Reqb ?a ?b] =>
        first [ rewrite (Reqb_true a b) by lra
              | rewrite (Reqb_false a b) by (intro; lra) ]
    end.

(** ** Rounding *)

Lemma rint_near (y : R) (z : Z) :
  IZR z - 1 / 2 < y < IZR z + 1 / 2 -> np.rint y = z.
Proof.
  intros [Hlo Hhi]. unfold np.rint.
  destruct (Rle_dec (IZR z) y) as [Hle | Hgt].
  - rewrite (Zfloor_eq z y) by lra.
    rewrite Rltb_true by lra. reflexivity.
  - assert (Hf : Zfloor y = (z - 1)%Z).
    { apply Zfloor_eq. rewrite minus_IZR. lra. }
    rewrite Hf, minus_IZR.
    rewrite Rltb_false by lra. rewrite Rltb_true by lra. lia.
Qed.

(** ** The density formula *)







Lemma values_Num {A : Type} (f : A -> float) (l : list A) :
  values (map (fun a => Num (f a)) l) = Ok (map f l).
Proof.
  unfold values. induction l as [| a l IH]; simpl; [reflexivity |].
  rewrite IH. reflexivity.
Qed.

Lemma log_positive (x : R) : 0 < x -> np.log (Fin x) = Fin (ln x).
Proof. intros H. unfold np.log. rewrite Rltb_true by exact H. reflexivity. Qed.

(** *** Rounding to binary64 *)






(** *** The formula, row by row *)

Lemma density_elementwise (c0 c1 c2 c3 : R) (rows : list (R * R)) :
  Forall (fun r => 0 < fst r) rows ->
  let fm := map (fun r => Fin (fst r)) rows in
  let l := map (fun r => Fin (snd r)) rows in
  map np.round1
    (map2 fadd
       (map2 fadd
          (map (fadd (Fin c0)) (map (fun f => fmul (Fin c1) (np.log f)) fm))
          (map2 fmul (map (fun f => fmul (Fin c2) (np.log f)) fm) l))
       (map (fmul (Fin c3)) l))
  = map (fun r => np.round1 (Fin (c0 + c1 * ln (fst r)
                                  + c2 * ln (fst r) * snd r + c3 * snd r)))
        rows.
Proof.
  intros Hpos. induction Hpos as [| [F L] rows HF _ IH]; cbn [map map2 fst snd] in *.
  - reflexivity.
  - rewrite IH, (log_positive F HF). reflexivity.
Qed.

(** [calc_density] on any table whose columns force_median and l hold
    finite numbers, the forces positive; columns beside these two and
    coefficients after the fourth are not looked at. *)
Lemma calc_density_table (shot_noise : DataFrame) (c0 c1 c2 c3 : R)
    (more : list R) (rows : list (R * R)) (return_df : bool) :
  lookup shot_noise "force_median" = Some (map (fun r => Num (Fin (fst r))) rows) ->
  lookup shot_noise "l" = Some (map (fun r => Num (Fin (snd r))) rows) ->
  Forall (fun r => 0 < fst r) rows ->
  calc_density shot_noise (c0 :: c1 :: c2 :: c3 :: more) return_df
  = let density :=
      map (fun r => np.round1 (Fin (c0 + c1 * ln (fst r)
                                    + c2 * ln (fst r) * snd r + c3 * snd r)))
          rows in
    Ok (if return_df
        then AsFrame (assign shot_noise "density" (map Num density))
        else AsArray density).
Proof.
  intros Hf Hl Hpos. unfold calc_density, getattr.
  rewrite Hf, Hl.
  cbn [nth_or nth_error bind].
  rewrite !values_Num. cbn [bind].
  rewrite (density_elementwise c0 c1 c2 c3 rows Hpos).
  destruct return_df; reflexivity.
Qed.

Lemma pow2_11 : powerRZ 2 11 = 2048.
Proof. simpl. lra. Qed.






(** ** Windowed samples *)

(** Settle the absolute values whose sign [lra] can tell. *)
Ltac rabs :=
  repeat match goal with
    | |- context [Rabs ?x] =>
        first [ rewrite (Rabs_pos_eq x) by lra
              | rewrite (Rabs_left1 x) by lra ]
    end.

Lemma mapM_Ok {A B : Type} (f : A -> outcome B) (g : A -> B) (l : list A) :
  (forall a, In a l -> f a = Ok (g a)) -> mapM f l = Ok (map g l).
Proof.
  induction l as [| a l IH]; intros H; simpl; [reflexivity |].
  rewrite (H a (or_introl eq_refl)). simpl.
  rewrite IH by (intros b Hb; apply H; right; exact Hb). reflexivity.
Qed.

Lemma window_aligned (a_height a_value : list float) (d : float) (w : R) :
  length a_height = length a_value ->
  window a_height a_value d w = Ok (in_window a_height a_value w d).
Proof.
  intros Hlen. unfold window, np.bool_index.
  rewrite length_map, Hlen, Nat.eqb_refl. reflexivity.
Qed.

(** On aligned arrays [extract_samples] does not raise, and each row
    holds the statistics of its window; the count is
    [np.count_nonzero] of the values of the window. *)
Lemma extract_samples_rows (a_height a_value b_height : list float) (w : R) :
  length a_height = length a_value ->
  extract_samples a_height a_value b_height w
  = Ok [("count_samp"%string,
         map (fun d => Num (Fin (INR (np.count_nonzero
                                        (in_window a_height a_value w d)))))
             b_height);
        ("mean_samp"%string,
         map (fun d => Num (np.mean (in_window a_height a_value w d))) b_height);
        ("median_samp"%string,
         map (fun d => Num (np.median (in_window a_height a_value w d))) b_height);
        ("stdev_samp"%string,
         map (fun d => Num (np.std (in_window a_height a_value w d))) b_height)].
Proof.
  intros Hlen. unfold extract_samples.
  rewrite (mapM_Ok _ (fun d => Num (Fin (INR (np.count_nonzero
                                  (in_window a_height a_value w d))))))
    by (intros d _; rewrite window_aligned by exact Hlen; reflexivity).
  cbn [bind].
  rewrite (mapM_Ok _ (fun d => Num (np.mean (in_window a_height a_value w d))))
    by (intros d _; rewrite window_aligned by exact Hlen; reflexivity).
  cbn [bind].
  rewrite (mapM_Ok _ (fun d => Num (np.median (in_window a_height a_value w d))))
    by (intros d _; rewrite window_aligned by exact Hlen; reflexivity).
  cbn [bind].
  rewrite (mapM_Ok _ (fun d => Num (np.std (in_window a_height a_value w d))))
    by (intros d _; rewrite window_aligned by exact Hlen; reflexivity).
  reflexivity.
Qed.

Lemma select_all_false {A : Type} (mask : list bool) (a : list A) :
  Forall (fun b => b = false) mask -> np.select mask a = [].
Proof.
  intros H. revert a. induction H as [| b mask Hb _ IH]; intros a.
  - destruct a; reflexivity.
  - destruct a as [| x a]; [reflexivity |]. simpl. rewrite Hb. apply IH.
Qed.

Lemma fdiv_zero_zero : fdiv (Fin 0) (Fin 0) = NaN.
Proof.
  unfold fdiv, signed_inf. rewrite Reqb_true by reflexivity.
  rewrite !Rltb_false by lra. reflexivity.
Qed.

Lemma mean_nil : np.mean [] = NaN.
Proof. unfold np.mean, np.sum. simpl. apply fdiv_zero_zero. Qed.

(** A window that no source sample falls in: count 0, and NaN for the
    mean, the median and the standard deviation. *)
Lemma empty_window_statistics (a_height a_value : list float) (w : R) (d : float) :
  Forall (fun h => fleb (fabs (fsub h d)) (Fin w) = false) a_height ->
  np.count_nonzero (in_window a_height a_value w d) = 0%nat
  /\ np.mean (in_window a_height a_value w d) = NaN
  /\ np.median (in_window a_height a_value w d) = NaN
  /\ np.std (in_window a_height a_value w d) = NaN.
Proof.
  intros H. unfold in_window.
  rewrite select_all_false.
  - unfold np.std. rewrite mean_nil. simpl. rewrite mean_nil.
    repeat split; reflexivity.
  - apply Forall_map. exact H.
Qed.

(** The count of a window is the number of its samples exactly when none
    of them has the value zero. *)
Lemma count_nonzero_length (l : list float) :
  np.count_nonzero l = length l <-> Forall (fun x => feqb x (Fin 0) = false) l.
Proof.
  unfold np.count_nonzero. induction l as [| x l IH]; simpl.
  - split; intros; constructor.
  - destruct (feqb x (Fin 0)) eqn:E; simpl.
    + split; intros H.
      * pose proof (filter_length_le (fun x => negb (feqb x (Fin 0))) l). lia.
      * inversion H; subst. congruence.
    + split; intros H.
      * constructor; [exact E |]. apply IH. lia.
      * inversion H; subst. f_equal. apply IH. assumption.
Qed.

(** C6 (the count column).  Two source samples lie in the window of the
    target depth 15, one of them with the value 0: the row has count 1,
    the number of non-zero values, while its mean, median and standard
    deviation are those of both samples. *)
Theorem extract_samples_counts_nonzero_values :
  extract_samples [Fin 10; Fin 20] [Fin 0; Fin 5] [Fin 15] 10
  = Ok [("count_samp"%string, [Num (Fin 1)]);
        ("mean_samp"%string, [Num (Fin 2.5)]);
        ("median_samp"%string, [Num (Fin 2.5)]);
        ("stdev_samp"%string, [Num (Fin 2.5)])].
Proof.
  rewrite extract_samples_rows by reflexivity.
  assert (Hw : in_window [Fin 10; Fin 20] [Fin 0; Fin 5] 10 (Fin 15)
               = [Fin 0; Fin 5]).
  { unfold in_window. cbn [map fsub fadd fopp fabs fleb]. rabs. rdecide.
    reflexivity. }
  cbn [map]. rewrite Hw.
  assert (Hm : np.mean [Fin 0; Fin 5] = Fin 2.5).
  { unfold np.mean, np.sum. cbn [fold_left fadd length INR fdiv]. rdecide.
    f_equal. lra. }
  assert (Hmed : np.median [Fin 0; Fin 5] = Fin 2.5).
  { unfold np.median, np.sort.
    cbn [existsb is_nan orb fold_right np.insert_sorted fleb length].
    rdecide. cbn [Nat.even Nat.div Nat.divmod fst Nat.sub nth]. exact Hm. }
  assert (Hs : np.std [Fin 0; Fin 5] = Fin 2.5).
  { unfold np.std. rewrite Hm. cbn [map fsub fadd fopp fabs fmul].
    unfold np.mean, np.sum. cbn [fold_left fadd length INR fdiv]. rdecide.
    cbn [fsqrt]. rabs. rdecide. f_equal.
    apply sqrt_lem_1; lra. }
  rewrite Hm, Hmed, Hs.
  unfold np.count_nonzero. cbn [filter feqb]. rdecide. cbn [negb length INR].
  reflexivity.
Qed.

(** ** Scoring *)

Lemma lookup_filter_rows (keep : list bool) (df : DataFrame) (c : string) :
  lookup (filter_rows keep df) c = option_map (np.select keep) (lookup df c).
Proof.
  induction df as [| [n col] df IH]; simpl; [reflexivity |].
  destruct (String.eqb c n); [reflexivity | exact IH].
Qed.

Lemma select_nil_r {A : Type} (k : list bool) : np.select k (@nil A) = [].
Proof. destruct k; reflexivity. Qed.

Lemma select_twice {A B : Type} (f : A -> bool) (k : list bool)
    (g : list A) (col : list B) :
  np.select (map f (np.select k g)) (np.select k col)
  = np.select (map2 andb k (map f g)) col.
Proof.
  revert g col. induction k as [| b k IH]; intros g col.
  - reflexivity.
  - destruct g as [| x g], col as [| y col]; cbn [np.select map map2].
    + reflexivity.
    + reflexivity.
    + rewrite !select_nil_r. reflexivity.
    + destruct b; cbn [andb].
      * cbn [map np.select]. destruct (f x); rewrite IH; reflexivity.
      * apply IH.
Qed.

Lemma fdiv_nan_r (a : float) : fdiv a NaN = NaN.
Proof. destruct a; reflexivity. Qed.

Lemma corr_short (x y : list float) :
  (length x < 2)%nat -> corrcoef10 x y = NaN.
Proof.
  intros Hlen. unfold corrcoef10.
  assert (Hfact : (if Rleb (INR (length x) - 1) 0 then 0 else INR (length x) - 1) = 0).
  { destruct x as [| a [| b x]]; simpl in *; try lia.
    - rewrite Rleb_true by lra. reflexivity.
    - rewrite Rleb_true by lra. reflexivity. }
  rewrite Hfact.
  assert (Hs : fdiv (Fin 1) (Fin 0) = PInf).
  { unfold fdiv, signed_inf. rewrite Reqb_true by reflexivity.
    rewrite Rltb_true by lra. reflexivity. }
  rewrite Hs.
  assert (Hxx : fmul (dot (map (fun a => fsub a (np.mean x)) x)
                          (map (fun a => fsub a (np.mean x)) x)) PInf = NaN).
  { destruct x as [| a [| b x]]; simpl in Hlen; try lia.
    - unfold dot, np.sum. simpl. unfold signed_inf. rewrite !Rltb_false by lra. reflexivity.
    - unfold dot, np.sum, np.mean, np.sum. cbn [map map2 fold_left length INR].
      destruct a as [a | | |]; cbn [fadd fdiv fsub fopp fmul].
      + rewrite Reqb_false by lra. cbn [fadd fdiv fsub fopp fmul].
        unfold signed_inf. rewrite !Rltb_false by lra. reflexivity.
      + rewrite Rltb_false by lra. reflexivity.
      + rewrite Rltb_false by lra. reflexivity.
      + reflexivity. }
  rewrite Hxx. cbn [fsqrt]. rewrite fdiv_nan_r. reflexivity.
Qed.

Lemma rmse_one (a b : float) :
  fsqrt (series_mean (map2 (fun a b => let d := fsub a b in fmul d d) [a] [b]))
  = fabs (fsub a b).
Proof.
  cbn [map2]. unfold series_mean.
  destruct (fsub a b) as [d | | |]; cbn [fmul filter is_nan negb].
  - unfold np.mean, np.sum. cbn [fold_left length INR fadd fdiv].
    rewrite Reqb_false by lra. cbn [fsqrt fabs].
    rewrite Rltb_false by nra. f_equal.
    replace ((0 + d * d) / 1) with (Rsqr d) by (unfold Rsqr; lra).
    apply sqrt_Rsqr_abs.
  - unfold np.mean, np.sum. cbn [fold_left length INR fadd fdiv].
    rewrite Rltb_false by lra. reflexivity.
  - unfold np.mean, np.sum. cbn [fold_left length INR fadd fdiv].
    rewrite Rltb_false by lra. reflexivity.
  - rewrite mean_nil. reflexivity.
Qed.

(** With fewer than two valid rows the correlation is NaN; the RMSE is
    NaN for no valid row and the distance of the two values for one. *)
Lemma calc_skill_few (df : DataFrame) (w : R) (x y : list float) :
  valid_rows df = Ok (x, y) ->
  (length x < 2)%nat ->
  length y = length x ->
  calc_skill w true df
  = (Ok (NaN, match x, y with
              | [a], [b] => fabs (fsub a b)
              | _, _ => NaN
              end),
     dropna df).
Proof.
  unfold valid_rows, calc_skill, getitem.
  destruct (lookup df "grain_type") as [gt |] eqn:Hgt; [| discriminate].
  destruct (lookup df "mean_samp") as [ms |] eqn:Hms; [| discriminate].
  destruct (lookup df "ref_val") as [rv |] eqn:Hrv; [| discriminate].
  cbn [bind]. intros Hv Hlen Hxy.
  unfold bindM, modify, get, lift. unfold dropna at 1 2.
  rewrite lookup_filter_rows, Hgt. cbn [option_map].
  rewrite !lookup_filter_rows.
  unfold dropna. rewrite !lookup_filter_rows, Hms, Hrv. cbn [option_map bind].
  rewrite !select_twice.
  destruct (values (np.select _ ms)) as [x' | |]; try discriminate.
  cbn [bind] in *.
  destruct (values (np.select _ rv)) as [y' | |]; try discriminate.
  cbn [bind] in *. injection Hv as -> ->.
  rewrite corr_short by exact Hlen.
  do 3 f_equal.
  destruct x as [| a [| a' x]], y as [| b [| b' y]]; simpl in Hlen, Hxy; try lia.
  - cbn [map2]. unfold series_mean. cbn [filter]. rewrite mean_nil. reflexivity.
  - apply rmse_one.
Qed.

(** C7 (as the code has it).  When fewer than two valid rows remain,
    [calc_skill] does not raise and the correlation is NaN.  With no
    valid row the RMSE is NaN as well; with exactly one valid row the
    RMSE is the absolute difference of its [mean_samp] and [ref_val].
    The table passed in is left without its incomplete rows. *)
Theorem calc_skill_fewer_than_two_rows (df : DataFrame) (w : R)
    (x y : list float) :
  valid_rows df = Ok (x, y) ->
  (length x < 2)%nat ->
  length y = length x ->
  calc_skill w true df
  = (Ok (NaN, match x, y with
              | [a], [b] => fabs (fsub a b)
              | _, _ => NaN
              end),
     dropna df).
Proof. apply calc_skill_few. Qed.

Lemma valid_rows_sparse_table : valid_rows sparse_table = Ok ([Fin 3], [Fin 1]).
Proof. reflexivity. Qed.

Lemma calc_skill_fewer_than_two_rows_witness :
  valid_rows sparse_table = Ok ([Fin 3], [Fin 1])
  /\ calc_skill 15 true sparse_table
     = (Ok (NaN, fabs (fsub (Fin 3) (Fin 1))), dropna sparse_table).
Proof.
  split; [exact valid_rows_sparse_table |].
  apply (calc_skill_fewer_than_two_rows sparse_table 15 [Fin 3] [Fin 1]).
  - exact valid_rows_sparse_table.
  - simpl; lia.
  - reflexivity.
Defined.

(** C7 (as stated) fails: one valid row, and the RMSE is 2, not NaN. *)
Lemma calc_skill_one_row_rmse :
  valid_rows one_row_table = Ok ([Fin 3], [Fin 1])
  /\ fst (calc_skill 15 true one_row_table) = Ok (NaN, Fin 2)
  /\ Fin 2 <> NaN.
Proof.
  split; [reflexivity |]. split; [| discriminate].
  rewrite (calc_skill_few one_row_table 15 [Fin 3] [Fin 1]);
    [| reflexivity | simpl; lia | reflexivity].
  cbn [fst fsub fadd fopp fabs]. rabs. do 3 f_equal. lra.
Qed.

(** ** Random stretch candidates *)

Lemma insert_key_perm (p : nat * nat) (l : list (nat * nat)) :
  Permutation (np.insert_key p l) (p :: l).
Proof.
  induction l as [| q l IH]; simpl; [reflexivity |].
  destruct (Nat.leb (fst p) (fst q)); [reflexivity |].
  rewrite IH. apply perm_swap.
Qed.

Lemma sort_keys_perm (l : list (nat * nat)) :
  Permutation (fold_right np.insert_key [] l) l.
Proof.
  induction l as [| p l IH]; simpl; [reflexivity |].
  rewrite insert_key_perm. constructor. exact IH.
Qed.

Lemma snd_combine_seq (l : list nat) (s : nat) :
  map snd (combine l (seq s (length l))) = seq s (length l).
Proof.
  revert s. induction l as [| x l IH]; intros s; simpl; [reflexivity |].
  rewrite IH. reflexivity.
Qed.

Lemma argsort_perm (l : list nat) :
  Permutation (np.argsort l) (seq 0 (length l)).
Proof.
  unfold np.argsort. rewrite <- (snd_combine_seq l 0) at 2.
  apply Permutation_map, sort_keys_perm.
Qed.

Lemma take_in_range {A : Type} (d : A) (a : list A) (idx : list nat) :
  Forall (fun i => (i < length a)%nat) idx ->
  np.take a idx = Ok (map (fun i => nth i a d) idx).
Proof.
  intros H. unfold np.take. apply mapM_Ok. intros i Hi.
  rewrite Forall_forall in H. specialize (H i Hi).
  unfold nth_or. destruct (nth_error a i) as [x |] eqn:E.
  - f_equal. symmetry. apply nth_error_nth. exact E.
  - apply nth_error_None in E. lia.
Qed.

Lemma map_nth_seq_id {A : Type} (d : A) (a : list A) :
  map (fun i => nth i a d) (seq 0 (length a)) = a.
Proof.
  induction a as [| x a IH]; simpl; [reflexivity |].
  f_equal. rewrite <- seq_shift, map_map. exact IH.
Qed.

Lemma take_permutation {A : Type} (a : list A) (idx : list nat) :
  Permutation idx (seq 0 (length a)) ->
  exists v, np.take a idx = Ok v /\ Permutation v a.
Proof.
  intros Hp. destruct a as [| d a'] eqn:Ea.
  - simpl in Hp. apply Permutation_sym, Permutation_nil in Hp. subst idx.
    exists []. split; reflexivity.
  - rewrite <- Ea in *. exists (map (fun i => nth i a d) idx). split.
    + apply take_in_range. apply (Permutation_Forall (Permutation_sym Hp)).
      apply Forall_forall. intros i Hi. apply in_seq in Hi. lia.
    + eapply Permutation_trans; [apply Permutation_map; exact Hp |].
      rewrite map_nth_seq_id. reflexivity.
Qed.

Lemma Rsum_from (l : list R) (a : R) : fold_left Rplus l a = a + Rsum l.
Proof.
  unfold Rsum. revert a. induction l as [| x l IH]; intros a; simpl.
  - lra.
  - rewrite IH, (IH (0 + x)). lra.
Qed.

Lemma Rsum_cons (x : R) (l : list R) : Rsum (x :: l) = x + Rsum l.
Proof. unfold Rsum at 1. simpl. rewrite Rsum_from. lra. Qed.

Lemma Rsum_permutation (l m : list R) : Permutation l m -> Rsum l = Rsum m.
Proof.
  induction 1 as [| x l m _ IH | x y l | l m n _ IH1 _ IH2].
  - reflexivity.
  - rewrite !Rsum_cons, IH. reflexivity.
  - rewrite !Rsum_cons. lra.
  - congruence.
Qed.

Section Rounds.
Variable G : Type.
Variable choice : nat -> G -> list nat * G.
Variable uniform : R -> R -> G -> R * G.

(** One round of the loop of [random_scaling]. *)
Lemma random_scaling_round (fuel : nat) (layer_num : Z) (mc mcl : R) (g : G) :
  random_scaling G choice uniform (S fuel) layer_num mc mcl g
  = if (layer_num <? 0)%Z then (Raise ValueError, g)
    else
      let c := choice (Z.to_nat layer_num) g in
      let d := draw_layers G uniform (length (fst c)) mcl (snd c) in
      if Rleb (Rabs (Rsum (fst d))) mc
      then (np.take (fst d) (np.argsort (fst c)), snd d)
      else random_scaling G choice uniform fuel layer_num mc mcl (snd d).
Proof.
  cbn [random_scaling]. unfold bindM, random_choice.
  destruct (layer_num <? 0)%Z; [reflexivity |].
  destruct (choice (Z.to_nat layer_num) g) as [p g1]. cbn [fst snd].
  destruct (draw_layers G uniform (length p) mcl g1) as [ls g2]. cbn [fst snd].
  destruct (Rleb (Rabs (Rsum ls)) mc); reflexivity.
Qed.


Lemma random_scaling_more_fuel (fuel fuel' : nat) (layer_num : Z) (mc mcl : R)
    (g g' : G) (v : list R) :
  random_scaling G choice uniform fuel layer_num mc mcl g = (Ok v, g') ->
  (fuel <= fuel')%nat ->
  random_scaling G choice uniform fuel' layer_num mc mcl g = (Ok v, g').
Proof.
  revert fuel' g. induction fuel as [| fuel IH]; intros fuel' g Hrun Hle.
  - discriminate.
  - destruct fuel' as [| fuel']; [lia |].
    rewrite random_scaling_round in *.
    destruct (layer_num <? 0)%Z; [exact Hrun |].
    cbv zeta in *.
    destruct (Rleb _ mc); [exact Hrun |].
    apply IH; [exact Hrun | lia].
Qed.




End Rounds.

Section RandomLaws.

Variable G : Type.
Variable choice : nat -> G -> list nat * G.
Variable uniform : R -> R -> G -> R * G.

Hypothesis choice_permutation :
  forall n g, Permutation (fst (choice n g)) (seq 0 n).
Hypothesis uniform_range :
  forall lo hi g, lo <= hi -> lo <= fst (uniform lo hi g) <= hi.


Lemma draw_layers_spec (k : nat) (m : R) (g : G) :
  0 <= m ->
  length (fst (draw_layers G uniform k m g)) = k
  /\ Forall (fun s => Rabs s <= m) (fst (draw_layers G uniform k m g)).
Proof.
  intros Hm. revert g. induction k as [| k IH]; intros g; simpl.
  - split; [reflexivity | constructor].
  - pose proof (uniform_range (- m) m g ltac:(lra)) as Hu.
    destruct (uniform (- m) m g) as [x g1]. simpl in Hu.
    specialize (IH g1). destruct (draw_layers G uniform k m g1) as [xs g2].
    simpl in *. destruct IH as [IHl IHf]. split; [lia |].
    constructor; [| exact IHf]. apply Rabs_le. lra.
Qed.




End RandomLaws.

(** The replaying generator keeps the two laws. *)
Lemma replay_choice_permutation (n : nat) (g : list nat) :
  Permutation (fst (replay_choice n g)) (seq 0 n).
Proof. simpl. apply Permutation_sym, Permutation_rev. Qed.

Lemma replay_uniform_range (lo hi : R) (g : list nat) :
  lo <= hi -> lo <= fst (replay_uniform lo hi g) <= hi.
Proof.
  intros H. destruct g as [| k g]; cbn [replay_uniform fst]; [lra |].
  assert (Hlt : (k mod 11 <= 10)%nat)
    by (pose proof (Nat.mod_upper_bound k 11); lia).
  apply le_INR in Hlt. pose proof (pos_INR (k mod 11)) as Hpos.
  set (u := INR (k mod 11)) in *.
  replace (INR 10) with 10 in Hlt by (simpl; lra).
  assert (Hu : 0 <= u / 10 <= 1) by lra.
  split; nra.
Qed.

Lemma replay_run :
  random_scaling (list nat) replay_choice replay_uniform 3 2 0.1 0.7 [3; 8; 4; 6]%nat
  = (Ok [0.14; -0.14], []).
Proof.
  rewrite random_scaling_round. change (Z.to_nat 2) with 2%nat.
  cbn [Z.ltb Z.compare replay_choice Z.to_nat PosDef.Pos.to_nat PosDef.Pos.iter_op Nat.add
       seq rev app length draw_layers replay_uniform Nat.modulo Nat.divmod
       fst snd Nat.sub INR].
  unfold Rsum at 1. cbn [fold_left]. rabs. rdecide.
  rewrite random_scaling_round. change (Z.to_nat 2) with 2%nat.
  cbn [Z.ltb Z.compare replay_choice Z.to_nat PosDef.Pos.to_nat PosDef.Pos.iter_op Nat.add
       seq rev app length draw_layers replay_uniform Nat.modulo Nat.divmod
       fst snd Nat.sub INR].
  unfold Rsum at 1. cbn [fold_left]. rabs. rdecide.
  cbv [np.argsort np.take]. simpl.
  f_equal. f_equal. f_equal; [lra |]. f_equal. lra.
Qed.




(** ** Random stretch candidates in binary64 *)

Lemma float_leb_opp (m : PrimFloat.float) :
  PrimFloat.leb PrimFloat.zero m = true ->
  PrimFloat.leb (PrimFloat.opp m) (PrimFloat.opp m) = true
  /\ PrimFloat.leb (PrimFloat.opp m) m = true.
Proof.
  rewrite !FloatAxioms.leb_spec, FloatAxioms.opp_spec.
  change (FloatOps.Prim2SF PrimFloat.zero) with (SpecFloat.S754_zero false).
  unfold SpecFloat.SFleb, SpecFloat.SFcompare, SpecFloat.SFopp.
  destruct (FloatOps.Prim2SF m) as [[] | [] | | [] mm e]; cbn; try discriminate;
    intros _; rewrite ?Z.compare_refl, ?Pos.compare_cont_refl, ?Pos.compare_refl;
    split; reflexivity.
Qed.

Section FloatCandidates.

Variable G : Type.
Variable choice : nat -> G -> list nat * G.
Variable uniform : PrimFloat.float -> PrimFloat.float -> G -> PrimFloat.float * G.

(** The two laws of the generator.  [np.random.uniform(-m, m)] is
    [-m + (m - (-m)) * u] for a [u] in [0, 1), with every operation
    rounded: for a finite range that is a number from [-m] to [m]. *)
Hypothesis choice_permutation :
  forall n g, Permutation (fst (choice n g)) (seq 0 n).
Hypothesis uniform_range :
  forall m g,
    PrimFloat.leb PrimFloat.zero m = true ->
    PrimFloat.ltb (PrimFloat.sub m (PrimFloat.opp m)) PrimFloat.infinity = true ->
    binary64.within (PrimFloat.opp m) m (fst (uniform (PrimFloat.opp m) m g))
    = true.

Lemma float_round (fuel : nat) (layer_num : Z) (mc mcl : PrimFloat.float) (g : G) :
  binary64.random_scaling G choice uniform (S fuel) layer_num mc mcl g
  = if (layer_num <? 0)%Z then (Raise ValueError, g)
    else
      let c := choice (Z.to_nat layer_num) g in
      let d := binary64.draw_layers G uniform (length (fst c)) mcl (snd c) in
      if PrimFloat.leb (PrimFloat.abs (binary64.sum (fst d))) mc
      then (np.take (fst d) (np.argsort (fst c)), snd d)
      else binary64.random_scaling G choice uniform fuel layer_num mc mcl (snd d).
Proof.
  cbn [binary64.random_scaling]. unfold bindM, random_choice.
  destruct (layer_num <? 0)%Z; [reflexivity |].
  destruct (choice (Z.to_nat layer_num) g) as [p g1]. cbn [fst snd].
  destruct (binary64.draw_layers G uniform (length p) mcl g1) as [ls g2].
  cbn [fst snd].
  destruct (PrimFloat.leb (PrimFloat.abs (binary64.sum ls)) mc); reflexivity.
Qed.

Lemma float_draw_layers_spec (k : nat) (m : PrimFloat.float) (g : G) :
  PrimFloat.leb PrimFloat.zero m = true ->
  PrimFloat.ltb (PrimFloat.sub m (PrimFloat.opp m)) PrimFloat.infinity = true ->
  length (fst (binary64.draw_layers G uniform k m g)) = k
  /\ Forall (fun s => binary64.within (PrimFloat.opp m) m s = true)
            (fst (binary64.draw_layers G uniform k m g)).
Proof.
  intros Hm Hfin. revert g. induction k as [| k IH]; intros g;
    cbn [binary64.draw_layers].
  - split; [reflexivity | constructor].
  - pose proof (uniform_range m g Hm Hfin) as Hu.
    destruct (uniform (PrimFloat.opp m) m g) as [x g1]. cbn [fst] in Hu.
    specialize (IH g1).
    destruct (binary64.draw_layers G uniform k m g1) as [xs g2].
    cbn [fst length] in *. destruct IH as [IHl IHf].
    split; [rewrite IHl; reflexivity |].
    constructor; [exact Hu | exact IHf].
Qed.

(** C2 (as the code has it).  Every vector that [random_scaling]
    returns for [layer_num] layers has [layer_num] elements, each from
    [-max_change_layer] to [max_change_layer]; it holds the stretches
    of one round of draws, every stretch moved to the layer it was
    drawn for, and the binary64 sum of these stretches, added up in the
    order drawn, has a magnitude of at most [max_change].  The bound is
    on that sum, not on the sum of the vector returned. *)
Theorem random_scaling_invariants (fuel : nat) (layer_num : Z)
    (max_change max_change_layer : PrimFloat.float) (g g' : G)
    (v : list PrimFloat.float) :
  PrimFloat.leb PrimFloat.zero max_change_layer = true ->
  PrimFloat.ltb (PrimFloat.sub max_change_layer (PrimFloat.opp max_change_layer))
    PrimFloat.infinity = true ->
  binary64.random_scaling G choice uniform fuel layer_num
    max_change max_change_layer g
  = (Ok v, g') ->
  Z.of_nat (length v) = layer_num
  /\ Forall (fun s => binary64.within (PrimFloat.opp max_change_layer)
                        max_change_layer s = true) v
  /\ exists (layer_order : list nat) (layer_stretch : list PrimFloat.float),
       Permutation layer_order (seq 0 (length v))
       /\ np.take layer_stretch (np.argsort layer_order) = Ok v
       /\ Permutation v layer_stretch
       /\ PrimFloat.leb (PrimFloat.abs (binary64.sum layer_stretch)) max_change
          = true.
Proof.
  intros Hm Hfin. revert g. induction fuel as [| fuel IH]; intros g Hrun;
    [discriminate |].
  rewrite float_round in Hrun.
  destruct (layer_num <? 0)%Z eqn:Hneg; [discriminate |]. cbv zeta in Hrun.
  set (c := choice (Z.to_nat layer_num) g) in *.
  set (d := binary64.draw_layers G uniform (length (fst c)) max_change_layer
              (snd c)) in *.
  destruct (PrimFloat.leb (PrimFloat.abs (binary64.sum (fst d))) max_change)
    eqn:Hacc; [| exact (IH _ Hrun)].
  pose proof (choice_permutation (Z.to_nat layer_num) g) as Hperm. fold c in Hperm.
  destruct (float_draw_layers_spec (length (fst c)) max_change_layer (snd c)
              Hm Hfin) as [Hlen Hall].
  fold d in Hlen, Hall.
  assert (Hp : Permutation (np.argsort (fst c)) (seq 0 (length (fst d)))).
  { rewrite Hlen. apply argsort_perm. }
  destruct (take_permutation (fst d) _ Hp) as [v' [Htake Hv']].
  rewrite Htake in Hrun. injection Hrun as <- _.
  assert (Hn : length v' = Z.to_nat layer_num).
  { rewrite (Permutation_length Hv'), Hlen, (Permutation_length Hperm).
    apply length_seq. }
  split; [| split].
  - rewrite Hn. apply Z.ltb_ge in Hneg. lia.
  - apply (Permutation_Forall (Permutation_sym Hv')). exact Hall.
  - exists (fst c), (fst d). repeat split.
    + rewrite Hn. exact Hperm.
    + exact Htake.
    + exact Hv'.
    + exact Hacc.
Qed.

End FloatCandidates.

(** The replaying generator keeps the two laws. *)
Lemma float_replay_choice_permutation (n : nat) (g : list Z) :
  Permutation (fst (binary64.replay_choice n g)) (seq 0 n).
Proof. cbn [binary64.replay_choice fst]. apply Permutation_sym, Permutation_rev. Qed.

Lemma float_replay_uniform_range (m : PrimFloat.float) (g : list Z) :
  PrimFloat.leb PrimFloat.zero m = true ->
  PrimFloat.ltb (PrimFloat.sub m (PrimFloat.opp m)) PrimFloat.infinity = true ->
  binary64.within (PrimFloat.opp m) m
    (fst (binary64.replay_uniform (PrimFloat.opp m) m g)) = true.
Proof.
  intros Hm _. destruct (float_leb_opp m Hm) as [Hlo Hhi].
  assert (Hedge : binary64.within (PrimFloat.opp m) m (PrimFloat.opp m) = true).
  { unfold binary64.within. rewrite Hlo, Hhi. reflexivity. }
  destruct g as [| k g]; cbn [binary64.replay_uniform fst]; [exact Hedge |].
  set (x := PrimFloat.add (PrimFloat.opp m)
              (PrimFloat.mul (PrimFloat.sub m (PrimFloat.opp m))
                 (binary64.random_sample k))).
  destruct (binary64.within (PrimFloat.opp m) m x) eqn:E; [exact E | exact Hedge].
Qed.

(** The recorded draws give the four stretches; their sum in the order
    drawn passes the test against the budget 0.15, and the vector
    returned holds them in reverse order. *)
Lemma float_replay_run :
  binary64.random_scaling (list Z) binary64.replay_choice binary64.replay_uniform
    1 4 binary64.budget binary64.layer_budget binary64.recorded
  = (Ok (rev binary64.drawn), []).
Proof. vm_compute. reflexivity. Qed.

Lemma random_scaling_invariants_witness :
  binary64.random_scaling (list Z) binary64.replay_choice binary64.replay_uniform
    1 4 binary64.budget binary64.layer_budget binary64.recorded
  = (Ok (rev binary64.drawn), [])
  /\ Z.of_nat (length (rev binary64.drawn)) = 4%Z
  /\ Forall (fun s => binary64.within (PrimFloat.opp binary64.layer_budget)
                        binary64.layer_budget s = true) (rev binary64.drawn)
  /\ exists (layer_order : list nat) (layer_stretch : list PrimFloat.float),
       Permutation layer_order (seq 0 (length (rev binary64.drawn)))
       /\ np.take layer_stretch (np.argsort layer_order)
          = Ok (rev binary64.drawn)
       /\ Permutation (rev binary64.drawn) layer_stretch
       /\ PrimFloat.leb (PrimFloat.abs (binary64.sum layer_stretch))
            binary64.budget = true.
Proof.
  split; [exact float_replay_run |].
  apply (random_scaling_invariants (list Z) binary64.replay_choice
           binary64.replay_uniform float_replay_choice_permutation
           float_replay_uniform_range 1 4 binary64.budget binary64.layer_budget
           binary64.recorded [] (rev binary64.drawn)).
  - reflexivity.
  - reflexivity.
  - exact float_replay_run.
Defined.

(** C2 (as stated) fails: for four layers, at most 0.75 a layer and
    0.15 in total, the draws recorded give stretches whose binary64 sum
    in the order drawn is within the budget, so that the loop ends; the
    vector returned holds them in another order, and its sum, computed
    in binary64 or exactly, is -0.15000000000000002, of a magnitude
    above the budget and above 0.15. *)
Lemma random_scaling_sum_over_budget :
  binary64.random_scaling (list Z) binary64.replay_choice binary64.replay_uniform
    1 4 binary64.budget binary64.layer_budget binary64.recorded
  = (Ok (rev binary64.drawn), [])
  /\ PrimFloat.leb (PrimFloat.abs (binary64.sum binary64.drawn)) binary64.budget
     = true
  /\ PrimFloat.leb (PrimFloat.abs (binary64.sum (rev binary64.drawn)))
       binary64.budget = false
  /\ (binary64.exact binary64.budget
      < Z.abs (fold_right Z.add 0 (map binary64.exact (rev binary64.drawn))))%Z
  /\ (3 * 2 ^ 1074
      < 20 * Z.abs (fold_right Z.add 0 (map binary64.exact (rev binary64.drawn))))%Z.
Proof.
  split; [exact float_replay_run |].
  vm_compute. repeat split; reflexivity.
Qed.

(** ** Warping *)



Lemma nth_map_in {A B : Type} (f : A -> B) (l : list A) (d : A) (d' : B) (j : nat) :
  (j < length l)%nat -> nth j (map f l) d' = f (nth j l d).
Proof.
  revert j. induction l as [| x l IH]; intros j Hj; simpl in *; [lia |].
  destruct j; [reflexivity |]. apply IH. lia.
Qed.




Lemma sum_fin_from (l : list R) (a : R) :
  fold_left fadd (map Fin l) (Fin a) = Fin (fold_left Rplus l a).
Proof.
  revert a. induction l as [| x l IH]; intros a; simpl; [reflexivity |].
  apply IH.
Qed.

Lemma sum_fin (l : list R) : np.sum (map Fin l) = Fin (Rsum l).
Proof. apply sum_fin_from. Qed.

Lemma Rsum_nonneg (l : list R) : Forall (fun t => 0 <= t) l -> 0 <= Rsum l.
Proof.
  induction 1 as [| x l Hx _ IH]; [unfold Rsum; simpl; lra |].
  rewrite Rsum_cons. lra.
Qed.









Lemma arange0_grid (t h : R) :
  0 < h ->
  np.arange0 (Fin t) (Fin h)
  = Ok (map Fin (grid h (Z.to_nat (Zceil (t / h))))).
Proof.
  intros Hh. unfold np.arange0, grid. rewrite Reqb_false by lra.
  rewrite map_map. reflexivity.
Qed.

Lemma slice_length {A : Type} (a : list A) (i j : nat) :
  length (np.slice a i j) = Nat.min (j - i) (length a - i).
Proof. unfold np.slice. rewrite length_firstn, length_skipn. reflexivity. Qed.






Lemma nearest_nonempty (a : list float) (x : float) :
  a <> [] -> exists k, nearest a x = Ok k.
Proof.
  destruct a as [| d a]; [congruence |]. intros _.
  unfold nearest. simpl. eexists. reflexivity.
Qed.

Lemma nearest_empty (x : float) : nearest [] x = Raise ValueError.
Proof. reflexivity. Qed.


Lemma Zceil_nonpos (x : R) : x <= 0 -> Z.to_nat (Zceil x) = 0%nat.
Proof.
  intros Hx. pose proof (Zceil_le x 0 Hx) as Hle.
  rewrite (Zceil_eq 0 0) in Hle by lra. lia.
Qed.


Section Warp.

Variable zoom : list float -> R -> list float.
Hypothesis zoom_length :
  forall a z, length (zoom a z) = Z.to_nat (np.rint (INR (length a) * z)).


Section Layers.

Variables (depth_array value_array : list float) (ts : list R)
          (l_resample h : R) (N : nat).

Hypothesis depth_nonempty : depth_array <> [].
Hypothesis aligned : length value_array = length depth_array.
Hypothesis h_pos : 0 < h.
Hypothesis N_pos : (0 < N)%nat.
Hypothesis ts_nonneg : Forall (fun t => 0 <= t) ts.





End Layers.




End Warp.


(** *** Runs of [scale_profile] on small profiles *)

Lemma argmin_from_lt (b x : R) (bi i : nat) (t : list float) :
  x < b ->
  np.argmin_from (Fin b) bi i (Fin x :: t) = np.argmin_from (Fin x) i (S i) t.
Proof. intros H. cbn [np.argmin_from is_nan orb fltb]. rewrite Rltb_true by exact H. reflexivity. Qed.

Lemma argmin_from_ge (b x : R) (bi i : nat) (t : list float) :
  b <= x ->
  np.argmin_from (Fin b) bi i (Fin x :: t) = np.argmin_from (Fin b) bi (S i) t.
Proof. intros H. cbn [np.argmin_from is_nan orb fltb]. rewrite Rltb_false by exact H. reflexivity. Qed.

(** Evaluate the nearest-index lookup at the head of the goal. *)
Ltac eval_nearest :=
  unfold nearest at 1; unfold np.argmin at 1;
  cbn [map fabs fsub fadd fopp];
  repeat first [ rewrite argmin_from_lt by (rabs; lra)
               | rewrite argmin_from_ge by (rabs; lra) ];
  cbn [np.argmin_from bind].

(** Evaluate one round of the loop of [scale_profile]; [z] is the
    number of whole output steps up to the end of the layer. *)
Ltac eval_layer z :=
  unfold scale_layer at 1; cbn [INR];
  eval_nearest; eval_nearest;
  unfold np.sum; cbn [Nat.add firstn fold_left fadd];
  unfold np.fmod; rdecide;
  rewrite (Zfloor_eq z) by lra;
  cbn [fsub fadd fopp l_last];
  eval_nearest; eval_nearest;
  cbn [np.slice Nat.sub skipn firstn length Nat.ltb Nat.leb Nat.eqb Nat.add
       result_dist result_value app INR bind scale_layers].

(** Equal results up to the value of the real expressions in them. *)
Ltac fin_eq := repeat first [ reflexivity | lra | field | progress f_equal ].

Section WarpRuns.

Variable zoom : list float -> R -> list float.

(** Seven samples at the depths 0 to 6, two layers of height 3 and no
    stretch. *)
Lemma zero_scaling_run (v0 v1 v2 v3 v4 v5 v6 : float) :
  scale_profile zoom [0; 0] (regular_depths 0 1 7)
    [v0; v1; v2; v3; v4; v5; v6] 3 None
  = Ok ([Fin 0; Fin 1; Fin 2; Fin 3; Fin 4; Fin 5],
        zoom [v0; v1; v2] (4 / 3) ++ zoom [v3; v4; v5] (2 / 3)).
Proof.
  unfold scale_profile, regular_depths.
  cbn [seq map nth_or nth_error bind INR fsub fadd fopp length].
  unfold np.sum. cbn [fold_left fadd]. unfold np.arange0.
  replace (0 + 1 * 1 + - (0 + 0 * 1)) with 1 by lra.
  rdecide.
  rewrite (Zceil_eq 6) by lra. change (Z.to_nat 6) with 6%nat.
  cbn [seq map bind INR scale_layers].
  eval_layer 3%Z.
  eval_layer 6%Z.
  fin_eq.
Qed.

(** C5 (the identity law).  Seven samples at the depths 0 to 6, two
    layers of height 3, no stretch: the three samples of the first layer
    are resampled to the four output depths 0 to 3 and the three of the
    second to the two output depths 4 and 5, so the value written at
    depth 3 is made from the source samples at the depths 0, 1 and 2. *)
Theorem scale_profile_zero_scaling (v0 v1 v2 v3 v4 v5 v6 : float) :
  scale_profile zoom [0; 0] (regular_depths 0 1 7)
    [v0; v1; v2; v3; v4; v5; v6] 3 None
  = Ok ([Fin 0; Fin 1; Fin 2; Fin 3; Fin 4; Fin 5],
        zoom [v0; v1; v2] (4 / 3) ++ zoom [v3; v4; v5] (2 / 3)).
Proof. apply zero_scaling_run. Qed.

(** Whatever [zoom] computes, as long as it gives [round(len * z)]
    values: the value warped to depth 3 does not depend on the source
    value at depth 3. *)
Lemma zero_scaling_ignores_sample
    (zoom_length :
       forall a z, length (zoom a z) = Z.to_nat (np.rint (INR (length a) * z)))
    (v0 v1 v2 v3 v3' v4 v5 v6 : float) :
  exists warped_depth warped_value warped_value',
    scale_profile zoom [0; 0] (regular_depths 0 1 7)
      [v0; v1; v2; v3; v4; v5; v6] 3 None = Ok (warped_depth, warped_value)
    /\ scale_profile zoom [0; 0] (regular_depths 0 1 7)
         [v0; v1; v2; v3'; v4; v5; v6] 3 None = Ok (warped_depth, warped_value')
    /\ nth 3 warped_depth NaN = Fin 3
    /\ nth 3 warped_value NaN = nth 3 warped_value' NaN.
Proof.
  do 3 eexists. rewrite !zero_scaling_run.
  split; [reflexivity |]. split; [reflexivity |]. split; [reflexivity |].
  assert (Hlen : length (zoom [v0; v1; v2] (4 / 3)) = 4%nat).
  { rewrite zoom_length. cbn [length INR].
    rewrite (rint_near _ 4%Z) by lra. reflexivity. }
  rewrite !app_nth1 by (rewrite Hlen; lia). reflexivity.
Qed.

(** Stretch fractions inside the budgets 0.75 a layer and 0.15 in
    total: the first layer takes the output depths 0 to 5, the whole
    grid, and the second is written at depth 5 again. *)
Lemma thin_last_layer_run (v0 v1 v2 v3 v4 v5 v6 : float) :
  scale_profile zoom [0.6875; -0.6875] (regular_depths 0 1 7)
    [v0; v1; v2; v3; v4; v5; v6] 3 None
  = Ok ([Fin 0; Fin 1; Fin 2; Fin 3; Fin 4; Fin 5; Fin 5],
        zoom [v0; v1; v2] (6 / 3) ++ zoom [v3; v4; v5] (1 / 3)).
Proof.
  unfold scale_profile, regular_depths.
  cbn [seq map nth_or nth_error bind INR fsub fadd fopp length].
  unfold np.sum. cbn [fold_left fadd]. unfold np.arange0.
  replace (0 + 1 * 1 + - (0 + 0 * 1)) with 1 by lra.
  rdecide.
  rewrite (Zceil_eq 6) by lra. change (Z.to_nat 6) with 6%nat.
  cbn [seq map bind INR scale_layers].
  eval_layer 5%Z.
  eval_layer 6%Z.
  fin_eq.
Qed.

End WarpRuns.



(** ** The alignment search *)

Lemma has_column_get_loc (df : DataFrame) (c : string) :
  has_column df c = true ->
  exists i, get_loc df c = Some i /\ nth i (columns df) EmptyString = c.
Proof.
  unfold has_column, columns.
  induction df as [| [n col] df IH]; simpl; [discriminate |].
  destruct (String.eqb c n) eqn:E.
  - intros _. exists 0%nat. apply String.eqb_eq in E. subst. split; reflexivity.
  - simpl. intros H. destruct (IH H) as [i [Hi Hn]].
    exists (S i). rewrite Hi. split; [reflexivity | exact Hn].
Qed.

Lemma reference_type_density (ref : DataFrame) :
  has_column ref "density" = true -> reference_type ref = Ok "density"%string.
Proof.
  intros H. unfold reference_type, col_types. cbn [flat_map].
  rewrite H. destruct (has_column_get_loc ref _ H) as [i [Hi Hn]].
  rewrite Hi. cbn [app map nth_or nth_error]. rewrite Hn. reflexivity.
Qed.

Lemma reference_type_ssa (ref : DataFrame) :
  has_column ref "density" = false -> has_column ref "ssa" = true ->
  reference_type ref = Ok "ssa"%string.
Proof.
  intros Hd H. unfold reference_type, col_types. cbn [flat_map].
  rewrite Hd, H. destruct (has_column_get_loc ref _ H) as [i [Hi Hn]].
  rewrite Hi. cbn [app map nth_or nth_error]. rewrite Hn. reflexivity.
Qed.

Lemma reference_type_neither (ref : DataFrame) :
  has_column ref "density" = false -> has_column ref "ssa" = false ->
  reference_type ref = Raise IndexError.
Proof.
  intros Hd Hs. unfold reference_type, col_types. cbn [flat_map].
  rewrite Hd, Hs. reflexivity.
Qed.

Section EvalProps.

Variable G : Type.
Variable choice : nat -> G -> list nat * G.
Variable uniform : R -> R -> G -> R * G.
Variable zoom : list float -> R -> list float.

Lemma tables_unchanged_bind {A B : Type} (m : M (world G) A) (k : A -> M (world G) B) :
  tables_unchanged G m -> (forall a, tables_unchanged G (k a)) ->
  tables_unchanged G (bindM m k).
Proof.
  intros Hm Hk w. unfold bindM. specialize (Hm w).
  destruct (m w) as [[a | e |] w1]; cbn [snd] in *; try exact Hm.
  destruct (Hk a w1) as [H1 H2]. destruct Hm as [H3 H4].
  split; congruence.
Qed.

Lemma tables_unchanged_lift {A : Type} (o : outcome A) :
  tables_unchanged G (lift o).
Proof. intros w. split; reflexivity. Qed.

Lemma tables_unchanged_ret {A : Type} (a : A) : tables_unchanged G (ret a).
Proof. intros w. split; reflexivity. Qed.

Lemma tables_unchanged_get_smp : tables_unchanged G (get_smp G).
Proof. intros w. split; reflexivity. Qed.

Lemma tables_unchanged_get_ref : tables_unchanged G (get_ref G).
Proof. intros w. split; reflexivity. Qed.

Lemma tables_unchanged_with_rng {A : Type} (m : M G A) :
  tables_unchanged G (with_rng G m).
Proof. intros w. unfold with_rng. destruct (m (rng G w)). split; reflexivity. Qed.

Lemma tables_unchanged_mapMS {A B : Type} (f : A -> M (world G) B) (l : list A) :
  (forall a, tables_unchanged G (f a)) -> tables_unchanged G (mapMS f l).
Proof.
  intros Hf. induction l as [| x l IH]; cbn [mapMS].
  - apply tables_unchanged_ret.
  - apply tables_unchanged_bind; [apply Hf |]. intros y.
    apply tables_unchanged_bind; [exact IH |]. intros ys.
    apply tables_unchanged_ret.
Qed.

Ltac tables :=
  repeat first
    [ apply tables_unchanged_lift
    | apply tables_unchanged_ret
    | apply tables_unchanged_get_smp
    | apply tables_unchanged_get_ref
    | apply tables_unchanged_with_rng
    | apply tables_unchanged_mapMS; intros ?
    | apply tables_unchanged_bind; [| intros ?] ].

(** After its two renames the body of [eval_scaling] changes neither
    table, whatever its result. *)
Lemma eval_scaling_body_tables (t : string) (fuel num_tests : nat)
    (layer_h ms mls samp_h : R) (w : world G) :
  let w' := snd (eval_scaling_body G choice uniform zoom t fuel num_tests
                   layer_h ms mls samp_h w) in
  smp_dat G w' = rename (smp_dat G w) t "smp_val"
  /\ ref_dat G w' = rename (ref_dat G w) t "ref_val".
Proof.
  unfold eval_scaling_body.
  unfold bindM at 1. unfold rename_ref at 1. unfold modify at 1.
  unfold bindM at 1. unfold rename_smp at 1. unfold modify at 1.
  cbn [rng smp_dat ref_dat].
  match goal with
  | |- context [snd (?m ?w0)] =>
      assert (H : tables_unchanged G m) by tables;
      destruct (H w0) as [H1 H2]
  end.
  split; [exact H1 | exact H2].
Qed.

Lemma eval_scaling_unfold (fuel num_tests : nat)
    (layer_h ms mls samp_h : R) (w : world G) :
  eval_scaling G choice uniform zoom fuel num_tests layer_h ms mls samp_h w
  = match reference_type (ref_dat G w) with
    | Ok t => eval_scaling_body G choice uniform zoom t fuel num_tests
                layer_h ms mls samp_h w
    | Raise e => (Raise e, w)
    | Timeout => (Timeout, w)
    end.
Proof.
  unfold eval_scaling. unfold bindM at 1. unfold get_ref at 1.
  unfold bindM at 1. unfold lift at 1.
  destruct (reference_type (ref_dat G w)); reflexivity.
Qed.

(** C4 (as the code has it).  With neither a density nor an ssa column
    in the reference table, [eval_scaling] raises IndexError at once:
    nothing is drawn and nothing is changed.  With a density column,
    beside an ssa column or not, it runs its body for "density"; with an
    ssa column only, for "ssa". *)
Theorem eval_scaling_reference_column (fuel num_tests : nat)
    (layer_h max_stretch max_layer_stretch samp_h : R) (w : world G) :
  match has_column (ref_dat G w) "density", has_column (ref_dat G w) "ssa" with
  | false, false =>
      eval_scaling G choice uniform zoom fuel num_tests
        layer_h max_stretch max_layer_stretch samp_h w
      = (Raise IndexError, w)
  | true, _ =>
      eval_scaling G choice uniform zoom fuel num_tests
        layer_h max_stretch max_layer_stretch samp_h w
      = eval_scaling_body G choice uniform zoom "density" fuel num_tests
          layer_h max_stretch max_layer_stretch samp_h w
  | false, true =>
      eval_scaling G choice uniform zoom fuel num_tests
        layer_h max_stretch max_layer_stretch samp_h w
      = eval_scaling_body G choice uniform zoom "ssa" fuel num_tests
          layer_h max_stretch max_layer_stretch samp_h w
  end.
Proof.
  rewrite eval_scaling_unfold.
  destruct (has_column (ref_dat G w) "density") eqn:Hd.
  - rewrite (reference_type_density _ Hd). reflexivity.
  - destruct (has_column (ref_dat G w) "ssa") eqn:Hs.
    + rewrite (reference_type_ssa _ Hd Hs). reflexivity.
    + rewrite (reference_type_neither _ Hd Hs). reflexivity.
Qed.

Lemma eval_scaling_tables (fuel num_tests : nat)
    (layer_h ms mls samp_h : R) (w : world G) :
  let w' := snd (eval_scaling G choice uniform zoom fuel num_tests
                   layer_h ms mls samp_h w) in
  match reference_type (ref_dat G w) with
  | Ok t =>
      smp_dat G w' = rename (smp_dat G w) t "smp_val"
      /\ ref_dat G w' = rename (ref_dat G w) t "ref_val"
  | _ => smp_dat G w' = smp_dat G w /\ ref_dat G w' = ref_dat G w
  end.
Proof.
  rewrite eval_scaling_unfold.
  destruct (reference_type (ref_dat G w)) as [t | e |].
  - apply eval_scaling_body_tables.
  - split; reflexivity.
  - split; reflexivity.
Qed.

End EvalProps.

Lemma calc_skill_table (window_size : R) (drop_na : bool) (df : DataFrame) :
  snd (calc_skill window_size drop_na df) = if drop_na then dropna df else df.
Proof.
  unfold calc_skill, bindM, get, lift, modify, ret.
  destruct drop_na.
  - destruct (getitem (dropna df) "grain_type"); reflexivity.
  - destruct (getitem df "grain_type"); reflexivity.
Qed.

Lemma bindM_inv_Ok {S A B : Type} (m : M S A) (k : A -> M S B) (s s'' : S) (b : B) :
  bindM m k s = (Ok b, s'') ->
  exists a s', m s = (Ok a, s') /\ k a s' = (Ok b, s'').
Proof.
  unfold bindM. destruct (m s) as [[a | e |] s']; intros H; try discriminate.
  exists a, s'. split; [reflexivity | exact H].
Qed.

Section Draws.

Variable G : Type.
Variable choice : nat -> G -> list nat * G.
Variable uniform : R -> R -> G -> R * G.
Variable zoom : list float -> R -> list float.

Lemma mapMS_with_rng {A B : Type} (m : A -> M G B) (l : list A) (w : world G) :
  mapMS (fun x => with_rng G (m x)) l w
  = (fst (mapMS m l (rng G w)),
     {| rng := snd (mapMS m l (rng G w));
        smp_dat := smp_dat G w; ref_dat := ref_dat G w |}).
Proof.
  revert w. induction l as [| x l IH]; intros w; cbn [mapMS].
  - destruct w; reflexivity.
  - unfold bindM, with_rng.
    destruct (m x (rng G w)) as [[y | e |] g1]; cbn [fst snd]; try reflexivity.
    rewrite IH. cbn [rng smp_dat ref_dat fst snd].
    destruct (mapMS m l g1) as [[ys | e |] g2]; reflexivity.
Qed.

Lemma rng_unchanged_bind {A B : Type} (m : M (world G) A) (k : A -> M (world G) B) :
  rng_unchanged G m -> (forall a, rng_unchanged G (k a)) ->
  rng_unchanged G (bindM m k).
Proof.
  intros Hm Hk w. unfold bindM. specialize (Hm w).
  destruct (m w) as [[a | e |] w1]; cbn [snd] in *; try exact Hm.
  rewrite (Hk a w1). exact Hm.
Qed.

Lemma rng_unchanged_lift {A : Type} (o : outcome A) : rng_unchanged G (lift o).
Proof. intros w. reflexivity. Qed.

Lemma rng_unchanged_ret {A : Type} (a : A) : rng_unchanged G (ret a).
Proof. intros w. reflexivity. Qed.

Lemma rng_unchanged_get_smp : rng_unchanged G (get_smp G).
Proof. intros w. reflexivity. Qed.

Lemma rng_unchanged_get_ref : rng_unchanged G (get_ref G).
Proof. intros w. reflexivity. Qed.

Lemma rng_unchanged_rename_ref (old new : string) :
  rng_unchanged G (rename_ref G old new).
Proof. intros w. reflexivity. Qed.

Lemma rng_unchanged_rename_smp (old new : string) :
  rng_unchanged G (rename_smp G old new).
Proof. intros w. reflexivity. Qed.

Lemma rng_unchanged_mapMS {A B : Type} (f : A -> M (world G) B) (l : list A) :
  (forall a, rng_unchanged G (f a)) -> rng_unchanged G (mapMS f l).
Proof.
  intros Hf. induction l as [| x l IH]; cbn [mapMS].
  - apply rng_unchanged_ret.
  - apply rng_unchanged_bind; [apply Hf |]. intros y.
    apply rng_unchanged_bind; [exact IH |]. intros ys.
    apply rng_unchanged_ret.
Qed.

Ltac rngs :=
  repeat first
    [ apply rng_unchanged_lift
    | apply rng_unchanged_ret
    | apply rng_unchanged_get_smp
    | apply rng_unchanged_get_ref
    | apply rng_unchanged_rename_ref
    | apply rng_unchanged_rename_smp
    | apply rng_unchanged_mapMS; intros ?
    | apply rng_unchanged_bind; [| intros ?] ].

Lemma rng_unchanged_run {A : Type} (m : M (world G) A) (w w' : world G) (a : A) :
  rng_unchanged G m -> m w = (Ok a, w') -> rng G w' = rng G w.
Proof. intros Hm Hrun. specialize (Hm w). rewrite Hrun in Hm. exact Hm. Qed.

(** The generator after a step that does not draw. *)
Ltac keep_rng H :=
  match type of H with
  | ?m ?w = (Ok ?a, ?w') =>
      let Hr := fresh "Hr" in
      assert (Hr : rng_unchanged G m) by rngs;
      apply (rng_unchanged_run m w w' a Hr) in H; clear Hr
  end.

(** Peel the first step off a run that returned. *)
Ltac peel H a w1 Hstep :=
  apply bindM_inv_Ok in H; destruct H as [a [w1 [Hstep H]]].

(** The candidates of a run of [eval_scaling] are the vectors that
    successive calls of [random_scaling] draw from the generator as the
    run finds it. *)
Lemma eval_scaling_body_draws (t : string) (fuel num_tests : nat)
    (layer_h ms mls samp_h : R) (w w' : world G)
    (meta : scaling_meta) (tbl : DataFrame) :
  eval_scaling_body G choice uniform zoom t fuel num_tests layer_h ms mls samp_h w
  = (Ok (meta, tbl), w') ->
  exists (num_sections : Z) (random_tests : list (list R)),
    mapMS (fun x => random_scaling G choice uniform fuel x ms mls)
          (repeat num_sections num_tests) (rng G w)
    = (Ok random_tests, rng G w')
    /\ nth_error random_tests (index meta) = Some (scale_coeff meta).
Proof.
  unfold eval_scaling_body. intros H.
  peel H u1 w1 H1. keep_rng H1.
  peel H u2 w2 H2. keep_rng H2.
  peel H ref w3 H3. keep_rng H3.
  peel H u4 w4 H4. keep_rng H4.
  peel H smp w5 H5. keep_rng H5.
  peel H smp_max w6 H6. keep_rng H6.
  peel H ref' w7 H7. keep_rng H7.
  peel H ref_max w8 H8. keep_rng H8.
  cbv zeta in H.
  peel H random_tests w9 Hdraw.
  rewrite mapMS_with_rng in Hdraw. injection Hdraw as Hd1 Hd2.
  assert (Hg : rng G w8 = rng G w) by congruence.
  rewrite Hg in Hd1, Hd2.
  peel H scaled w10 H10.
  keep_rng H10.
  peel H tables1 w11 H11.
  keep_rng H11.
  peel H tables2 w12 H12.
  keep_rng H12.
  peel H scored w13 H13. keep_rng H13.
  peel H i w14 H14. keep_rng H14.
  peel H test w15 H15. pose proof H15 as H15'. keep_rng H15'.
  peel H ref'' w16 H16. keep_rng H16.
  peel H best w17 H17. keep_rng H17.
  peel H skill w18 H18. keep_rng H18.
  unfold ret in H. injection H as Hmeta _ Hw.
  exists (np.ceil_int (fdiv (amin2 smp_max ref_max) (Fin layer_h))), random_tests.
  split.
  - rewrite (surjective_pairing (mapMS _ _ (rng G w))). f_equal; [exact Hd1 |].
    rewrite <- Hw.
    assert (Hw9 : rng G w9 = snd (mapMS
               (fun x => random_scaling G choice uniform fuel x ms mls)
               (repeat (np.ceil_int (fdiv (amin2 smp_max ref_max) (Fin layer_h)))
                  num_tests) (rng G w))).
    { rewrite <- Hd2. reflexivity. }
    congruence.
  - rewrite <- Hmeta. cbn [index scale_coeff].
    unfold lift in H15. injection H15 as H15 _.
    unfold nth_or in H15.
    destruct (nth_error random_tests i) as [v |]; [| discriminate].
    injection H15 as ->. reflexivity.
Qed.

End Draws.

(** *** A run on a small site *)

Lemma bindM_Ok {S A B : Type} (m : M S A) (k : A -> M S B) (s s' : S) (a : A) :
  m s = (Ok a, s') -> bindM m k s = k a s'.
Proof. intros H. unfold bindM. rewrite H. reflexivity. Qed.

Lemma mapMS_one {S A B : Type} (f : A -> M S B) (x : A) (s s' : S) (y : B) :
  f x s = (Ok y, s') -> mapMS f [x] s = (Ok [y], s').
Proof. intros H. cbn [mapMS]. unfold bindM. rewrite H. reflexivity. Qed.

Lemma series_max_two (x y : R) : x < y -> series_max [Fin x; Fin y] = Fin y.
Proof.
  intros H. unfold series_max. cbn [fold_left is_nan fltb].
  rewrite Rltb_true by exact H. reflexivity.
Qed.

Lemma extract_nothing (d : float) (w : R) :
  extract_samples [] [] [d] w
  = Ok [("count_samp"%string, [Num (Fin 0)]);
        ("mean_samp"%string, [Num NaN]);
        ("median_samp"%string, [Num NaN]);
        ("stdev_samp"%string, [Num NaN])].
Proof.
  rewrite extract_samples_rows by reflexivity.
  cbn [map]. unfold in_window. cbn [map np.select].
  unfold np.std. rewrite mean_nil. cbn [map fsqrt]. rewrite mean_nil.
  reflexivity.
Qed.

Lemma short_candidate (k : nat) (g : list nat) :
  Rabs (replay_draw k) <= 0.15 ->
  random_scaling (list nat) replay_choice replay_uniform 1 1 0.15 0.75 (k :: g)
  = (Ok [replay_draw k], g).
Proof.
  intros Hx. rewrite random_scaling_round.
  change (Z.to_nat 1) with 1%nat.
  cbn [Z.ltb Z.compare replay_choice seq rev app length draw_layers
       replay_uniform fst snd].
  change (Ropp 0.75 + (0.75 - Ropp 0.75) * (INR (k mod 11) / 10))
    with (replay_draw k).
  unfold Rsum at 1. cbn [fold_left].
  replace (0 + replay_draw k) with (replay_draw k) by lra.
  rewrite Rleb_true by exact Hx.
  reflexivity.
Qed.

Section ShortSite.

Variable zoom : list float -> R -> list float.

(** Two samples make no layer of more than two: nothing is warped. *)
Lemma short_warp (s : R) (v0 v1 : float) :
  0 <= s < 1 / 2 ->
  scale_profile zoom [s] [Fin 0; Fin 1] [v0; v1] 2 None = Ok ([], []).
Proof.
  intros Hs.
  unfold scale_profile.
  cbn [seq map nth_or nth_error bind INR fsub fadd fopp length].
  unfold np.sum. cbn [fold_left fadd]. unfold np.arange0.
  replace (1 + - 0) with 1 by lra.
  rdecide.
  destruct (Req_dec_T s 0) as [-> | Hne].
  - rewrite (Zceil_eq 2) by lra. change (Z.to_nat 2) with 2%nat.
    cbn [seq map bind INR scale_layers].
    eval_layer 2%Z. reflexivity.
  - rewrite (Zceil_eq 3) by lra. change (Z.to_nat 3) with 3%nat.
    cbn [seq map bind INR scale_layers].
    eval_layer 2%Z. reflexivity.
Qed.

(** A run of [eval_scaling] with one trial on the short profile, against
    a reference table of one density measurement at the surface. *)
Lemma short_site_run (ref : DataFrame) (k : nat) (g : list nat) :
  reference_type ref = Ok "density"%string ->
  (site <- getitem (rename ref "density" "ref_val") "site" ;;
   nth_or IndexError site 0) = Ok (Str "TVC01") ->
  (c <- getattr (rename ref "density" "ref_val") "height" ;;
   v <- values c ;; Ok (series_max v)) = Ok (Fin 1) ->
  (b <- getattr (rename ref "density" "ref_val") "rel_height" ;; values b)
  = Ok [Fin 0] ->
  valid_rows (empty_window_row ++ rename ref "density" "ref_val") = Ok ([], []) ->
  0 <= replay_draw k <= 0.15 ->
  eval_scaling (list nat) replay_choice replay_uniform zoom 1 1 2 0.15 0.75 15
    {| rng := k :: g; smp_dat := short_profile; ref_dat := ref |}
  = (Ok ({| index := 0; r := NaN; rmse := NaN; ref_type := "density";
            scale_coeff := [replay_draw k]; scale_per := Rsum [replay_draw k];
            n_obs := nrows (rename ref "density" "ref_val");
            n_comp :=
              nrows (dropna (empty_window_row ++ rename ref "density" "ref_val"));
            n_tests := 1 |},
         dropna (empty_window_row ++ rename ref "density" "ref_val")),
     {| rng := g;
        smp_dat := rename short_profile "density" "smp_val";
        ref_dat := rename ref "density" "ref_val" |}).
Proof.
  intros Htype Hsite Hheight Hrel Hvalid Hx.
  rewrite eval_scaling_unfold. cbn [ref_dat]. rewrite Htype.
  unfold eval_scaling_body, rename_ref, rename_smp, modify.
  erewrite bindM_Ok by reflexivity. cbn [rng smp_dat ref_dat].
  erewrite bindM_Ok by reflexivity. cbn [rng smp_dat ref_dat].
  erewrite bindM_Ok by reflexivity. cbn [ref_dat].
  erewrite bindM_Ok by (unfold lift; rewrite Hsite; reflexivity).
  erewrite bindM_Ok by reflexivity.
  erewrite bindM_Ok.
  2:{ unfold lift. cbn [smp_dat].
      change (getitem (rename short_profile "density" "smp_val") "rel_height")
        with (Ok [Num (Fin 0); Num (Fin 1)]).
      cbn [bind values mapM as_float]. rewrite series_max_two by lra.
      reflexivity. }
  erewrite bindM_Ok by reflexivity. cbn [ref_dat].
  erewrite bindM_Ok by (unfold lift; rewrite Hheight; reflexivity).
  assert (Hn : np.ceil_int (fdiv (amin2 (Fin 1) (Fin 1)) (Fin 2)) = 1%Z).
  { unfold amin2. cbn [is_nan orb fltb]. rdecide. cbn [fdiv]. rdecide.
    cbn [np.ceil_int]. apply Zceil_eq. lra. }
  rewrite Hn. cbn [repeat].
  (* the candidate *)
  erewrite bindM_Ok.
  2:{ apply mapMS_one. unfold with_rng. cbn [rng smp_dat ref_dat].
      rewrite short_candidate by (apply Rabs_le; lra). reflexivity. }
  (* the warped profile *)
  erewrite bindM_Ok.
  2:{ apply mapMS_one. erewrite bindM_Ok by reflexivity. unfold lift.
      cbn [smp_dat].
      change (getattr (rename short_profile "density" "smp_val") "rel_height")
        with (Ok [Num (Fin 0); Num (Fin 1)]).
      change (getattr (rename short_profile "density" "smp_val") "smp_val")
        with (Ok [Num (Fin 300); Num (Fin 310)]).
      cbn [bind values mapM as_float].
      rewrite short_warp by lra. reflexivity. }
  (* the comparison table *)
  erewrite bindM_Ok.
  2:{ apply mapMS_one. erewrite bindM_Ok by reflexivity. unfold lift.
      cbn [ref_dat fst snd].
      destruct (getattr (rename ref "density" "ref_val") "rel_height")
        as [b | |]; try discriminate.
      cbn [bind] in Hrel |- *. rewrite Hrel. cbn [bind].
      rewrite extract_nothing. reflexivity. }
  erewrite bindM_Ok by (apply mapMS_one; reflexivity).
  cbn [ref_dat]. fold empty_window_row.
  (* the score *)
  erewrite bindM_Ok.
  2:{ unfold lift, score_profiles.
      erewrite calc_skill_few;
        [reflexivity | exact Hvalid | simpl; lia | reflexivity]. }
  cbn [fst snd].
  reflexivity.
Qed.

End ShortSite.

Section SearchClaims.

Variable G : Type.
Variable choice : nat -> G -> list nat * G.
Variable uniform : R -> R -> G -> R * G.
Variable zoom : list float -> R -> list float.


(** C9 (as the code has it).  [eval_scaling] renames in place the
    reference column of the reference table to "ref_val" and the column
    of that name of the profile table to "smp_val", and changes nothing
    else of the two tables, whatever its result; when no reference
    column is found it leaves both as they are.  [calc_skill] with
    [drop_na] leaves the table passed to it without its incomplete
    rows, and as it is otherwise. *)
Theorem eval_scaling_and_calc_skill_tables (fuel num_tests : nat)
    (layer_h max_stretch max_layer_stretch samp_h : R) (w : world G)
    (window_size : R) (drop_na : bool) (result : DataFrame) :
  (let w' := snd (eval_scaling G choice uniform zoom fuel num_tests
                    layer_h max_stretch max_layer_stretch samp_h w) in
   match reference_type (ref_dat G w) with
   | Ok t =>
       smp_dat G w' = rename (smp_dat G w) t "smp_val"
       /\ ref_dat G w' = rename (ref_dat G w) t "ref_val"
   | _ => smp_dat G w' = smp_dat G w /\ ref_dat G w' = ref_dat G w
   end)
  /\ snd (calc_skill window_size drop_na result)
     = (if drop_na then dropna result else result).
Proof.
  split; [apply eval_scaling_tables | apply calc_skill_table].
Qed.

End SearchClaims.

Lemma replay_draw_5 : replay_draw 5 = 0.
Proof.
  unfold replay_draw.
  cbn [replay_uniform fst Nat.modulo Nat.divmod snd Nat.sub INR]. lra.
Qed.

Lemma replay_draw_6 : replay_draw 6 = 0.15.
Proof.
  unfold replay_draw.
  cbn [replay_uniform fst Nat.modulo Nat.divmod snd Nat.sub INR]. lra.
Qed.

(** The run on the density pit, for a draw inside the total budget. *)
Lemma density_pit_run (k : nat) (g : list nat) :
  0 <= replay_draw k <= 0.15 ->
  eval_scaling (list nat) replay_choice replay_uniform zoom_nearest
    1 1 2 0.15 0.75 15
    {| rng := k :: g; smp_dat := short_profile; ref_dat := pit_density |}
  = (Ok ({| index := 0; r := NaN; rmse := NaN; ref_type := "density";
            scale_coeff := [replay_draw k]; scale_per := Rsum [replay_draw k];
            n_obs := 1; n_comp := 0; n_tests := 1 |},
         dropna (empty_window_row ++ rename pit_density "density" "ref_val")),
     {| rng := g;
        smp_dat := rename short_profile "density" "smp_val";
        ref_dat := rename pit_density "density" "ref_val" |}).
Proof.
  intros Hx.
  rewrite (short_site_run zoom_nearest pit_density k g);
    [reflexivity | reflexivity | reflexivity | reflexivity | reflexivity
    | reflexivity | exact Hx].
Qed.

(** C4 (as stated) fails: with both a density and an ssa column in the
    reference table the search does not fail; it runs its trial against
    the density column. *)
Lemma eval_scaling_accepts_both_columns :
  has_column pit_density_ssa "density" = true
  /\ has_column pit_density_ssa "ssa" = true
  /\ eval_scaling (list nat) replay_choice replay_uniform zoom_nearest
       1 1 2 0.15 0.75 15
       {| rng := [5]%nat; smp_dat := short_profile; ref_dat := pit_density_ssa |}
     = (Ok ({| index := 0; r := NaN; rmse := NaN; ref_type := "density";
               scale_coeff := [replay_draw 5];
               scale_per := Rsum [replay_draw 5];
               n_obs := 1; n_comp := 0; n_tests := 1 |},
            dropna (empty_window_row
                    ++ rename pit_density_ssa "density" "ref_val")),
        {| rng := [];
           smp_dat := rename short_profile "density" "smp_val";
           ref_dat := rename pit_density_ssa "density" "ref_val" |}).
Proof.
  split; [reflexivity |]. split; [reflexivity |].
  rewrite (short_site_run zoom_nearest pit_density_ssa 5 []);
    [reflexivity | reflexivity | reflexivity | reflexivity | reflexivity
    | reflexivity | rewrite replay_draw_5; lra].
Qed.

(** C9 (as stated) fails: after a run the two tables given to
    [eval_scaling] have a renamed column, and the table given to
    [calc_skill] has lost a row. *)
Lemma inputs_are_changed_in_place :
  (let w' := snd (eval_scaling (list nat) replay_choice replay_uniform
                    zoom_nearest 1 1 2 0.15 0.75 15
                    {| rng := [5]%nat; smp_dat := short_profile;
                       ref_dat := pit_density |}) in
   columns (smp_dat (list nat) w') = ["rel_height"; "smp_val"]%string
   /\ columns short_profile = ["rel_height"; "density"]%string
   /\ columns (ref_dat (list nat) w')
      = ["site"; "height"; "rel_height"; "ref_val"; "grain_type"]%string
   /\ columns pit_density
      = ["site"; "height"; "rel_height"; "density"; "grain_type"]%string)
  /\ nrows (snd (calc_skill 15 true sparse_table)) = 2%nat
  /\ nrows sparse_table = 3%nat.
Proof.
  split.
  - rewrite (density_pit_run 5 []) by (rewrite replay_draw_5; lra).
    cbn [snd smp_dat ref_dat]. repeat split; reflexivity.
  - rewrite calc_skill_table. split; reflexivity.
Qed.

(** * Further properties of the code *)

(** ** The SSA calibrations *)

Lemma log_exp (a : float) : np.log (np.exp a) = a.
Proof.
  destruct a as [x | | |]; cbn [np.exp np.log]; try reflexivity.
  - rewrite Rltb_true by apply exp_pos. rewrite ln_exp. reflexivity.
  - rewrite Rltb_false by lra. rewrite Reqb_true by reflexivity. reflexivity.
Qed.

Lemma map_log_exp (l : list float) : map np.log (map np.exp l) = l.
Proof.
  induction l as [| a l IH]; [reflexivity |].
  cbn [map]. rewrite log_exp, IH. reflexivity.
Qed.

(** [calc_ssa] is [calc_ssa_loglog] before the exponential: rounding the
    logarithm of the log-log result to one decimal gives the result of
    [calc_ssa], value by value, and the two raise the same exceptions. *)
Theorem calc_ssa_rounds_log_of_loglog (shot_noise : DataFrame) (coefs : list R) :
  calc_ssa shot_noise coefs false
  = (r <- calc_ssa_loglog shot_noise coefs false ;;
     match r with
     | AsArray a => Ok (AsArray (map np.round1 (map np.log a)))
     | AsFrame df => Ok (AsFrame df)
     end).
Proof.
  unfold calc_ssa, calc_ssa_loglog.
  destruct (nth_or IndexError coefs 0) as [c0 | |]; [| reflexivity ..].
  destruct (nth_or IndexError coefs 1) as [c1 | |]; [| reflexivity ..].
  destruct (getattr shot_noise "l") as [lc | |]; [| reflexivity ..].
  cbn [bind].
  destruct (values lc) as [l | |]; [| reflexivity ..].
  destruct (nth_or IndexError coefs 2) as [c2 | |]; [| reflexivity ..].
  destruct (getattr shot_noise "force_median") as [fc | |]; [| reflexivity ..].
  cbn [bind].
  destruct (values fc) as [fm | |]; [| reflexivity ..].
  cbn [bind]. rewrite map_log_exp. reflexivity.
Qed.

Lemma exp_not_negative (a : float) : not_negative (np.exp a).
Proof.
  destruct a as [x | | |]; cbn [np.exp not_negative]; try exact I.
  - left. apply exp_pos.
  - lra.
Qed.

(** No value that [calc_ssa_loglog] returns is negative: each is a real
    that is at least zero, [+inf] or NaN. *)
Theorem calc_ssa_loglog_not_negative (shot_noise : DataFrame) (coefs : list R)
    (ssa : list float) :
  calc_ssa_loglog shot_noise coefs false = Ok (AsArray ssa) ->
  Forall not_negative ssa.
Proof.
  unfold calc_ssa_loglog.
  destruct (nth_or IndexError coefs 0) as [c0 | |]; [| discriminate ..].
  destruct (nth_or IndexError coefs 1) as [c1 | |]; [| discriminate ..].
  destruct (getattr shot_noise "l") as [lc | |]; [| discriminate ..].
  cbn [bind].
  destruct (values lc) as [l | |]; [| discriminate ..].
  destruct (nth_or IndexError coefs 2) as [c2 | |]; [| discriminate ..].
  destruct (getattr shot_noise "force_median") as [fc | |]; [| discriminate ..].
  cbn [bind].
  destruct (values fc) as [fm | |]; [| discriminate ..].
  cbn [bind]. intros H. injection H as <-.
  apply Forall_forall. intros x Hx. apply in_map_iff in Hx.
  destruct Hx as [s [<- _]]. apply exp_not_negative.
Qed.

Lemma ssa_elementwise (f : R -> R) (g : float -> float) (c0 c1 c2 : R)
    (rows : list (R * R)) :
  (forall x, g (Fin x) = Fin (f x)) ->
  Forall (fun r => 0 < fst r /\ 0 < snd r) rows ->
  map g
    (map2 fadd
       (map (fun x => fadd (Fin c0) (fmul (Fin c1) (np.log x)))
            (map (fun r => Fin (snd r)) rows))
       (map (fun f => fmul (Fin c2) (np.log f))
            (map (fun r => Fin (fst r)) rows)))
  = map (fun r => Fin (f (c0 + c1 * ln (snd r) + c2 * ln (fst r)))) rows.
Proof.
  intros Hg Hpos. induction Hpos as [| r rows [HF HL] _ IH]; [reflexivity |].
  cbn [map map2]. rewrite IH.
  rewrite !log_positive by assumption.
  cbn [fmul fadd]. rewrite Hg. reflexivity.
Qed.

Lemma calc_ssa_loglog_rows (c0 c1 c2 : R) (rows : list (R * R)) :
  Forall (fun r => 0 < fst r /\ 0 < snd r) rows ->
  calc_ssa_loglog (shot_noise_of rows) [c0; c1; c2] false
  = Ok (AsArray (map (fun r => Fin (exp (c0 + c1 * ln (snd r) + c2 * ln (fst r))))
                     rows)).
Proof.
  intros Hpos. unfold calc_ssa_loglog, shot_noise_of, getattr.
  cbn [nth_or nth_error bind lookup String.eqb Ascii.eqb Bool.eqb].
  rewrite !values_Num. cbn [bind].
  rewrite (ssa_elementwise exp np.exp) by (auto; reflexivity).
  reflexivity.
Qed.

Lemma calc_ssa_rows (c0 c1 c2 : R) (rows : list (R * R)) :
  Forall (fun r => 0 < fst r /\ 0 < snd r) rows ->
  calc_ssa (shot_noise_of rows) [c0; c1; c2] false
  = Ok (AsArray (map (fun r => np.round1 (Fin (c0 + c1 * ln (snd r)
                                               + c2 * ln (fst r))))
                     rows)).
Proof.
  intros Hpos. unfold calc_ssa, shot_noise_of, getattr.
  cbn [nth_or nth_error bind lookup String.eqb Ascii.eqb Bool.eqb].
  rewrite !values_Num. cbn [bind].
  rewrite (ssa_elementwise
             (fun y => IZR (np.rint (np.float64 (y * 10))) / 10) np.round1)
    by (auto; reflexivity).
  reflexivity.
Qed.

Lemma calc_ssa_loglog_not_negative_witness :
  calc_ssa_loglog (shot_noise_of [(2, 0.05)]) [0.57; -18.56; -3.66] false
  = Ok (AsArray [Fin (exp (0.57 + -18.56 * ln 0.05 + -3.66 * ln 2))])
  /\ Forall not_negative [Fin (exp (0.57 + -18.56 * ln 0.05 + -3.66 * ln 2))].
Proof.
  assert (H : calc_ssa_loglog (shot_noise_of [(2, 0.05)]) [0.57; -18.56; -3.66] false
              = Ok (AsArray [Fin (exp (0.57 + -18.56 * ln 0.05 + -3.66 * ln 2))])).
  { apply (calc_ssa_loglog_rows 0.57 (-18.56) (-3.66) [(2, 0.05)]).
    repeat constructor; cbn [fst snd]; lra. }
  split; [exact H |].
  exact (calc_ssa_loglog_not_negative _ _ _ H).
Defined.

(** [calc_ssa_loglog] on any table whose columns force_median and l
    hold positive finite numbers; columns beside these two and
    coefficients after the third are not looked at. *)
Lemma calc_ssa_loglog_table (shot_noise : DataFrame) (c0 c1 c2 : R)
    (more : list R) (rows : list (R * R)) :
  lookup shot_noise "force_median" = Some (map (fun r => Num (Fin (fst r))) rows) ->
  lookup shot_noise "l" = Some (map (fun r => Num (Fin (snd r))) rows) ->
  Forall (fun r => 0 < fst r /\ 0 < snd r) rows ->
  calc_ssa_loglog shot_noise (c0 :: c1 :: c2 :: more) false
  = Ok (AsArray (map (fun r => Fin (exp (c0 + c1 * ln (snd r) + c2 * ln (fst r))))
                     rows)).
Proof.
  intros Hf Hl Hpos. unfold calc_ssa_loglog, getattr.
  rewrite Hf, Hl.
  cbn [nth_or nth_error bind].
  rewrite !values_Num. cbn [bind].
  rewrite (ssa_elementwise exp np.exp) by (auto; reflexivity).
  reflexivity.
Qed.

(** In exact arithmetic the log-log calibration is the power law
    [exp c0 * L^c1 * F^c2]: on every table whose columns force_median
    and l hold positive finite numbers, whatever its other columns and
    whatever coefficients follow the third, [calc_ssa_loglog] returns
    that product row by row.  (The code computes the exponential of a
    sum in binary64, which agrees with the product up to rounding
    only.) *)
Theorem calc_ssa_loglog_power_law (shot_noise : DataFrame) (c0 c1 c2 : R)
    (more : list R) (rows : list (R * R)) :
  lookup shot_noise "force_median" = Some (map (fun r => Num (Fin (fst r))) rows) ->
  lookup shot_noise "l" = Some (map (fun r => Num (Fin (snd r))) rows) ->
  Forall (fun r => 0 < fst r /\ 0 < snd r) rows ->
  calc_ssa_loglog shot_noise (c0 :: c1 :: c2 :: more) false
  = Ok (AsArray (map (fun r => Fin (exp c0 * Rpower (snd r) c1 * Rpower (fst r) c2))
                     rows)).
Proof.
  intros Hf Hl Hpos.
  rewrite (calc_ssa_loglog_table shot_noise c0 c1 c2 more rows Hf Hl Hpos).
  do 2 f_equal. apply map_ext. intros r.
  unfold Rpower. rewrite !exp_plus. reflexivity.
Qed.

Lemma calc_ssa_loglog_power_law_witness :
  calc_ssa_loglog
    [("site"%string, [Str "P1"; Str "P2"]);
     ("force_median"%string, [Num (Fin 2); Num (Fin 1)]);
     ("relative_height"%string, [Num (Fin 10); Num (Fin 20)]);
     ("l"%string, [Num (Fin 0.05); Num (Fin 1)])]
    [0.57; -18.56; -3.66; 7] false
  = Ok (AsArray [Fin (exp 0.57 * Rpower 0.05 (-18.56) * Rpower 2 (-3.66));
                 Fin (exp 0.57 * Rpower 1 (-18.56) * Rpower 1 (-3.66))]).
Proof.
  apply (calc_ssa_loglog_power_law _ 0.57 (-18.56) (-3.66) [7]
           [(2, 0.05); (1, 1)]).
  - reflexivity.
  - reflexivity.
  - repeat constructor; cbn [fst snd]; lra.
Defined.

(** ** Returning a table *)

Lemma lookup_assign_same (df : DataFrame) (c : string) (col : column) :
  lookup (assign df c col) c = Some col.
Proof.
  induction df as [| [n old] t IH]; cbn [assign lookup].
  - rewrite String.eqb_refl. reflexivity.
  - destruct (String.eqb c n) eqn:E; cbn [lookup]; rewrite E; [reflexivity | exact IH].
Qed.

Lemma lookup_assign_other (df : DataFrame) (c c' : string) (col : column) :
  c' <> c -> lookup (assign df c col) c' = lookup df c'.
Proof.
  intros Hne. apply String.eqb_neq in Hne.
  induction df as [| [n old] t IH]; cbn [assign lookup].
  - rewrite Hne. reflexivity.
  - destruct (String.eqb c n) eqn:E; cbn [lookup].
    + apply String.eqb_eq in E. subst n. rewrite Hne. reflexivity.
    + rewrite IH. reflexivity.
Qed.

Lemma columns_assign (df : DataFrame) (c : string) (col : column) :
  columns (assign df c col)
  = if has_column df c then columns df else (columns df ++ [c])%list.
Proof.
  unfold has_column, columns.
  induction df as [| [n old] t IH]; cbn [assign map existsb fst app]; [reflexivity |].
  destruct (String.eqb c n) eqn:E; cbn [orb map fst]; [reflexivity |].
  rewrite IH. destruct (existsb (String.eqb c) (map fst t)); reflexivity.
Qed.

(** With [return_df] set, [calc_density] returns its input table with the
    column [density] holding the values it returns without the flag:
    every other column is as in the input, and the column is added at
    the end unless the input has one, which is replaced where it is. *)
Theorem calc_density_return_df (shot_noise : DataFrame) (coefs : list R)
    (density : list float) :
  calc_density shot_noise coefs false = Ok (AsArray density) ->
  exists df,
    calc_density shot_noise coefs true = Ok (AsFrame df)
    /\ getitem df "density" = Ok (map Num density)
    /\ (forall c, c <> "density"%string -> lookup df c = lookup shot_noise c)
    /\ columns df
       = if has_column shot_noise "density" then columns shot_noise
         else (columns shot_noise ++ ["density"%string])%list.
Proof.
  unfold calc_density.
  destruct (nth_or IndexError coefs 0) as [c0 | |]; [| discriminate ..].
  destruct (nth_or IndexError coefs 1) as [c1 | |]; [| discriminate ..].
  destruct (getattr shot_noise "force_median") as [fc | |]; [| discriminate ..].
  cbn [bind].
  destruct (values fc) as [fm | |]; [| discriminate ..].
  destruct (nth_or IndexError coefs 2) as [c2 | |]; [| discriminate ..].
  destruct (getattr shot_noise "l") as [lc | |]; [| discriminate ..].
  cbn [bind].
  destruct (values lc) as [l | |]; [| discriminate ..].
  destruct (nth_or IndexError coefs 3) as [c3 | |]; [| discriminate ..].
  cbn [bind]. intros H. injection H as <-.
  eexists. split; [reflexivity |]. split; [| split].
  - unfold getitem. rewrite lookup_assign_same. reflexivity.
  - intros c Hc. apply lookup_assign_other. exact Hc.
  - apply columns_assign.
Qed.

Lemma calc_density_rows (c0 c1 c2 c3 : R) (rows : list (R * R)) :
  Forall (fun r => 0 < fst r) rows ->
  calc_density (shot_noise_of rows) [c0; c1; c2; c3] false
  = Ok (AsArray
          (map (fun r => np.round1 (Fin (c0 + c1 * ln (fst r)
                                         + c2 * ln (fst r) * snd r
                                         + c3 * snd r))) rows)).
Proof.
  intros Hpos.
  apply (calc_density_table (shot_noise_of rows) c0 c1 c2 c3 [] rows false);
    [reflexivity | reflexivity | exact Hpos].
Qed.

Lemma calc_density_return_df_witness :
  calc_density (shot_noise_of [(1, 0.5)]) [1; 2; 3; 4] false
  = Ok (AsArray [np.round1 (Fin (1 + 2 * ln 1 + 3 * ln 1 * 0.5 + 4 * 0.5))])
  /\ exists df,
       calc_density (shot_noise_of [(1, 0.5)]) [1; 2; 3; 4] true = Ok (AsFrame df)
       /\ getitem df "density" = Ok (map Num [np.round1 (Fin (1 + 2 * ln 1 + 3 * ln 1 * 0.5 + 4 * 0.5))])
       /\ (forall c, c <> "density"%string ->
                     lookup df c = lookup (shot_noise_of [(1, 0.5)]) c)
       /\ columns df
          = if has_column (shot_noise_of [(1, 0.5)]) "density"
            then columns (shot_noise_of [(1, 0.5)])
            else (columns (shot_noise_of [(1, 0.5)]) ++ ["density"%string])%list.
Proof.
  assert (H : calc_density (shot_noise_of [(1, 0.5)]) [1; 2; 3; 4] false
              = Ok (AsArray [np.round1 (Fin (1 + 2 * ln 1 + 3 * ln 1 * 0.5 + 4 * 0.5))])).
  { apply (calc_density_rows 1 2 3 4 [(1, 0.5)]).
    repeat constructor; cbn [fst]; lra. }
  split; [exact H |].
  exact (calc_density_return_df _ _ _ H).
Defined.

(** With [return_df] set, [calc_ssa] returns its input table with the
    column [ssa] holding the values it returns without the flag; the
    other columns are as in the input. *)
Theorem calc_ssa_return_df (shot_noise : DataFrame) (coefs : list R)
    (ssa : list float) :
  calc_ssa shot_noise coefs false = Ok (AsArray ssa) ->
  exists df,
    calc_ssa shot_noise coefs true = Ok (AsFrame df)
    /\ getitem df "ssa" = Ok (map Num ssa)
    /\ (forall c, c <> "ssa"%string -> lookup df c = lookup shot_noise c)
    /\ columns df
       = if has_column shot_noise "ssa" then columns shot_noise
         else (columns shot_noise ++ ["ssa"%string])%list.
Proof.
  unfold calc_ssa.
  destruct (nth_or IndexError coefs 0) as [c0 | |]; [| discriminate ..].
  destruct (nth_or IndexError coefs 1) as [c1 | |]; [| discriminate ..].
  destruct (getattr shot_noise "l") as [lc | |]; [| discriminate ..].
  cbn [bind].
  destruct (values lc) as [l | |]; [| discriminate ..].
  destruct (nth_or IndexError coefs 2) as [c2 | |]; [| discriminate ..].
  destruct (getattr shot_noise "force_median") as [fc | |]; [| discriminate ..].
  cbn [bind].
  destruct (values fc) as [fm | |]; [| discriminate ..].
  cbn [bind]. intros H. injection H as <-.
  eexists. split; [reflexivity |]. split; [| split].
  - unfold getitem. rewrite lookup_assign_same. reflexivity.
  - intros c Hc. apply lookup_assign_other. exact Hc.
  - apply columns_assign.
Qed.

Lemma calc_ssa_return_df_witness :
  calc_ssa (shot_noise_of [(1, 1)]) [1; 2; 3] false
  = Ok (AsArray [np.round1 (Fin (1 + 2 * ln 1 + 3 * ln 1))])
  /\ exists df,
       calc_ssa (shot_noise_of [(1, 1)]) [1; 2; 3] true = Ok (AsFrame df)
       /\ getitem df "ssa"
          = Ok (map Num [np.round1 (Fin (1 + 2 * ln 1 + 3 * ln 1))])
       /\ (forall c, c <> "ssa"%string ->
                     lookup df c = lookup (shot_noise_of [(1, 1)]) c)
       /\ columns df
          = if has_column (shot_noise_of [(1, 1)]) "ssa"
            then columns (shot_noise_of [(1, 1)])
            else (columns (shot_noise_of [(1, 1)]) ++ ["ssa"%string])%list.
Proof.
  assert (H : calc_ssa (shot_noise_of [(1, 1)]) [1; 2; 3] false
              = Ok (AsArray [np.round1 (Fin (1 + 2 * ln 1 + 3 * ln 1))])).
  { apply (calc_ssa_rows 1 2 3 [(1, 1)]).
    repeat constructor; cbn [fst snd]; lra. }
  split; [exact H |].
  exact (calc_ssa_return_df _ _ _ H).
Defined.

(** ** Coefficients and missing inputs *)

(** [calc_density] reads four coefficients and [calc_ssa] three: on a
    table with numeric [force_median] and [l] columns, fewer than four
    coefficients make [calc_density] raise an [IndexError], while a list
    of three, such as the SSA coefficients, is enough for [calc_ssa]. *)
Theorem calc_density_needs_four_coefficients (shot_noise : DataFrame)
    (coefs : list R) (return_df : bool) (fc lc : column) (fm l : list float) :
  getattr shot_noise "force_median" = Ok fc -> values fc = Ok fm ->
  getattr shot_noise "l" = Ok lc -> values lc = Ok l ->
  (length coefs < 4)%nat ->
  calc_density shot_noise coefs return_df = Raise IndexError
  /\ (length coefs = 3%nat ->
      exists r, calc_ssa shot_noise coefs return_df = Ok r).
Proof.
  intros Hfc Hfm Hlc Hl Hlen. unfold calc_density, calc_ssa.
  destruct coefs as [| c0 [| c1 [| c2 [| c3 rest]]]]; cbn [length] in Hlen;
    try lia; cbn [nth_or nth_error bind]; rewrite ?Hfc, ?Hlc; cbn [bind];
    rewrite ?Hfm, ?Hl; cbn [bind]; rewrite ?Hfc; cbn [bind]; rewrite ?Hfm;
    cbn [bind]; (split; [reflexivity |]); cbn [length]; intros Hthree;
    try discriminate.
  destruct return_df; eexists; reflexivity.
Qed.

Lemma calc_density_needs_four_coefficients_witness :
  calc_density (shot_noise_of [(2, 0.05)]) [0.57; -18.56; -3.66] false
  = Raise IndexError
  /\ exists r, calc_ssa (shot_noise_of [(2, 0.05)]) [0.57; -18.56; -3.66] false = Ok r.
Proof.
  pose proof (calc_density_needs_four_coefficients
                (shot_noise_of [(2, 0.05)]) [0.57; -18.56; -3.66] false
                [Num (Fin 2)] [Num (Fin 0.05)] [Fin 2] [Fin 0.05]
                eq_refl eq_refl eq_refl eq_refl) as H.
  cbn [length] in H. specialize (H ltac:(lia)).
  destruct H as [H1 H2]. split; [exact H1 | exact (H2 eq_refl)].
Defined.

Lemma fmul_nan_r (a : float) : fmul a NaN = NaN.
Proof. destruct a; reflexivity. Qed.

Lemma fadd_nan_r (a : float) : fadd a NaN = NaN.
Proof. destruct a; reflexivity. Qed.

Lemma density_cells (c0 c1 c2 c3 : R) (rows : list (float * float)) :
  let fm := map fst rows in
  let l := map snd rows in
  map np.round1
    (map2 fadd
       (map2 fadd
          (map (fadd (Fin c0)) (map (fun f => fmul (Fin c1) (np.log f)) fm))
          (map2 fmul (map (fun f => fmul (Fin c2) (np.log f)) fm) l))
       (map (fmul (Fin c3)) l))
  = map (fun r =>
           np.round1
             (fadd (fadd (fadd (Fin c0) (fmul (Fin c1) (np.log (fst r))))
                         (fmul (fmul (Fin c2) (np.log (fst r))) (snd r)))
                   (fmul (Fin c3) (snd r)))) rows.
Proof.
  induction rows as [| r rows IH]; [reflexivity |].
  cbn [map map2] in *. rewrite IH. reflexivity.
Qed.

(** On every table whose columns force_median and l hold numbers, any
    floats at all (zero and negative forces, infinities and NaN
    included), whatever its other columns and whatever coefficients
    follow the fourth, [calc_density] raises nothing; it returns one
    density per row, and the density of a row whose force or element
    size is missing (NaN) is missing. *)
Theorem calc_density_missing_input (shot_noise : DataFrame) (c0 c1 c2 c3 : R)
    (more : list R) (rows : list (float * float)) :
  lookup shot_noise "force_median" = Some (map (fun r => Num (fst r)) rows) ->
  lookup shot_noise "l" = Some (map (fun r => Num (snd r)) rows) ->
  exists density,
    calc_density shot_noise (c0 :: c1 :: c2 :: c3 :: more) false
    = Ok (AsArray density)
    /\ length density = length rows
    /\ forall i, fst (nth i rows (NaN, NaN)) = NaN
                 \/ snd (nth i rows (NaN, NaN)) = NaN ->
                 nth i density NaN = NaN.
Proof.
  intros Hf Hl. unfold calc_density, getattr.
  rewrite Hf, Hl.
  cbn [nth_or nth_error bind].
  rewrite !values_Num. cbn [bind].
  pose proof (density_cells c0 c1 c2 c3 rows) as Hcells. cbn zeta in Hcells.
  rewrite Hcells. eexists. split; [reflexivity |]. split.
  - apply length_map.
  - intros i Hnan.
    destruct (Nat.lt_ge_cases i (length rows)) as [Hi | Hi].
    + rewrite (nth_map_in _ rows (NaN, NaN)) by exact Hi.
      destruct (nth i rows (NaN, NaN)) as [F L]. cbn [fst snd] in *.
      destruct Hnan as [-> | ->].
      * reflexivity.
      * rewrite !fmul_nan_r, !fadd_nan_r. reflexivity.
    + apply nth_overflow. rewrite length_map. exact Hi.
Qed.

Lemma calc_density_missing_input_witness :
  exists density,
    calc_density
      [("site"%string, [Str "P1"; Str "P2"; Str "P3"]);
       ("l"%string, [Num (Fin 0.05); Num NaN; Num PInf]);
       ("force_median"%string, [Num (Fin (-2)); Num (Fin 1); Num NaN]);
       ("relative_height"%string, [Num (Fin 10); Num (Fin 20); Num (Fin 30)])]
      [312.54; 50.27; -50.26; -85.38; 1] false
    = Ok (AsArray density)
    /\ length density = length [(Fin (-2), Fin 0.05); (Fin 1, NaN); (NaN, PInf)]
    /\ forall i,
         fst (nth i [(Fin (-2), Fin 0.05); (Fin 1, NaN); (NaN, PInf)] (NaN, NaN))
         = NaN
         \/ snd (nth i [(Fin (-2), Fin 0.05); (Fin 1, NaN); (NaN, PInf)]
                   (NaN, NaN)) = NaN ->
         nth i density NaN = NaN.
Proof.
  apply (calc_density_missing_input _ 312.54 50.27 (-50.26) (-85.38) [1]
           [(Fin (-2), Fin 0.05); (Fin 1, NaN); (NaN, PInf)]).
  - reflexivity.
  - reflexivity.
Defined.

(** ** Positions of missing samples *)

Lemma nonzero_from_In (z : list bool) (i k : nat) :
  In k (np.nonzero_from i z)
  <-> (i <= k)%nat /\ nth (k - i) z false = true.
Proof.
  revert i. induction z as [| b t IH]; intros i; cbn [np.nonzero_from].
  - split; [intros [] |]. intros [_ H]. destruct (k - i)%nat; discriminate.
  - assert (Hstep : In k (np.nonzero_from (S i) t)
                    <-> (i < k)%nat /\ nth (k - i) (b :: t) false = true).
    { rewrite IH. split; intros [Hle Hn]; (split; [lia |]).
      - replace (k - i)%nat with (S (k - S i)) by lia. exact Hn.
      - replace (k - i)%nat with (S (k - S i)) in Hn by lia. exact Hn. }
    destruct b.
    + cbn [In]. rewrite Hstep. split.
      * intros [<- | [Hlt Hn]]; [| split; [lia | exact Hn]].
        split; [lia |]. rewrite Nat.sub_diag. reflexivity.
      * intros [Hle Hn]. destruct (Nat.eq_dec i k) as [-> | Hne]; [left; reflexivity |].
        right. split; [lia | exact Hn].
    + rewrite Hstep. split.
      * intros [Hlt Hn]. split; [lia | exact Hn].
      * intros [Hle Hn]. split; [| exact Hn].
        destruct (Nat.eq_dec i k) as [-> | Hne]; [| lia].
        rewrite Nat.sub_diag in Hn. discriminate.
Qed.

Lemma nonzero_from_sorted (z : list bool) (i : nat) :
  StronglySorted lt (np.nonzero_from i z).
Proof.
  revert i. induction z as [| b t IH]; intros i; cbn [np.nonzero_from].
  - constructor.
  - destruct b; [| apply IH].
    constructor; [apply IH |].
    apply Forall_forall. intros k Hk. apply nonzero_from_In in Hk. lia.
Qed.

Lemma nonzero_from_length {A : Type} (z : list bool) (a : list A) (i : nat) :
  length z = length a ->
  length (np.nonzero_from i z) = length (np.select z a).
Proof.
  revert a i. induction z as [| b t IH]; intros a i Hlen; [reflexivity |].
  destruct a as [| x a]; [discriminate |]. injection Hlen as Hlen.
  cbn [np.nonzero_from np.select]. destruct b; cbn [length]; rewrite (IH a); auto.
Qed.

Lemma nonzero_from_partition (z : list bool) (i : nat) :
  Permutation (np.nonzero_from i z ++ np.nonzero_from i (np.invert z))
              (seq i (length z)).
Proof.
  revert i. induction z as [| b t IH]; intros i; [constructor |].
  cbn [np.invert map np.nonzero_from length seq]. fold (np.invert t).
  destruct b; cbn [negb app].
  - constructor. apply IH.
  - eapply Permutation_trans; [apply Permutation_sym, Permutation_middle |].
    constructor. apply IH.
Qed.

(** The two index arrays that [load_smp_data] takes from [nan_helper],
    [x(nans)] and [x(~nans)], are the positions of the NaN samples and
    of the others: each is strictly ascending, together they are the
    positions [0 .. len(y)-1], each once, and each has as many entries
    as the samples its mask selects. *)
Theorem nan_helper_partition (y : list float) :
  let nans := fst (nan_helper y) in
  let x := snd (nan_helper y) in
  (forall i, In i (x nans) <-> (i < length y)%nat /\ nth i y (Fin 0) = NaN)
  /\ (forall i, In i (x (np.invert nans))
                <-> (i < length y)%nat /\ nth i y (Fin 0) <> NaN)
  /\ StronglySorted lt (x nans)
  /\ StronglySorted lt (x (np.invert nans))
  /\ Permutation (x nans ++ x (np.invert nans)) (seq 0 (length y))
  /\ length (x nans) = length (np.select nans y)
  /\ length (x (np.invert nans)) = length (np.select (np.invert nans) y).
Proof.
  cbn [nan_helper fst snd]. unfold np.nonzero, np.isnan, np.invert.
  assert (Hnth : forall i, (i < length y)%nat ->
                           nth i (map is_nan y) false = is_nan (nth i y (Fin 0))).
  { intros i Hi. apply nth_map_in. exact Hi. }
  assert (Hover : forall (l : list bool) i, (length l <= i)%nat -> nth i l false = false).
  { intros l i Hi. apply nth_overflow. exact Hi. }
  repeat split.
  - apply nonzero_from_In in H. destruct H as [_ H]. rewrite Nat.sub_0_r in H.
    destruct (Nat.lt_ge_cases i (length y)) as [Hi | Hi]; [exact Hi |].
    rewrite Hover in H by (rewrite length_map; exact Hi). discriminate.
  - apply nonzero_from_In in H. destruct H as [_ H]. rewrite Nat.sub_0_r in H.
    destruct (Nat.lt_ge_cases i (length y)) as [Hi | Hi].
    + rewrite Hnth in H by exact Hi. destruct (nth i y (Fin 0)); try discriminate.
      reflexivity.
    + rewrite Hover in H by (rewrite length_map; exact Hi). discriminate.
  - intros [Hi Hn]. apply nonzero_from_In. split; [lia |].
    rewrite Nat.sub_0_r, Hnth by exact Hi. rewrite Hn. reflexivity.
  - apply nonzero_from_In in H. destruct H as [_ H]. rewrite Nat.sub_0_r in H.
    destruct (Nat.lt_ge_cases i (length y)) as [Hi | Hi]; [exact Hi |].
    rewrite Hover in H by (rewrite !length_map; exact Hi). discriminate.
  - intros Hn. apply nonzero_from_In in H. destruct H as [_ H].
    rewrite Nat.sub_0_r in H.
    destruct (Nat.lt_ge_cases i (length y)) as [Hi | Hi].
    + rewrite (nth_map_in negb (map is_nan y) false) in H
        by (rewrite length_map; exact Hi).
      rewrite Hnth, Hn in H by exact Hi. discriminate.
    + rewrite Hover in H by (rewrite !length_map; exact Hi). discriminate.
  - intros [Hi Hn]. apply nonzero_from_In. split; [lia |].
    rewrite Nat.sub_0_r.
    rewrite (nth_map_in negb (map is_nan y) false) by (rewrite length_map; exact Hi).
    rewrite Hnth by exact Hi.
    destruct (nth i y (Fin 0)); try reflexivity. contradiction.
  - apply nonzero_from_sorted.
  - apply nonzero_from_sorted.
  - pose proof (nonzero_from_partition (map is_nan y) 0) as Hp.
    rewrite length_map in Hp. exact Hp.
  - apply nonzero_from_length. apply length_map.
  - apply nonzero_from_length. rewrite !length_map. reflexivity.
Qed.

(** ** Which layer a draw goes to *)










Section DrawsAndLayers.

Variable G : Type.
Variable choice : nat -> G -> list nat * G.
Variable uniform : R -> R -> G -> R * G.

Hypothesis choice_permutation :
  forall n g, Permutation (fst (choice n g)) (seq 0 n).

Lemma choice_length (n : nat) (g : G) : length (fst (choice n g)) = n.
Proof.
  rewrite (Permutation_length (choice_permutation n g)). apply length_seq.
Qed.


(** [random_scaling] for no layer: a negative [layer_num] raises a
    [ValueError] and leaves the generator as it was; with [layer_num = 0]
    the first round returns the empty vector when [max_change] is not
    negative, after the draw of the (empty) order only. *)
Theorem random_scaling_without_layers (fuel : nat) (layer_num : Z)
    (max_change max_change_layer : R) (g : G) :
  (layer_num <= 0)%Z ->
  random_scaling G choice uniform (S fuel) layer_num max_change max_change_layer g
  = if (layer_num <? 0)%Z then (Raise ValueError, g)
    else if Rleb 0 max_change then (Ok [], snd (choice 0 g))
    else random_scaling G choice uniform fuel layer_num
           max_change max_change_layer (snd (choice 0 g)).
Proof.
  intros Hn. rewrite random_scaling_round.
  destruct (layer_num <? 0)%Z eqn:Hneg; [reflexivity |].
  apply Z.ltb_ge in Hneg. assert (layer_num = 0%Z) as -> by lia.
  change (Z.to_nat 0) with 0%nat. cbv zeta.
  pose proof (choice_length 0 g) as Hlen.
  destruct (fst (choice 0 g)) as [| a p] eqn:Hp; [| discriminate].
  cbn [length draw_layers fst snd]. unfold Rsum at 1. cbn [fold_left].
  rewrite Rabs_R0.
  destruct (Rleb 0 max_change); reflexivity.
Qed.

End DrawsAndLayers.


Lemma random_scaling_without_layers_witness :
  (0 <= 0)%Z
  /\ random_scaling (list nat) replay_choice replay_uniform 1 0 0.1 0.7 [4]%nat
     = if (0 <? 0)%Z then (Raise ValueError, [4]%nat)
       else if Rleb 0 0.1 then (Ok [], snd (replay_choice 0 [4]%nat))
       else random_scaling (list nat) replay_choice replay_uniform 0 0 0.1 0.7
              (snd (replay_choice 0 [4]%nat)).
Proof.
  assert (Hn : (0 <= 0)%Z) by lia.
  split; [exact Hn |].
  exact (random_scaling_without_layers (list nat) replay_choice replay_uniform
           replay_choice_permutation 0 0 0.1 0.7 [4]%nat Hn).
Defined.

(** ** Edge cases of the warp *)

Lemma slice_incl {A : Type} (a : list A) (i j : nat) (x : A) :
  In x (np.slice a i j) -> In x a.
Proof.
  unfold np.slice. intros H.
  rewrite <- (firstn_skipn i a). apply in_or_app. right.
  rewrite <- (firstn_skipn (j - i) (skipn i a)). apply in_or_app. left. exact H.
Qed.

Section WarpEdges.

Variable zoom : list float -> R -> list float.

(** What one round of the loop does to the output. *)
Lemma scale_layer_output (depth_array value_array layer_thickness depth_stretch : list float)
    (l_resample : R) (h_resample : float) (st st' : warp_state) (l_idx : nat) :
  scale_layer zoom depth_array value_array layer_thickness depth_stretch
    l_resample h_resample st l_idx = Ok st' ->
  (result_dist st' = result_dist st /\ result_value st' = result_value st)
  \/ exists i j i' j',
       (2 < length (np.slice value_array i j))%nat
       /\ result_dist st' = (result_dist st ++ np.slice depth_stretch i' j')%list
       /\ result_value st'
          = (result_value st
             ++ zoom (np.slice value_array i j)
                  (INR (length (np.slice depth_stretch i' j'))
                   / INR (length (np.slice depth_array i j))))%list.
Proof.
  unfold scale_layer.
  destruct (nearest depth_array _) as [i | |]; [| discriminate ..]. cbn [bind].
  destruct (nearest depth_array _) as [j | |]; [| discriminate ..]. cbn [bind].
  destruct (nearest depth_stretch _) as [j' | |]; [| discriminate ..]. cbn [bind].
  destruct (nearest depth_stretch _) as [i' | |]; [| discriminate ..]. cbn [bind].
  destruct (Nat.ltb 2 (length (np.slice value_array i j))) eqn:Hlong.
  - destruct (Nat.eqb (length (np.slice depth_array i j)) 0); [discriminate |].
    intros H. injection H as <-. cbn [result_dist result_value].
    right. exists i, j, i', (j' + 1)%nat. apply Nat.ltb_lt in Hlong.
    repeat split. exact Hlong.
  - intros H. injection H as <-. left. split; reflexivity.
Qed.

Lemma scale_layers_on_grid (P : float -> Prop)
    (depth_array value_array layer_thickness depth_stretch : list float)
    (l_resample : R) (h_resample : float) (idxs : list nat) (st st' : warp_state) :
  (forall x, In x depth_stretch -> P x) ->
  scale_layers zoom depth_array value_array layer_thickness depth_stretch
    l_resample h_resample st idxs = Ok st' ->
  Forall P (result_dist st) -> Forall P (result_dist st').
Proof.
  intros HP. revert st. induction idxs as [| l_idx rest IH]; intros st; cbn [scale_layers].
  - intros H. injection H as <-. auto.
  - destruct (scale_layer zoom depth_array value_array layer_thickness depth_stretch
                l_resample h_resample st l_idx) as [st1 | |] eqn:Hstep;
      [| discriminate ..].
    cbn [bind]. intros Hrun Hst. apply (IH st1 Hrun).
    apply scale_layer_output in Hstep.
    destruct Hstep as [[-> _] | [i [j [i' [j' [_ [-> _]]]]]]]; [exact Hst |].
    apply Forall_app. split; [exact Hst |].
    apply Forall_forall. intros x Hx. apply HP. apply (slice_incl _ _ _ _ Hx).
Qed.

Lemma scale_layers_few_samples
    (depth_array value_array layer_thickness depth_stretch : list float)
    (l_resample : R) (h_resample : float) (idxs : list nat) (st st' : warp_state) :
  (length value_array <= 2)%nat ->
  scale_layers zoom depth_array value_array layer_thickness depth_stretch
    l_resample h_resample st idxs = Ok st' ->
  result_dist st' = result_dist st /\ result_value st' = result_value st.
Proof.
  intros Hfew. revert st. induction idxs as [| l_idx rest IH]; intros st; cbn [scale_layers].
  - intros H. injection H as <-. split; reflexivity.
  - destruct (scale_layer zoom depth_array value_array layer_thickness depth_stretch
                l_resample h_resample st l_idx) as [st1 | |] eqn:Hstep;
      [| discriminate ..].
    cbn [bind]. intros Hrun. destruct (IH st1 Hrun) as [-> ->].
    apply scale_layer_output in Hstep.
    destruct Hstep as [Hsame | [i [j [i' [j' [Hlong _]]]]]]; [exact Hsame |].
    rewrite slice_length in Hlong. lia.
Qed.

(** A layer is warped only when it holds more than two source samples:
    with at most two values in [value_array], [scale_profile] returns
    two empty arrays whenever it returns. *)
Theorem scale_profile_needs_three_samples (scaling_guess : list R)
    (depth_array value_array : list float) (l_resample : R)
    (h_resample : option float) (warped_depth warped_value : list float) :
  (length value_array <= 2)%nat ->
  scale_profile zoom scaling_guess depth_array value_array l_resample h_resample
  = Ok (warped_depth, warped_value) ->
  warped_depth = [] /\ warped_value = [].
Proof.
  intros Hfew. unfold scale_profile.
  destruct (nth_or IndexError depth_array 0) as [d0 | |]; [| discriminate ..].
  destruct (nth_or IndexError depth_array 1) as [d1 | |]; [| discriminate ..].
  cbn [bind].
  destruct (np.arange0 _ _) as [depth_stretch | |]; [| discriminate ..].
  cbn [bind].
  destruct (scale_layers _ _ _ _ _ _ _ _ _) as [st | |] eqn:Hrun; [| discriminate ..].
  cbn [bind]. intros H. injection H as <- <-.
  apply (scale_layers_few_samples _ _ _ _ _ _ _ _ _ Hfew) in Hrun.
  exact Hrun.
Qed.

(** When the stretched layers have no thickness in total (or a negative
    one), the output grid is empty and [scale_profile] raises a
    [ValueError] in its first layer. *)
Theorem scale_profile_collapsed_layers (scaling_guess : list R) (d0 d1 : R)
    (rest value_array : list float) (l_resample : R) :
  scaling_guess <> [] ->
  d0 < d1 ->
  Rsum (map (fun s => l_resample + s * l_resample) scaling_guess) <= 0 ->
  scale_profile zoom scaling_guess (Fin d0 :: Fin d1 :: rest) value_array
    l_resample None
  = Raise ValueError.
Proof.
  intros Hne Hh HT.
  set (ts := map (fun s => l_resample + s * l_resample) scaling_guess) in *.
  unfold scale_profile. cbn [nth_or nth_error bind fsub fadd fopp].
  replace (map (fun s => Fin (l_resample + s * l_resample)) scaling_guess)
    with (map Fin ts) by (unfold ts; rewrite map_map; reflexivity).
  rewrite sum_fin, arange0_grid by lra. cbn [bind].
  rewrite Zceil_nonpos.
  2:{ assert (Hdiv : Rsum ts / (d1 + - d0) = Rsum ts * / (d1 + - d0)) by reflexivity.
      assert (Hinv : 0 < / (d1 + - d0)) by (apply Rinv_0_lt_compat; lra).
      rewrite Hdiv. nra. }
  rewrite length_map.
  destruct ts as [| t ts'] eqn:Ets.
  - destruct scaling_guess; [contradiction | discriminate].
  - cbn [length seq scale_layers]. unfold scale_layer.
    destruct (nearest_nonempty (Fin d0 :: Fin d1 :: rest)
                (Fin (l_resample * INR 0)) ltac:(discriminate)) as [i0 Hi0].
    destruct (nearest_nonempty (Fin d0 :: Fin d1 :: rest)
                (Fin (l_resample * INR 0 + l_resample)) ltac:(discriminate))
      as [i1 Hi1].
    rewrite Hi0, Hi1. cbn [bind grid seq map]. rewrite nearest_empty.
    reflexivity.
Qed.

(** With an empty scaling vector [scale_profile] returns two empty
    arrays. *)
Theorem scale_profile_without_layers (d0 d1 : R) (rest value_array : list float)
    (l_resample : R) :
  d0 < d1 ->
  scale_profile zoom [] (Fin d0 :: Fin d1 :: rest) value_array l_resample None
  = Ok ([], []).
Proof.
  intros Hh. unfold scale_profile. cbn [nth_or nth_error bind fsub fadd fopp map].
  change (np.sum []) with (Fin 0).
  rewrite arange0_grid by lra. cbn [bind length seq scale_layers result_dist result_value].
  reflexivity.
Qed.

(** Every depth that [scale_profile] returns is an entry of the output
    grid [np.arange(0, total, step)], for the sample step of the source
    and the total thickness of the stretched layers.  In exact
    arithmetic the entries of that grid are the multiples of the step
    below the total.  (In binary64 the grid has [ceil(total / step)]
    entries for the rounded quotient, and its last entry can reach the
    total.) *)
Theorem scale_profile_depths_on_grid (scaling_guess : list R) (d0 d1 : R)
    (rest value_array : list float) (l_resample : R)
    (warped_depth warped_value : list float) :
  d0 < d1 ->
  scale_profile zoom scaling_guess (Fin d0 :: Fin d1 :: rest) value_array
    l_resample None
  = Ok (warped_depth, warped_value) ->
  exists depth_stretch,
    np.arange0
      (np.sum (map (fun s => Fin (l_resample + s * l_resample)) scaling_guess))
      (fsub (Fin d1) (Fin d0))
    = Ok depth_stretch
    /\ Forall (fun x => In x depth_stretch) warped_depth
    /\ Forall (fun x => exists k : nat,
                  x = Fin (INR k * (d1 - d0))
                  /\ INR k * (d1 - d0)
                     < Rsum (map (fun s => l_resample + s * l_resample)
                                 scaling_guess))
              depth_stretch.
Proof.
  intros Hh.
  set (ts := map (fun s => l_resample + s * l_resample) scaling_guess) in *.
  unfold scale_profile. cbn [nth_or nth_error bind fsub fadd fopp].
  replace (map (fun s => Fin (l_resample + s * l_resample)) scaling_guess)
    with (map Fin ts) by (unfold ts; rewrite map_map; reflexivity).
  rewrite sum_fin, arange0_grid by lra. cbn [bind].
  destruct (scale_layers _ _ _ _ _ _ _ _ _) as [st | |] eqn:Hrun; [| discriminate ..].
  cbn [bind]. intros H. injection H as <- _.
  eexists. split; [reflexivity |]. split.
  - refine (scale_layers_on_grid _ _ _ _ _ _ _ _ _ _ _ Hrun _); [| constructor].
    intros x Hx. exact Hx.
  - apply Forall_forall. intros x Hx.
    apply in_map_iff in Hx. destruct Hx as [r [<- Hr]].
    unfold grid in Hr. apply in_map_iff in Hr. destruct Hr as [k [<- Hk]].
    exists k. split; [f_equal; lra |].
    apply in_seq in Hk.
    pose proof (Zceil_bound (Rsum ts / (d1 + - d0))) as [Hlb _].
    assert (Hk' : (Z.of_nat k + 1 <= Zceil (Rsum ts / (d1 + - d0)))%Z) by lia.
    apply IZR_le in Hk'. rewrite plus_IZR, <- INR_IZR_INZ in Hk'.
    assert (Hlt : INR k < Rsum ts / (d1 + - d0)) by lra.
    assert (Hmul : Rsum ts = Rsum ts / (d1 + - d0) * (d1 + - d0)) by (field; lra).
    nra.
Qed.

End WarpEdges.

Lemma scale_profile_needs_three_samples_witness :
  (length [Fin 300; Fin 310] <= 2)%nat
  /\ scale_profile zoom_nearest [0] [Fin 0; Fin 1] [Fin 300; Fin 310] 2 None
     = Ok ([], [])
  /\ @nil float = [] /\ @nil float = [].
Proof.
  assert (Hfew : (length [Fin 300; Fin 310] <= 2)%nat) by (cbn [length]; lia).
  assert (Hrun : scale_profile zoom_nearest [0] [Fin 0; Fin 1] [Fin 300; Fin 310]
                   2 None = Ok ([], []))
    by (apply short_warp; lra).
  split; [exact Hfew |]. split; [exact Hrun |].
  exact (scale_profile_needs_three_samples zoom_nearest [0] [Fin 0; Fin 1]
           [Fin 300; Fin 310] 2 None [] [] Hfew Hrun).
Defined.

Lemma scale_profile_collapsed_layers_witness :
  Rsum (map (fun s => 3 + s * 3) [-1]) <= 0
  /\ scale_profile zoom_nearest [-1] [Fin 0; Fin 1; Fin 2; Fin 3]
       [Fin 300; Fin 310; Fin 320; Fin 330] 3 None
     = Raise ValueError.
Proof.
  assert (HT : Rsum (map (fun s => 3 + s * 3) [-1]) <= 0).
  { unfold Rsum. cbn [map fold_left]. lra. }
  split; [exact HT |].
  apply (scale_profile_collapsed_layers zoom_nearest [-1] 0 1 [Fin 2; Fin 3]
           [Fin 300; Fin 310; Fin 320; Fin 330] 3);
    [discriminate | lra | exact HT].
Defined.

Lemma scale_profile_without_layers_witness :
  0 < 1
  /\ scale_profile zoom_nearest [] [Fin 0; Fin 1; Fin 2] [Fin 300; Fin 310; Fin 320]
       3 None
     = Ok ([], []).
Proof.
  assert (Hh : 0 < 1) by lra.
  split; [exact Hh |].
  exact (scale_profile_without_layers zoom_nearest 0 1 [Fin 2]
           [Fin 300; Fin 310; Fin 320] 3 Hh).
Defined.

Lemma scale_profile_depths_on_grid_witness :
  let d0 := 0 + INR 0 * 1 in
  let d1 := 0 + INR 1 * 1 in
  d0 < d1
  /\ scale_profile zoom_nearest [0.6875; -0.6875] (regular_depths 0 1 7)
       [Fin 1; Fin 2; Fin 3; Fin 4; Fin 5; Fin 6; Fin 7] 3 None
     = Ok ([Fin 0; Fin 1; Fin 2; Fin 3; Fin 4; Fin 5; Fin 5],
           zoom_nearest [Fin 1; Fin 2; Fin 3] (6 / 3)
           ++ zoom_nearest [Fin 4; Fin 5; Fin 6] (1 / 3))%list
  /\ exists depth_stretch,
       np.arange0
         (np.sum (map (fun s => Fin (3 + s * 3)) [0.6875; -0.6875]))
         (fsub (Fin d1) (Fin d0))
       = Ok depth_stretch
       /\ Forall (fun x => In x depth_stretch)
                 [Fin 0; Fin 1; Fin 2; Fin 3; Fin 4; Fin 5; Fin 5]
       /\ Forall (fun x => exists k : nat,
                     x = Fin (INR k * (d1 - d0))
                     /\ INR k * (d1 - d0)
                        < Rsum (map (fun s => 3 + s * 3) [0.6875; -0.6875]))
                 depth_stretch.
Proof.
  intros d0 d1.
  assert (Hh : d0 < d1) by (unfold d0, d1; cbn [INR]; lra).
  pose proof (thin_last_layer_run zoom_nearest (Fin 1) (Fin 2) (Fin 3) (Fin 4)
                (Fin 5) (Fin 6) (Fin 7)) as Hrun.
  split; [exact Hh |]. split; [exact Hrun |].
  exact (scale_profile_depths_on_grid zoom_nearest [0.6875; -0.6875] d0 d1
           (map (fun i => Fin (0 + INR i * 1)) (seq 2 5))
           [Fin 1; Fin 2; Fin 3; Fin 4; Fin 5; Fin 6; Fin 7] 3 _ _ Hh Hrun).
Defined.

(** ** Misaligned source arrays *)

(** When the depths and the values of the source have different lengths,
    [extract_samples] raises an [IndexError] as soon as there is a target
    depth, and returns the four empty columns when there is none. *)
Theorem extract_samples_misaligned (a_height a_value b_height : list float)
    (window_size : R) :
  length a_height <> length a_value ->
  extract_samples a_height a_value b_height window_size
  = match b_height with
    | [] => Ok [("count_samp"%string, []); ("mean_samp"%string, []);
                ("median_samp"%string, []); ("stdev_samp"%string, [])]
    | _ :: _ => Raise IndexError
    end.
Proof.
  intros Hlen. destruct b_height as [| height rest]; [reflexivity |].
  unfold extract_samples. cbn [mapM].
  unfold window at 1. unfold np.bool_index. rewrite length_map.
  apply Nat.eqb_neq in Hlen. rewrite Hlen. reflexivity.
Qed.

Lemma extract_samples_misaligned_witness :
  length [Fin 10; Fin 20] <> length [Fin 5]
  /\ extract_samples [Fin 10; Fin 20] [Fin 5] [Fin 15] 10 = Raise IndexError.
Proof.
  assert (Hlen : length [Fin 10; Fin 20] <> length [Fin 5])
    by (cbn [length]; lia).
  split; [exact Hlen |].
  exact (extract_samples_misaligned [Fin 10; Fin 20] [Fin 5] [Fin 15] 10 Hlen).
Defined.

(** ** More on scoring *)

(** Without a [grain_type] column [calc_skill] raises a [KeyError]; with
    [drop_na] set the incomplete rows of the table that was passed have
    been dropped by then. *)
Theorem calc_skill_missing_grain_type (result : DataFrame) (window_size : R)
    (drop_na : bool) :
  lookup result "grain_type" = None ->
  calc_skill window_size drop_na result
  = (Raise KeyError, if drop_na then dropna result else result).
Proof.
  intros Hgt. unfold calc_skill, bindM, modify, ret, get, lift, getitem.
  destruct drop_na.
  - unfold dropna at 1. rewrite lookup_filter_rows, Hgt. reflexivity.
  - rewrite Hgt. reflexivity.
Qed.

Lemma calc_skill_missing_grain_type_witness :
  lookup pit_temperature "grain_type" = None
  /\ calc_skill 15 true pit_temperature
     = (Raise KeyError, dropna pit_temperature).
Proof.
  assert (Hgt : lookup pit_temperature "grain_type" = None) by reflexivity.
  split; [exact Hgt |].
  exact (calc_skill_missing_grain_type pit_temperature 15 true Hgt).
Defined.

Lemma clip1_range (a : float) : correlation_range (clip1 a).
Proof.
  unfold clip1.
  destruct a as [x | | |]; cbn [fltb].
  - destruct (Rltb x (-1)) eqn:E1; [cbn; lra |].
    destruct (Rltb 1 x) eqn:E2; [cbn; lra |].
    cbn [correlation_range].
    unfold Rltb in E1, E2.
    destruct (Rlt_dec x (-1)); [discriminate |].
    destruct (Rlt_dec 1 x); [discriminate |]. lra.
  - cbn; lra.
  - cbn; lra.
  - exact I.
Qed.

Lemma fsqrt_not_negative (a : float) : not_negative (fsqrt a).
Proof.
  destruct a as [x | | |]; cbn [fsqrt]; try exact I.
  destruct (Rltb x 0); [exact I |]. cbn [not_negative]. apply sqrt_pos.
Qed.

(** The scores of [calc_skill]: the correlation is NaN or lies in
    [-1, 1], and the RMSE is never negative. *)
Theorem calc_skill_score_ranges (result result' : DataFrame) (window_size : R)
    (drop_na : bool) (r rmse : float) :
  calc_skill window_size drop_na result = (Ok (r, rmse), result') ->
  correlation_range r /\ not_negative rmse.
Proof.
  unfold calc_skill, bindM, get, lift.
  destruct ((if drop_na then modify dropna else ret tt) result)
    as [[[] | |] s]; [| discriminate ..].
  destruct (getitem s "grain_type") as [gt | |]; [| discriminate ..].
  destruct (getitem _ "mean_samp") as [ms | |]; [| discriminate ..]. cbn [bind].
  destruct (getitem _ "ref_val") as [rv | |]; [| discriminate ..]. cbn [bind].
  destruct (values ms) as [x | |]; [| discriminate ..]. cbn [bind].
  destruct (values rv) as [y | |]; [| discriminate ..]. cbn [bind].
  intros H. injection H as <- <- _. split.
  - unfold corrcoef10. apply clip1_range.
  - apply fsqrt_not_negative.
Qed.

Lemma calc_skill_score_ranges_witness :
  calc_skill 15 true sparse_table
  = (Ok (NaN, fabs (fsub (Fin 3) (Fin 1))), dropna sparse_table)
  /\ correlation_range NaN
  /\ not_negative (fabs (fsub (Fin 3) (Fin 1))).
Proof.
  assert (Hrun : calc_skill 15 true sparse_table
                 = (Ok (NaN, fabs (fsub (Fin 3) (Fin 1))), dropna sparse_table)).
  { apply (calc_skill_few sparse_table 15 [Fin 3] [Fin 1]).
    - exact valid_rows_sparse_table.
    - cbn [length]. lia.
    - reflexivity. }
  split; [exact Hrun |].
  exact (calc_skill_score_ranges _ _ _ _ _ _ Hrun).
Defined.

(** *** Dropping incomplete rows once is enough *)

Lemma select_In {A : Type} (keep : list bool) (a : list A) (x : A) :
  In x (np.select keep a) ->
  exists i, nth i keep false = true /\ nth_error a i = Some x.
Proof.
  revert a. induction keep as [| b keep IH]; intros a; [intros [] |].
  destruct a as [| y a]; [intros [] |]. cbn [np.select].
  destruct b.
  - intros [<- | Hin].
    + exists 0%nat. split; reflexivity.
    + destruct (IH a Hin) as [i [Hk Hn]]. exists (S i). split; assumption.
  - intros Hin. destruct (IH a Hin) as [i [Hk Hn]]. exists (S i). split; assumption.
Qed.

Lemma select_all_true {A : Type} (keep : list bool) (a : list A) :
  Forall (fun b => b = true) keep -> (length a <= length keep)%nat ->
  np.select keep a = a.
Proof.
  intros Hall. revert a. induction Hall as [| b keep -> _ IH]; intros a Hlen.
  - destruct a; [reflexivity | cbn [length] in Hlen; lia].
  - destruct a as [| y a]; [reflexivity |]. cbn [np.select length] in *.
    rewrite IH by lia. reflexivity.
Qed.

Lemma select_length {A B : Type} (keep : list bool) (a : list A) (b : list B) :
  length a = length b ->
  length (np.select keep a) = length (np.select keep b).
Proof.
  revert a b. induction keep as [| k keep IH]; intros a b Hlen; [reflexivity |].
  destruct a as [| x a], b as [| y b]; try discriminate; [reflexivity |].
  injection Hlen as Hlen. cbn [np.select].
  destruct k; cbn [length]; rewrite (IH a b Hlen); reflexivity.
Qed.

Lemma row_complete_cell (df : DataFrame) (i : nat) (p : string * column) (c : cell) :
  row_complete df i = true -> In p df -> nth_error (snd p) i = Some c ->
  is_na c = false.
Proof.
  unfold row_complete. intros Hrow Hp Hc.
  rewrite forallb_forall in Hrow. specialize (Hrow p Hp).
  rewrite (nth_error_nth _ _ _ Hc) in Hrow.
  destruct (is_na c); [discriminate | reflexivity].
Qed.

Lemma dropna_no_missing (df : DataFrame) : no_missing (dropna df).
Proof.
  intros p c Hp Hc. unfold dropna, filter_rows in Hp.
  apply in_map_iff in Hp. destruct Hp as [q [<- Hq]]. cbn [snd] in Hc.
  apply select_In in Hc. destruct Hc as [i [Hkeep Hcell]].
  assert (Hi : (i < nrows df)%nat).
  { destruct (Nat.lt_ge_cases i (nrows df)) as [H | H]; [exact H |].
    rewrite nth_overflow in Hkeep by (rewrite length_map, length_seq; exact H).
    discriminate. }
  rewrite (nth_map_in (row_complete df) (seq 0 (nrows df)) 0%nat) in Hkeep
    by (rewrite length_seq; exact Hi).
  rewrite seq_nth in Hkeep by exact Hi. cbn [Nat.add] in Hkeep.
  exact (row_complete_cell df i q c Hkeep Hq Hcell).
Qed.

Lemma dropna_complete (df : DataFrame) :
  rectangular df -> no_missing df -> dropna df = df.
Proof.
  intros Hrect Hfull. unfold dropna, filter_rows.
  assert (Hkeep : Forall (fun b => b = true)
                         (map (row_complete df) (seq 0 (nrows df)))).
  { apply Forall_forall. intros b Hb. apply in_map_iff in Hb.
    destruct Hb as [i [<- Hi]]. apply in_seq in Hi.
    unfold row_complete. apply forallb_forall. intros p Hp.
    unfold rectangular in Hrect. rewrite Forall_forall in Hrect.
    assert (Hin : In (nth i (snd p) (Num NaN)) (snd p)).
    { apply nth_In. rewrite (Hrect p Hp). lia. }
    rewrite (Hfull p _ Hp Hin). reflexivity. }
  unfold rectangular in Hrect. rewrite Forall_forall in Hrect.
  transitivity (map (fun p : string * column => p) df); [| apply map_id].
  apply map_ext_in. intros p Hp.
  rewrite select_all_true; [destruct p; reflexivity | exact Hkeep |].
  rewrite length_map, length_seq, (Hrect p Hp). lia.
Qed.

Lemma dropna_rectangular (df : DataFrame) : rectangular df -> rectangular (dropna df).
Proof.
  intros Hrect. unfold rectangular in *. rewrite Forall_forall in *.
  intros p Hp. unfold dropna, filter_rows in *.
  apply in_map_iff in Hp. destruct Hp as [q [<- Hq]]. cbn [snd].
  destruct df as [| [n col] t]; [destruct Hq |].
  cbn [map nrows fst snd] in *.
  apply select_length. apply (Hrect q Hq).
Qed.

Lemma dropna_idempotent (df : DataFrame) :
  rectangular df -> dropna (dropna df) = dropna df.
Proof.
  intros Hrect. apply dropna_complete.
  - apply dropna_rectangular. exact Hrect.
  - apply dropna_no_missing.
Qed.

Lemma calc_skill_after_dropna (window_size : R) (result : DataFrame) :
  calc_skill window_size true result
  = calc_skill window_size false (dropna result).
Proof. reflexivity. Qed.

(** After [calc_skill] the table that was passed has no missing value,
    and scoring that table again, with or without [drop_na], gives the
    scores of the first call and leaves the table as it is. *)
Theorem calc_skill_again (result : DataFrame) (window_size : R) :
  rectangular result ->
  let left_behind := snd (calc_skill window_size true result) in
  no_missing left_behind
  /\ calc_skill window_size true left_behind = calc_skill window_size true result
  /\ calc_skill window_size false left_behind = calc_skill window_size true result.
Proof.
  intros Hrect left_behind.
  assert (Hleft : left_behind = dropna result).
  { unfold left_behind. apply calc_skill_table. }
  rewrite Hleft. split; [apply dropna_no_missing |]. split.
  - rewrite (calc_skill_after_dropna window_size (dropna result)).
    rewrite dropna_idempotent by exact Hrect.
    symmetry. apply calc_skill_after_dropna.
  - symmetry. apply calc_skill_after_dropna.
Qed.

Lemma sparse_table_rectangular : rectangular sparse_table.
Proof. repeat constructor. Qed.

Lemma calc_skill_again_witness :
  rectangular sparse_table
  /\ no_missing (snd (calc_skill 15 true sparse_table))
  /\ calc_skill 15 true (snd (calc_skill 15 true sparse_table))
     = calc_skill 15 true sparse_table
  /\ calc_skill 15 false (snd (calc_skill 15 true sparse_table))
     = calc_skill 15 true sparse_table.
Proof.
  split; [exact sparse_table_rectangular |].
  exact (calc_skill_again sparse_table 15 sparse_table_rectangular).
Defined.

(** *** Scores of special profiles *)

Lemma calc_skill_scores (df : DataFrame) (w : R) (x y : list float) :
  valid_rows df = Ok (x, y) ->
  calc_skill w true df
  = (Ok (corrcoef10 x y,
         fsqrt (series_mean (map2 (fun a b => let d := fsub a b in fmul d d) x y))),
     dropna df).
Proof.
  unfold valid_rows, calc_skill, getitem.
  destruct (lookup df "grain_type") as [gt |] eqn:Hgt; [| discriminate].
  destruct (lookup df "mean_samp") as [ms |] eqn:Hms; [| discriminate].
  destruct (lookup df "ref_val") as [rv |] eqn:Hrv; [| discriminate].
  cbn [bind]. intros Hv.
  unfold bindM, modify, get, lift. unfold dropna at 1 2.
  rewrite lookup_filter_rows, Hgt. cbn [option_map].
  rewrite !lookup_filter_rows.
  unfold dropna. rewrite !lookup_filter_rows, Hms, Hrv. cbn [option_map bind].
  rewrite !select_twice.
  destruct (values (np.select _ ms)) as [x' | |]; try discriminate.
  cbn [bind] in *.
  destruct (values (np.select _ rv)) as [y' | |]; try discriminate.
  cbn [bind] in *. injection Hv as -> ->. reflexivity.
Qed.

Lemma map2_fmul_fin (a b : list R) :
  map2 fmul (map Fin a) (map Fin b) = map Fin (map2 Rmult a b).
Proof.
  revert b. induction a as [| x a IH]; intros b; [reflexivity |].
  destruct b as [| y b]; [reflexivity |]. cbn [map map2 fmul]. rewrite IH. reflexivity.
Qed.

Lemma dot_fin (a b : list R) : dot (map Fin a) (map Fin b) = Fin (Rdot a b).
Proof. unfold dot, Rdot. rewrite map2_fmul_fin. apply sum_fin. Qed.

Lemma mean_fin (l : list R) :
  l <> [] -> np.mean (map Fin l) = Fin (Rsum l / INR (length l)).
Proof.
  intros Hne. unfold np.mean. rewrite sum_fin, length_map. cbn [fdiv].
  rewrite Reqb_false; [reflexivity |].
  apply not_0_INR. destruct l; [contradiction | discriminate].
Qed.

Lemma center_fin (l : list R) (m : R) :
  map (fun a => fsub a (Fin m)) (map Fin l) = map Fin (map (fun a => a - m) l).
Proof. rewrite !map_map. reflexivity. Qed.

(** The correlation of finite sequences of at least two values. *)
Lemma corrcoef10_fin (xs ys : list R) :
  (2 <= length xs)%nat -> length ys = length xs ->
  let n := INR (length xs) in
  let xc := map (fun a => a - Rsum xs / n) xs in
  let yc := map (fun a => a - Rsum ys / n) ys in
  corrcoef10 (map Fin xs) (map Fin ys)
  = clip1 (fdiv (fdiv (Fin (Rdot yc xc * (1 / (n - 1))))
                      (fsqrt (Fin (Rdot yc yc * (1 / (n - 1))))))
                (fsqrt (Fin (Rdot xc xc * (1 / (n - 1)))))).
Proof.
  intros Hn Hlen n xc yc. unfold corrcoef10.
  rewrite !mean_fin by (intros E; rewrite E in *; cbn [length] in *; lia).
  rewrite !length_map, Hlen. fold n.
  assert (Hn2 : 2 <= n).
  { unfold n. apply le_INR in Hn. cbn [INR] in Hn. lra. }
  rewrite Rleb_false by lra.
  rewrite !center_fin. fold xc yc. rewrite !dot_fin.
  cbn [fdiv]. rewrite Reqb_false by lra. cbn [fmul]. reflexivity.
Qed.

Lemma Rsum_zero (l : list R) : Forall (fun t => t = 0) l -> Rsum l = 0.
Proof.
  induction 1 as [| t l -> _ IH]; [reflexivity |]. rewrite Rsum_cons, IH. lra.
Qed.

Lemma Rsum_ge_term (l : list R) (e : R) :
  Forall (fun t => 0 <= t) l -> In e l -> e <= Rsum l.
Proof.
  induction 1 as [| t l Ht Hl IH]; intros Hin; [destruct Hin |].
  rewrite Rsum_cons. pose proof (Rsum_nonneg l Hl) as Hge.
  destruct Hin as [-> | Hin]; [lra |]. specialize (IH Hin). lra.
Qed.

Lemma map2_same {A B : Type} (f : A -> A -> B) (l : list A) :
  map2 f l l = map (fun a => f a a) l.
Proof. induction l as [| a l IH]; [reflexivity |]. cbn [map2 map]. rewrite IH. reflexivity. Qed.

Lemma map2_cons {A B C : Type} (f : A -> B -> C) (a : A) (b : B)
    (l : list A) (m : list B) :
  map2 f (a :: l) (b :: m) = f a b :: map2 f l m.
Proof. reflexivity. Qed.

Lemma rmse_fin (xs ys : list R) :
  xs <> [] -> length ys = length xs ->
  fsqrt (series_mean (map2 (fun a b => let d := fsub a b in fmul d d)
                           (map Fin xs) (map Fin ys)))
  = Fin (sqrt (Rsum (map2 (fun a b => (a - b) * (a - b)) xs ys)
               / INR (length xs))).
Proof.
  intros Hne Hlen.
  assert (Hsq : map2 (fun a b => let d := fsub a b in fmul d d) (map Fin xs) (map Fin ys)
                = map Fin (map2 (fun a b => (a - b) * (a - b)) xs ys)).
  { clear Hne. revert ys Hlen. induction xs as [| x xs IH]; intros ys Hlen; [reflexivity |].
    destruct ys as [| y ys]; [discriminate |]. injection Hlen as Hlen.
    rewrite !map_cons, !map2_cons, map_cons, (IH ys Hlen). reflexivity. }
  assert (Hl2 : length (map2 (fun a b => (a - b) * (a - b)) xs ys) = length xs).
  { clear Hne Hsq. revert ys Hlen. induction xs as [| x xs IH]; intros ys Hlen; [reflexivity |].
    destruct ys as [| y ys]; [discriminate |]. injection Hlen as Hlen.
    cbn [map2 length]. rewrite (IH ys Hlen). reflexivity. }
  assert (Hnn : Forall (fun t => 0 <= t) (map2 (fun a b => (a - b) * (a - b)) xs ys)).
  { clear Hne Hsq Hl2. revert ys Hlen. induction xs as [| x xs IH]; intros ys Hlen; [constructor |].
    destruct ys as [| y ys]; [constructor |]. injection Hlen as Hlen.
    cbn [map2]. constructor; [apply (Rle_0_sqr (x - y)) | apply IH; exact Hlen]. }
  rewrite Hsq. unfold series_mean.
  set (sq := map2 (fun a b => (a - b) * (a - b)) xs ys) in *.
  assert (Hfilter : filter (fun x => negb (is_nan x)) (map Fin sq) = map Fin sq).
  { clear. induction sq as [| t sq IH]; [reflexivity |].
    cbn [map filter is_nan negb]. rewrite IH. reflexivity. }
  rewrite Hfilter, mean_fin.
  2:{ intros E. rewrite E in Hl2. destruct xs; [contradiction | discriminate]. }
  rewrite Hl2. cbn [fsqrt].
  assert (Hpos : 0 < INR (length xs)).
  { apply lt_0_INR. destruct xs; [contradiction | cbn [length]; lia]. }
  rewrite Rltb_false; [reflexivity |].
  pose proof (Rsum_nonneg sq Hnn) as Hge.
  apply Rmult_le_pos; [exact Hge |]. left. apply Rinv_0_lt_compat. exact Hpos.
Qed.

Lemma Rdot_same (a : list R) : Rdot a a = Rsum (map (fun t => t * t) a).
Proof. unfold Rdot. rewrite map2_same. reflexivity. Qed.

Lemma Rdot_zero_r (a b : list R) : Forall (fun t => t = 0) b -> Rdot a b = 0.
Proof.
  intros Hb. unfold Rdot. apply Rsum_zero.
  revert a. induction Hb as [| t b -> _ IH]; intros a.
  - destruct a; constructor.
  - destruct a as [| x a]; [constructor |]. cbn [map2].
    constructor; [lra | apply IH].
Qed.

Lemma Rsum_constant (xs : list R) (c : R) :
  Forall (fun x => x = c) xs -> Rsum xs = INR (length xs) * c.
Proof.
  induction 1 as [| x xs -> _ IH].
  - unfold Rsum. cbn [fold_left length INR]. lra.
  - rewrite Rsum_cons, IH. cbn [length]. rewrite S_INR. lra.
Qed.

Lemma clip1_one : clip1 (Fin 1) = Fin 1.
Proof. unfold clip1. cbn [fltb]. rdecide. reflexivity. Qed.

(** The scores of a table whose valid rows agree with the reference
    and hold two different values. *)
Lemma perfect_match_scores (result : DataFrame) (window_size : R)
    (xs : list R) (a b : R) :
  valid_rows result = Ok (map Fin xs, map Fin xs) ->
  In a xs -> In b xs -> a <> b ->
  calc_skill window_size true result = (Ok (Fin 1, Fin 0), dropna result).
Proof.
  intros Hv Ha Hb Hab.
  assert (Hn : (2 <= length xs)%nat).
  { destruct xs as [| x [| y xs]]; cbn [length]; try lia.
    - destruct Ha.
    - destruct Ha as [<- | []], Hb as [<- | []]. contradiction. }
  rewrite (calc_skill_scores _ _ _ _ Hv).
  rewrite rmse_fin by (try reflexivity; intros E; rewrite E in Hn; cbn [length] in Hn; lia).
  pose proof (corrcoef10_fin xs xs Hn eq_refl) as Hcorr. cbn zeta in Hcorr.
  rewrite Hcorr. clear Hcorr.
  set (n := INR (length xs)).
  assert (Hn2 : 2 <= n).
  { unfold n. apply le_INR in Hn. cbn [INR] in Hn. lra. }
  set (m := Rsum xs / n).
  set (xc := map (fun t => t - m) xs).
  assert (Hnn : Forall (fun t => 0 <= t) (map (fun t => t * t) xc)).
  { apply Forall_forall. intros t Ht. apply in_map_iff in Ht.
    destruct Ht as [u [<- _]]. apply (Rle_0_sqr u). }
  assert (Hpos : 0 < Rdot xc xc).
  { rewrite Rdot_same.
    assert (Hterm : forall e, In e xs -> e <> m -> 0 < Rsum (map (fun t => t * t) xc)).
    { intros e He Hne.
      assert (Hin : In ((e - m) * (e - m)) (map (fun t => t * t) xc)).
      { apply in_map_iff. exists (e - m). split; [reflexivity |].
        unfold xc. apply in_map_iff. exists e. split; [reflexivity | exact He]. }
      pose proof (Rsum_ge_term _ _ Hnn Hin) as Hge.
      assert (0 < (e - m) * (e - m)); [| lra].
      assert (Hd : e - m <> 0) by lra.
      pose proof (Rsqr_pos_lt (e - m) Hd) as Hsq. exact Hsq. }
    destruct (Req_dec_T a m) as [Eam | Nam].
    - apply (Hterm b Hb). intros Ebm. apply Hab. rewrite Eam, Ebm. reflexivity.
    - apply (Hterm a Ha Nam). }
  set (c := Rdot xc xc * (1 / (n - 1))).
  assert (Hc : 0 < c).
  { unfold c. apply Rmult_lt_0_compat; [exact Hpos |].
    apply Rdiv_lt_0_compat; lra. }
  assert (Hs : 0 < sqrt c) by (apply sqrt_lt_R0; exact Hc).
  cbn [fsqrt]. rewrite Rltb_false by lra.
  cbn [fdiv]. rewrite Reqb_false by lra. cbn [fdiv]. rewrite Reqb_false by lra.
  assert (Hone : c / sqrt c / sqrt c = 1).
  { pose proof (sqrt_sqrt c ltac:(lra)) as Hss. field_simplify; [| lra].
    rewrite <- Hss at 1. field. lra. }
  rewrite Hone, clip1_one.
  assert (Hzero : Rsum (map2 (fun a0 b0 => (a0 - b0) * (a0 - b0)) xs xs) = 0).
  { rewrite map2_same. apply Rsum_zero. apply Forall_forall.
    intros t Ht. apply in_map_iff in Ht. destruct Ht as [u [<- _]]. lra. }
  rewrite Hzero. fold n.
  replace (0 / n) with 0 by (field; lra). rewrite sqrt_0. reflexivity.
Qed.

(** When the SMP means of the valid rows equal the reference values and
    are not all the same, [calc_skill] returns the correlation 1 and the
    RMSE 0. *)
Theorem calc_skill_perfect_match (result : DataFrame) (window_size : R)
    (xs : list R) (a b : R) :
  valid_rows result = Ok (map Fin xs, map Fin xs) ->
  In a xs -> In b xs -> a <> b ->
  calc_skill window_size true result = (Ok (Fin 1, Fin 0), dropna result).
Proof.
  apply perfect_match_scores.
Qed.

(** In exact arithmetic, when the SMP means of the valid rows are all
    the same, the correlation that [calc_skill] returns is NaN, whatever
    the reference values: the deviations from the mean are zero.  (In
    binary64 the mean of equal values can differ from them by a rounding
    error, as it does for three values 0.1; the deviations are then not
    zero and the correlation is a number.) *)
Theorem calc_skill_constant_profile (result : DataFrame) (window_size : R)
    (xs ys : list R) (c : R) :
  valid_rows result = Ok (map Fin xs, map Fin ys) ->
  length ys = length xs ->
  Forall (fun x => x = c) xs ->
  exists rmse,
    calc_skill window_size true result = (Ok (NaN, rmse), dropna result).
Proof.
  intros Hv Hlen Hconst.
  rewrite (calc_skill_scores _ _ _ _ Hv). eexists. do 2 f_equal.
  f_equal.
  destruct (Nat.lt_ge_cases (length xs) 2) as [Hshort | Hn].
  - apply corr_short. rewrite length_map. exact Hshort.
  - pose proof (corrcoef10_fin xs ys Hn Hlen) as Hcorr. cbn zeta in Hcorr.
    rewrite Hcorr. clear Hcorr.
    set (n := INR (length xs)).
    assert (Hn2 : 2 <= n).
    { unfold n. apply le_INR in Hn. cbn [INR] in Hn. lra. }
    set (xc := map (fun a => a - Rsum xs / n) xs).
    assert (Hxc : Forall (fun t => t = 0) xc).
    { unfold xc. apply Forall_forall. intros t Ht. apply in_map_iff in Ht.
      destruct Ht as [u [<- Hu]]. rewrite (Rsum_constant xs c Hconst). fold n.
      rewrite Forall_forall in Hconst. rewrite (Hconst u Hu). field. lra. }
    rewrite (Rdot_zero_r xc xc Hxc), (Rdot_zero_r _ xc Hxc).
    replace (0 * (1 / (n - 1))) with 0 by lra.
    cbn [fsqrt]. rewrite (Rltb_false 0 0) by lra. rewrite sqrt_0.
    destruct (Rltb _ 0); [reflexivity |].
    cbn [fdiv]. destruct (Reqb (sqrt _) 0).
    + unfold signed_inf. rdecide. reflexivity.
    + cbn [fdiv]. rewrite Reqb_true by reflexivity.
      unfold signed_inf.
      replace (0 / sqrt _) with 0 by (unfold Rdiv; lra).
      rdecide. reflexivity.
Qed.

Lemma calc_skill_perfect_match_witness :
  valid_rows matching_table = Ok (map Fin [300; 320], map Fin [300; 320])
  /\ calc_skill 15 true matching_table = (Ok (Fin 1, Fin 0), dropna matching_table).
Proof.
  assert (Hv : valid_rows matching_table
               = Ok (map Fin [300; 320], map Fin [300; 320])) by reflexivity.
  split; [exact Hv |].
  apply (calc_skill_perfect_match matching_table 15 [300; 320] 300 320 Hv).
  - left. reflexivity.
  - right. left. reflexivity.
  - lra.
Defined.

Lemma calc_skill_constant_profile_witness :
  valid_rows flat_table = Ok (map Fin [300; 300], map Fin [280; 320])
  /\ exists rmse,
       calc_skill 15 true flat_table = (Ok (NaN, rmse), dropna flat_table).
Proof.
  assert (Hv : valid_rows flat_table
               = Ok (map Fin [300; 300], map Fin [280; 320])) by reflexivity.
  split; [exact Hv |].
  apply (calc_skill_constant_profile flat_table 15 [300; 300] [280; 320] 300 Hv).
  - reflexivity.
  - repeat constructor.
Defined.

(** *** A pit of new snow and ice *)

Lemma map2_andb_false (a : list bool) (f : cell -> bool) (gt : list cell) :
  Forall (fun c => f c = true) gt ->
  Forall (fun b => b = false) (map2 andb a (map (fun c => negb (f c)) gt)).
Proof.
  intros Hgt. revert a. induction Hgt as [| c gt Hc _ IH]; intros a.
  - destruct a; constructor.
  - destruct a as [| b a]; [constructor |]. cbn [map map2].
    constructor; [rewrite Hc; apply andb_false_r | apply IH].
Qed.

(** When every row of the table is new snow or ice, no row is left to
    score: [calc_skill] returns NaN for both scores and raises
    nothing. *)
Theorem calc_skill_only_new_snow_and_ice (result : DataFrame) (window_size : R)
    (grain_type mean_samp ref_val : column) :
  lookup result "grain_type" = Some grain_type ->
  lookup result "mean_samp" = Some mean_samp ->
  lookup result "ref_val" = Some ref_val ->
  Forall (fun c => isin ["N"%string; "I"%string] c = true) grain_type ->
  calc_skill window_size true result = (Ok (NaN, NaN), dropna result).
Proof.
  intros Hgt Hms Hrv Hall.
  assert (Hv : valid_rows result = Ok ([], [])).
  { unfold valid_rows, getitem. rewrite Hgt, Hms, Hrv. cbn [bind].
    rewrite !select_all_false by (apply map2_andb_false; exact Hall).
    reflexivity. }
  rewrite (calc_skill_few result window_size [] [] Hv); [reflexivity | |].
  - cbn [length]. lia.
  - reflexivity.
Qed.

Lemma calc_skill_only_new_snow_and_ice_witness :
  Forall (fun c => isin ["N"%string; "I"%string] c = true) [Str "N"; Str "I"]
  /\ calc_skill 15 true
       [("mean_samp"%string, [Num (Fin 120); Num (Fin 900)]);
        ("ref_val"%string, [Num (Fin 100); Num (Fin 917)]);
        ("grain_type"%string, [Str "N"; Str "I"])]
     = (Ok (NaN, NaN),
        dropna [("mean_samp"%string, [Num (Fin 120); Num (Fin 900)]);
                ("ref_val"%string, [Num (Fin 100); Num (Fin 917)]);
                ("grain_type"%string, [Str "N"; Str "I"])]).
Proof.
  assert (Hall : Forall (fun c => isin ["N"%string; "I"%string] c = true)
                        [Str "N"; Str "I"]) by (repeat constructor).
  split; [exact Hall |].
  exact (calc_skill_only_new_snow_and_ice
           [("mean_samp"%string, [Num (Fin 120); Num (Fin 900)]);
            ("ref_val"%string, [Num (Fin 100); Num (Fin 917)]);
            ("grain_type"%string, [Str "N"; Str "I"])]
           15 [Str "N"; Str "I"] [Num (Fin 120); Num (Fin 900)]
           [Num (Fin 100); Num (Fin 917)] eq_refl eq_refl eq_refl Hall).
Defined.

(** ** The shape of the extracted table *)

Lemma select_length_le {A : Type} (mask : list bool) (a : list A) :
  (length (np.select mask a) <= length a)%nat.
Proof.
  revert a. induction mask as [| b mask IH]; intros a; [cbn; lia |].
  destruct a as [| x a]; [cbn; lia |]. cbn [np.select].
  destruct b; cbn [length]; specialize (IH a); lia.
Qed.

Lemma count_nonzero_le (l : list float) : (np.count_nonzero l <= length l)%nat.
Proof. unfold np.count_nonzero. apply filter_length_le. Qed.

(** On aligned source arrays [extract_samples] returns the four columns
    with one row per target depth; every count is a whole number of at
    most the number of source samples, and no standard deviation is
    negative. *)
Theorem extract_samples_shape (a_height a_value b_height : list float)
    (window_size : R) :
  length a_height = length a_value ->
  exists count_samp mean_samp median_samp stdev_samp,
    extract_samples a_height a_value b_height window_size
    = Ok [("count_samp"%string, count_samp); ("mean_samp"%string, mean_samp);
          ("median_samp"%string, median_samp); ("stdev_samp"%string, stdev_samp)]
    /\ length count_samp = length b_height
    /\ length mean_samp = length b_height
    /\ length median_samp = length b_height
    /\ length stdev_samp = length b_height
    /\ Forall (fun c => exists n : nat,
                   c = Num (Fin (INR n)) /\ (n <= length a_value)%nat) count_samp
    /\ Forall (fun c => exists s, c = Num s /\ not_negative s) stdev_samp.
Proof.
  intros Hal. rewrite (extract_samples_rows _ _ _ _ Hal).
  do 4 eexists. split; [reflexivity |].
  rewrite !length_map. repeat split.
  - apply Forall_forall. intros c Hc. apply in_map_iff in Hc.
    destruct Hc as [d [<- _]]. eexists. split; [reflexivity |].
    eapply Nat.le_trans; [apply count_nonzero_le |].
    unfold in_window. apply select_length_le.
  - apply Forall_forall. intros c Hc. apply in_map_iff in Hc.
    destruct Hc as [d [<- _]]. eexists. split; [reflexivity |].
    unfold np.std. apply fsqrt_not_negative.
Qed.

Lemma extract_samples_shape_witness :
  exists count_samp mean_samp median_samp stdev_samp,
    extract_samples [Fin 10; Fin 20] [Fin 0; Fin 5] [Fin 15; Fin 50] 10
    = Ok [("count_samp"%string, count_samp); ("mean_samp"%string, mean_samp);
          ("median_samp"%string, median_samp); ("stdev_samp"%string, stdev_samp)]
    /\ length count_samp = 2%nat
    /\ length mean_samp = 2%nat
    /\ length median_samp = 2%nat
    /\ length stdev_samp = 2%nat
    /\ Forall (fun c => exists n : nat,
                   c = Num (Fin (INR n)) /\ (n <= 2)%nat) count_samp
    /\ Forall (fun c => exists s, c = Num s /\ not_negative s) stdev_samp.
Proof.
  exact (extract_samples_shape [Fin 10; Fin 20] [Fin 0; Fin 5] [Fin 15; Fin 50] 10
           eq_refl).
Defined.

(** ** The trial that is selected *)

Ltac rcases :=
  repeat match goal with
  | |- context [Rltb ?x ?y] =>
      unfold Rltb at 1; destruct (Rlt_dec x y)
  | H : context [Rltb ?x ?y] |- _ =>
      unfold Rltb in H at 1; destruct (Rlt_dec x y)
  end.

Lemma rmse_before_irrefl (a : float) : rmse_before a a = false.
Proof.
  destruct a as [x | | |]; cbn [rmse_before is_nan fltb]; try reflexivity.
  apply Rltb_false. lra.
Qed.

Lemma rmse_before_asym (a b : float) :
  rmse_before a b = true -> rmse_before b a = false.
Proof.
  destruct a as [x | | |], b as [y | | |]; cbn [rmse_before is_nan fltb];
    intros H; try discriminate; try reflexivity.
  apply Rltb_iff in H. apply Rltb_false. lra.
Qed.

Lemma rmse_before_neg_trans (a b c : float) :
  rmse_before a c = true -> rmse_before a b = true \/ rmse_before b c = true.
Proof.
  destruct a as [x | | |], b as [y | | |], c as [z | | |];
    cbn [rmse_before is_nan fltb]; intros H; try discriminate;
    try (left; reflexivity); try (right; reflexivity).
  apply Rltb_iff in H.
  destruct (Rlt_dec x y) as [Hxy | Hxy].
  - left. apply Rltb_true. exact Hxy.
  - right. apply Rltb_true. lra.
Qed.

Lemma sorts_before_irrefl (a : float * float) : sorts_before a a = false.
Proof.
  destruct a as [[r | | |] s]; unfold sorts_before; cbn [fst snd is_nan fltb];
    rewrite ?(Rltb_false r r) by lra; try reflexivity; apply rmse_before_irrefl.
Qed.

Lemma sorts_before_asym (a b : float * float) :
  sorts_before a b = true -> sorts_before b a = false.
Proof.
  destruct a as [[ra | | |] sa], b as [[rb | | |] sb];
    unfold sorts_before; cbn [fst snd is_nan fltb]; rcases;
    intros H; try discriminate; try reflexivity; try (exfalso; lra);
    try (apply rmse_before_asym; exact H).
Qed.

Lemma sorts_before_neg_trans (a b c : float * float) :
  sorts_before a c = true -> sorts_before a b = true \/ sorts_before b c = true.
Proof.
  destruct a as [[ra | | |] sa], b as [[rb | | |] sb], c as [[rc | | |] sc];
    unfold sorts_before; cbn [fst snd is_nan fltb]; rcases;
    intros H; try discriminate;
    try (left; reflexivity); try (right; reflexivity);
    try (exfalso; lra);
    try (apply rmse_before_neg_trans; exact H).
Qed.

Lemma sorts_before_trans (a b c : float * float) :
  sorts_before a b = true -> sorts_before b c = true -> sorts_before a c = true.
Proof.
  intros Hab Hbc.
  destruct (sorts_before_neg_trans a c b Hab) as [H | H]; [exact H |].
  apply sorts_before_asym in Hbc. congruence.
Qed.

Lemma best_from_spec (d : float * float) (t p : list (float * float))
    (best : float * float) (bi : nat) :
  (bi < length p)%nat ->
  nth bi p d = best ->
  (forall j, (j < length p)%nat -> sorts_before (nth j p d) best = false) ->
  (forall j, (j < bi)%nat -> sorts_before best (nth j p d) = true) ->
  let k := best_from best bi (length p) t in
  (k < length (p ++ t))%nat
  /\ (forall j, (j < length (p ++ t))%nat ->
        sorts_before (nth j (p ++ t) d) (nth k (p ++ t) d) = false)
  /\ (forall j, (j < k)%nat ->
        sorts_before (nth k (p ++ t) d) (nth j (p ++ t) d) = true).
Proof.
  revert p best bi. induction t as [| x t IH]; intros p best bi Hbi Hb Hmin Hfirst.
  - cbn [best_from]. rewrite app_nil_r. subst best. repeat split; auto.
  - cbn [best_from].
    assert (Hlen : length (p ++ [x]) = S (length p))
      by (rewrite length_app; simpl; lia).
    replace (p ++ x :: t) with ((p ++ [x]) ++ t)
      by (rewrite <- app_assoc; reflexivity).
    destruct (sorts_before x best) eqn:Hx.
    + rewrite <- Hlen. apply IH.
      * lia.
      * rewrite app_nth2 by lia. rewrite Nat.sub_diag. reflexivity.
      * intros j Hj. rewrite Hlen in Hj.
        destruct (Nat.eq_dec j (length p)) as [-> | Hne].
        -- rewrite app_nth2 by lia. rewrite Nat.sub_diag. cbn [nth].
           apply sorts_before_irrefl.
        -- rewrite app_nth1 by lia. specialize (Hmin j ltac:(lia)).
           destruct (sorts_before (nth j p d) x) eqn:Hjx; [| reflexivity].
           rewrite (sorts_before_trans _ _ _ Hjx Hx) in Hmin. discriminate.
      * intros j Hj. rewrite app_nth1 by lia. specialize (Hmin j ltac:(lia)).
        destruct (sorts_before_neg_trans x (nth j p d) best Hx) as [H | H];
          [exact H | congruence].
    + rewrite <- Hlen. apply IH.
      * lia.
      * rewrite app_nth1 by lia. exact Hb.
      * intros j Hj. rewrite Hlen in Hj.
        destruct (Nat.eq_dec j (length p)) as [-> | Hne].
        -- rewrite app_nth2 by lia. rewrite Nat.sub_diag. exact Hx.
        -- rewrite app_nth1 by lia. apply Hmin. lia.
      * intros j Hj. rewrite app_nth1 by lia. apply Hfirst. exact Hj.
Qed.

(** The trial that [eval_scaling] selects is the first of the best ones
    in the order greater [r], then smaller [rmse], NaN last: no trial
    sorts before it, it sorts before every trial of a smaller index, and
    its [r] is NaN only when the [r] of every trial is NaN. *)
Theorem min_scaling_idx_first_best (skill : list (float * float)) :
  skill <> [] ->
  exists i,
    min_scaling_idx skill = [i]
    /\ (i < length skill)%nat
    /\ (forall j, (j < length skill)%nat ->
          sorts_before (nth j skill (NaN, NaN)) (nth i skill (NaN, NaN)) = false)
    /\ (forall j, (j < i)%nat ->
          sorts_before (nth i skill (NaN, NaN)) (nth j skill (NaN, NaN)) = true)
    /\ (is_nan (fst (nth i skill (NaN, NaN))) = true ->
        forall j, is_nan (fst (nth j skill (NaN, NaN))) = true).
Proof.
  destruct skill as [| x t]; [congruence |]. intros _.
  exists (best_from x 0 1 t). split; [reflexivity |].
  assert (Hspec : let k := best_from x 0 (length [x]) t in
                  (k < length ([x] ++ t))%nat
                  /\ (forall j, (j < length ([x] ++ t))%nat ->
                        sorts_before (nth j ([x] ++ t) (NaN, NaN))
                                     (nth k ([x] ++ t) (NaN, NaN)) = false)
                  /\ (forall j, (j < k)%nat ->
                        sorts_before (nth k ([x] ++ t) (NaN, NaN))
                                     (nth j ([x] ++ t) (NaN, NaN)) = true)).
  { apply (best_from_spec (NaN, NaN) t [x] x 0%nat).
    - simpl; lia.
    - reflexivity.
    - intros j Hj. simpl in Hj. assert (j = 0%nat) by lia. subst.
      apply sorts_before_irrefl.
    - intros j Hj. lia. }
  cbn zeta in Hspec. change (length [x]) with 1%nat in Hspec.
  change ([x] ++ t)%list with (x :: t) in Hspec.
  destruct Hspec as [Hk [Hmin Hfirst]].
  - repeat split; try assumption.
    intros Hnan j.
    destruct (Nat.lt_ge_cases j (length (x :: t))) as [Hj | Hj].
    + specialize (Hmin j Hj). unfold sorts_before in Hmin.
      rewrite Hnan in Hmin.
      destruct (is_nan (fst (nth j (x :: t) (NaN, NaN)))); [reflexivity | discriminate].
    + rewrite nth_overflow by exact Hj. reflexivity.
Qed.

Lemma min_scaling_idx_first_best_witness :
  exists i,
    min_scaling_idx [(NaN, Fin 2); (Fin 0.5, Fin 3); (Fin 0.5, Fin 3)] = [i]
    /\ (i < 3)%nat
    /\ (forall j, (j < 3)%nat ->
          sorts_before (nth j [(NaN, Fin 2); (Fin 0.5, Fin 3); (Fin 0.5, Fin 3)]
                            (NaN, NaN))
                       (nth i [(NaN, Fin 2); (Fin 0.5, Fin 3); (Fin 0.5, Fin 3)]
                            (NaN, NaN)) = false)
    /\ (forall j, (j < i)%nat ->
          sorts_before (nth i [(NaN, Fin 2); (Fin 0.5, Fin 3); (Fin 0.5, Fin 3)]
                            (NaN, NaN))
                       (nth j [(NaN, Fin 2); (Fin 0.5, Fin 3); (Fin 0.5, Fin 3)]
                            (NaN, NaN)) = true)
    /\ (is_nan (fst (nth i [(NaN, Fin 2); (Fin 0.5, Fin 3); (Fin 0.5, Fin 3)]
                         (NaN, NaN))) = true ->
        forall j, is_nan (fst (nth j [(NaN, Fin 2); (Fin 0.5, Fin 3); (Fin 0.5, Fin 3)]
                                   (NaN, NaN))) = true).
Proof.
  apply (min_scaling_idx_first_best
           [(NaN, Fin 2); (Fin 0.5, Fin 3); (Fin 0.5, Fin 3)]).
  discriminate.
Defined.

(** ** A run that scores two candidates *)

(** *** The two warps *)

Section LayeredWarp.
Variable zoom : list float -> R -> list float.

Lemma one_layer_unchanged (v0 v1 v2 v3 : float) :
  scale_profile zoom [0] [Fin 0; Fin 1; Fin 2; Fin 3] [v0; v1; v2; v3] 3 None
  = Ok ([Fin 0; Fin 1; Fin 2], zoom [v0; v1; v2] (3 / 3)).
Proof.
  unfold scale_profile.
  cbn [seq map nth_or nth_error bind INR fsub fadd fopp length].
  unfold np.sum. cbn [fold_left fadd]. unfold np.arange0.
  replace (1 + - 0) with 1 by lra.
  rdecide.
  rewrite (Zceil_eq 3) by lra. change (Z.to_nat 3) with 3%nat.
  cbn [seq map bind INR scale_layers].
  eval_layer 3%Z.
  fin_eq.
Qed.

Lemma one_layer_stretched (v0 v1 v2 v3 : float) :
  scale_profile zoom [0.15] [Fin 0; Fin 1; Fin 2; Fin 3] [v0; v1; v2; v3] 3 None
  = Ok ([Fin 0; Fin 1; Fin 2; Fin 3], zoom [v0; v1; v2] (4 / 3)).
Proof.
  unfold scale_profile.
  cbn [seq map nth_or nth_error bind INR fsub fadd fopp length].
  unfold np.sum. cbn [fold_left fadd]. unfold np.arange0.
  replace (1 + - 0) with 1 by lra.
  rdecide.
  rewrite (Zceil_eq 4) by lra. change (Z.to_nat 4) with 4%nat.
  cbn [seq map bind INR scale_layers].
  eval_layer 3%Z.
  fin_eq.
Qed.
End LayeredWarp.

Lemma zoom_nearest_eval (a : list float) (z : R) (m : nat) :
  IZR (Z.of_nat m) - 1 / 2 < INR (length a) * z < IZR (Z.of_nat m) + 1 / 2 ->
  zoom_nearest a z = map (fun i => nth (i * length a / m) a NaN) (seq 0 m).
Proof.
  intros H. unfold zoom_nearest. rewrite (rint_near _ (Z.of_nat m)) by exact H.
  rewrite Nat2Z.id. reflexivity.
Qed.

Lemma zoom_nearest_same (v0 v1 v2 : float) :
  zoom_nearest [v0; v1; v2] (3 / 3) = [v0; v1; v2].
Proof.
  rewrite (zoom_nearest_eval _ _ 3) by (cbn [length INR Z.of_nat Pos.of_succ_nat Pos.succ]; lra).
  reflexivity.
Qed.

Lemma zoom_nearest_longer (v0 v1 v2 : float) :
  zoom_nearest [v0; v1; v2] (4 / 3) = [v0; v0; v1; v2].
Proof.
  rewrite (zoom_nearest_eval _ _ 4) by (cbn [length INR Z.of_nat Pos.of_succ_nat Pos.succ]; lra).
  reflexivity.
Qed.

(** *** The two comparison tables *)

(** The statistics of a window that holds one sample. *)
Lemma one_sample_statistics (a : R) :
  a <> 0 ->
  np.count_nonzero [Fin a] = 1%nat
  /\ np.mean [Fin a] = Fin a
  /\ np.median [Fin a] = Fin a
  /\ np.std [Fin a] = Fin 0.
Proof.
  intros Ha.
  assert (Hmean : np.mean [Fin a] = Fin a).
  { unfold np.mean, np.sum. cbn [fold_left fadd length INR fdiv].
    rewrite Reqb_false by lra. f_equal. field. }
  split; [| split; [exact Hmean | split]].
  - unfold np.count_nonzero. cbn [filter feqb].
    rewrite Reqb_false by exact Ha. reflexivity.
  - reflexivity.
  - unfold np.std. rewrite Hmean. cbn [map fsub fadd fopp fabs fmul].
    unfold np.mean, np.sum. cbn [fold_left fadd length INR fdiv].
    rewrite Reqb_false by lra. cbn [fsqrt].
    replace (a + - a) with 0 by lra. rewrite Rabs_R0.
    replace ((0 + 0 * 0) / 1) with 0 by lra.
    rewrite Rltb_false by lra. rewrite sqrt_0. reflexivity.
Qed.

(** Evaluate the window of a target depth. *)
Ltac eval_window :=
  unfold in_window; cbn [map fsub fadd fopp fabs fleb];
  rabs; rdecide; cbn [np.select].

Lemma extract_unchanged :
  extract_samples [Fin 0; Fin 1; Fin 2] [Fin 300; Fin 310; Fin 320]
    [Fin 1; Fin 3] 0.5
  = Ok [("count_samp"%string, [Num (Fin 1); Num (Fin 0)]);
        ("mean_samp"%string, [Num (Fin 310); Num NaN]);
        ("median_samp"%string, [Num (Fin 310); Num NaN]);
        ("stdev_samp"%string, [Num (Fin 0); Num NaN])].
Proof.
  rewrite extract_samples_rows by reflexivity. cbn [map].
  assert (H1 : in_window [Fin 0; Fin 1; Fin 2] [Fin 300; Fin 310; Fin 320] 0.5 (Fin 1)
               = [Fin 310]) by (eval_window; reflexivity).
  assert (H3 : in_window [Fin 0; Fin 1; Fin 2] [Fin 300; Fin 310; Fin 320] 0.5 (Fin 3)
               = []) by (eval_window; reflexivity).
  rewrite H1, H3.
  destruct (one_sample_statistics 310 ltac:(lra)) as [Hc [Hm [Hd Hs]]].
  rewrite Hc, Hm, Hd, Hs.
  unfold np.std. rewrite mean_nil. cbn [map fsqrt]. rewrite mean_nil.
  reflexivity.
Qed.

Lemma extract_stretched :
  extract_samples [Fin 0; Fin 1; Fin 2; Fin 3] [Fin 300; Fin 300; Fin 310; Fin 320]
    [Fin 1; Fin 3] 0.5
  = Ok [("count_samp"%string, [Num (Fin 1); Num (Fin 1)]);
        ("mean_samp"%string, [Num (Fin 300); Num (Fin 320)]);
        ("median_samp"%string, [Num (Fin 300); Num (Fin 320)]);
        ("stdev_samp"%string, [Num (Fin 0); Num (Fin 0)])].
Proof.
  rewrite extract_samples_rows by reflexivity. cbn [map].
  assert (H1 : in_window [Fin 0; Fin 1; Fin 2; Fin 3]
                 [Fin 300; Fin 300; Fin 310; Fin 320] 0.5 (Fin 1)
               = [Fin 300]) by (eval_window; reflexivity).
  assert (H3 : in_window [Fin 0; Fin 1; Fin 2; Fin 3]
                 [Fin 300; Fin 300; Fin 310; Fin 320] 0.5 (Fin 3)
               = [Fin 320]) by (eval_window; reflexivity).
  rewrite H1, H3.
  destruct (one_sample_statistics 300 ltac:(lra)) as [Hc [Hm [Hd Hs]]].
  destruct (one_sample_statistics 320 ltac:(lra)) as [Hc' [Hm' [Hd' Hs']]].
  rewrite Hc, Hm, Hd, Hs, Hc', Hm', Hd', Hs'.
  reflexivity.
Qed.

(** *** The two scores *)

Lemma score_unchanged :
  calc_skill 0.5 true table_unchanged
  = (Ok (NaN, Fin 10), dropna table_unchanged).
Proof.
  rewrite (calc_skill_few table_unchanged 0.5 [Fin 310] [Fin 300]);
    [| reflexivity | cbn [length]; lia | reflexivity].
  do 3 f_equal. cbn [fsub fadd fopp fabs]. f_equal. rabs. lra.
Qed.

Lemma score_stretched :
  calc_skill 0.5 true table_stretched
  = (Ok (Fin 1, Fin 0), dropna table_stretched).
Proof.
  apply (perfect_match_scores table_stretched 0.5 [300; 320] 300 320).
  - reflexivity.
  - left. reflexivity.
  - right. left. reflexivity.
  - lra.
Qed.

Lemma dropna_tables :
  nrows (dropna table_unchanged) = 1%nat /\ nrows (dropna table_stretched) = 2%nat
  /\ dropna table_stretched = table_stretched.
Proof. repeat split; reflexivity. Qed.

Lemma mapMS_two {S A B : Type} (f : A -> M S B) (x x' : A) (s s' s'' : S)
    (y y' : B) :
  f x s = (Ok y, s') -> f x' s' = (Ok y', s'') ->
  mapMS f [x; x'] s = (Ok [y; y'], s'').
Proof.
  intros H H'. cbn [mapMS]. unfold bindM. rewrite H, H'. reflexivity.
Qed.

Lemma series_max_four :
  series_max [Fin 0; Fin 1; Fin 2; Fin 3] = Fin 3.
Proof.
  unfold series_max. cbn [fold_left].
  repeat (cbn [is_nan fltb]; rdecide). reflexivity.
Qed.

Lemma series_max_same : series_max [Fin 3; Fin 3] = Fin 3.
Proof. unfold series_max. cbn [fold_left is_nan fltb]. rdecide. reflexivity. Qed.

(** A run of [eval_scaling] with two candidates of one layer on the
    layered profile, in terms of what the steps of the two trials
    give. *)
Lemma two_candidates_run (k1 k2 : nat) (g : list nat)
    (p1 p2 : list float * list float) (e1 e2 : DataFrame)
    (s1 s2 : float * float) (c1 c2 : DataFrame) :
  Rabs (replay_draw k1) <= 0.15 ->
  Rabs (replay_draw k2) <= 0.15 ->
  scale_profile zoom_nearest [replay_draw k1] [Fin 0; Fin 1; Fin 2; Fin 3]
    [Fin 300; Fin 310; Fin 320; Fin 330] 3 None = Ok p1 ->
  scale_profile zoom_nearest [replay_draw k2] [Fin 0; Fin 1; Fin 2; Fin 3]
    [Fin 300; Fin 310; Fin 320; Fin 330] 3 None = Ok p2 ->
  extract_samples (fst p1) (snd p1) [Fin 1; Fin 3] 0.5 = Ok e1 ->
  extract_samples (fst p2) (snd p2) [Fin 1; Fin 3] 0.5 = Ok e2 ->
  calc_skill 0.5 true (e1 ++ rename pit_two_layers "density" "ref_val")
  = (Ok s1, c1) ->
  calc_skill 0.5 true (e2 ++ rename pit_two_layers "density" "ref_val")
  = (Ok s2, c2) ->
  eval_scaling (list nat) replay_choice replay_uniform zoom_nearest
    1 2 3 0.15 0.75 0.5
    {| rng := k1 :: k2 :: g; smp_dat := layered_profile;
       ref_dat := pit_two_layers |}
  = (Ok (if sorts_before s2 s1
         then ({| index := 1; r := fst s2; rmse := snd s2;
                  ref_type := "density";
                  scale_coeff := [replay_draw k2];
                  scale_per := Rsum [replay_draw k2];
                  n_obs := 2; n_comp := nrows c2; n_tests := 2 |}, c2)
         else ({| index := 0; r := fst s1; rmse := snd s1;
                  ref_type := "density";
                  scale_coeff := [replay_draw k1];
                  scale_per := Rsum [replay_draw k1];
                  n_obs := 2; n_comp := nrows c1; n_tests := 2 |}, c1)),
     {| rng := g;
        smp_dat := rename layered_profile "density" "smp_val";
        ref_dat := rename pit_two_layers "density" "ref_val" |}).
Proof.
  intros Hk1 Hk2 Hp1 Hp2 He1 He2 Hs1 Hs2.
  rewrite eval_scaling_unfold. cbn [ref_dat].
  change (reference_type pit_two_layers) with (Ok "density"%string).
  unfold eval_scaling_body, rename_ref, rename_smp, modify.
  erewrite bindM_Ok by reflexivity. cbn [rng smp_dat ref_dat].
  erewrite bindM_Ok by reflexivity. cbn [rng smp_dat ref_dat].
  erewrite bindM_Ok by reflexivity. cbn [ref_dat].
  erewrite bindM_Ok by reflexivity.
  erewrite bindM_Ok by reflexivity.
  erewrite bindM_Ok.
  2:{ unfold lift. cbn [smp_dat].
      change (getitem (rename layered_profile "density" "smp_val") "rel_height")
        with (Ok [Num (Fin 0); Num (Fin 1); Num (Fin 2); Num (Fin 3)]).
      cbn [bind values mapM as_float]. rewrite series_max_four.
      reflexivity. }
  erewrite bindM_Ok by reflexivity. cbn [ref_dat].
  erewrite bindM_Ok.
  2:{ unfold lift.
      change (getattr (rename pit_two_layers "density" "ref_val") "height")
        with (Ok [Num (Fin 3); Num (Fin 3)]).
      cbn [bind values mapM as_float]. rewrite series_max_same.
      reflexivity. }
  assert (Hn : np.ceil_int (fdiv (amin2 (Fin 3) (Fin 3)) (Fin 3)) = 1%Z).
  { unfold amin2. cbn [is_nan orb fltb]. rdecide. cbn [fdiv]. rdecide.
    cbn [np.ceil_int]. apply Zceil_eq. lra. }
  rewrite Hn. cbn [repeat].
  (* the candidates *)
  erewrite bindM_Ok.
  2:{ eapply mapMS_two; unfold with_rng; cbn [rng smp_dat ref_dat].
      - rewrite short_candidate by exact Hk1. reflexivity.
      - cbn [rng smp_dat ref_dat].
        rewrite short_candidate by exact Hk2. reflexivity. }
  (* the warped profiles *)
  erewrite bindM_Ok.
  2:{ eapply mapMS_two.
      - erewrite bindM_Ok by reflexivity. unfold lift. cbn [smp_dat].
        change (getattr (rename layered_profile "density" "smp_val") "rel_height")
          with (Ok [Num (Fin 0); Num (Fin 1); Num (Fin 2); Num (Fin 3)]).
        change (getattr (rename layered_profile "density" "smp_val") "smp_val")
          with (Ok [Num (Fin 300); Num (Fin 310); Num (Fin 320); Num (Fin 330)]).
        cbn [bind values mapM as_float]. rewrite Hp1. reflexivity.
      - erewrite bindM_Ok by reflexivity. unfold lift. cbn [smp_dat].
        change (getattr (rename layered_profile "density" "smp_val") "rel_height")
          with (Ok [Num (Fin 0); Num (Fin 1); Num (Fin 2); Num (Fin 3)]).
        change (getattr (rename layered_profile "density" "smp_val") "smp_val")
          with (Ok [Num (Fin 300); Num (Fin 310); Num (Fin 320); Num (Fin 330)]).
        cbn [bind values mapM as_float]. rewrite Hp2. reflexivity. }
  (* the comparison tables *)
  erewrite bindM_Ok.
  2:{ eapply mapMS_two.
      - erewrite bindM_Ok by reflexivity. unfold lift. cbn [ref_dat].
        change (getattr (rename pit_two_layers "density" "ref_val") "rel_height")
          with (Ok [Num (Fin 1); Num (Fin 3)]).
        cbn [bind values mapM as_float]. rewrite He1. reflexivity.
      - erewrite bindM_Ok by reflexivity. unfold lift. cbn [ref_dat].
        change (getattr (rename pit_two_layers "density" "ref_val") "rel_height")
          with (Ok [Num (Fin 1); Num (Fin 3)]).
        cbn [bind values mapM as_float]. rewrite He2. reflexivity. }
  erewrite bindM_Ok by (eapply mapMS_two; reflexivity).
  cbn [ref_dat].
  (* the scores *)
  erewrite bindM_Ok.
  2:{ unfold lift. cbn [score_profiles]. rewrite Hs1, Hs2. cbn [bind fst snd].
      reflexivity. }
  cbn [fst snd min_scaling_idx best_from].
  destruct (sorts_before s2 s1); reflexivity.
Qed.

(** The run whose draws are 0 and then 0.15: the second candidate, with
    a perfect match, is selected. *)
Lemma scored_run_stretched (g : list nat) :
  eval_scaling (list nat) replay_choice replay_uniform zoom_nearest
    1 2 3 0.15 0.75 0.5
    {| rng := 5%nat :: 6%nat :: g; smp_dat := layered_profile;
       ref_dat := pit_two_layers |}
  = (Ok ({| index := 1; r := Fin 1; rmse := Fin 0; ref_type := "density";
            scale_coeff := [replay_draw 6]; scale_per := Rsum [replay_draw 6];
            n_obs := 2; n_comp := 2; n_tests := 2 |},
         dropna table_stretched),
     {| rng := g;
        smp_dat := rename layered_profile "density" "smp_val";
        ref_dat := rename pit_two_layers "density" "ref_val" |}).
Proof.
  rewrite (two_candidates_run 5 6 g
             ([Fin 0; Fin 1; Fin 2], [Fin 300; Fin 310; Fin 320])
             ([Fin 0; Fin 1; Fin 2; Fin 3], [Fin 300; Fin 300; Fin 310; Fin 320])
             [("count_samp"%string, [Num (Fin 1); Num (Fin 0)]);
              ("mean_samp"%string, [Num (Fin 310); Num NaN]);
              ("median_samp"%string, [Num (Fin 310); Num NaN]);
              ("stdev_samp"%string, [Num (Fin 0); Num NaN])]
             [("count_samp"%string, [Num (Fin 1); Num (Fin 1)]);
              ("mean_samp"%string, [Num (Fin 300); Num (Fin 320)]);
              ("median_samp"%string, [Num (Fin 300); Num (Fin 320)]);
              ("stdev_samp"%string, [Num (Fin 0); Num (Fin 0)])]
             (NaN, Fin 10) (Fin 1, Fin 0)
             (dropna table_unchanged) (dropna table_stretched)).
  - cbn [sorts_before fst snd is_nan]. reflexivity.
  - rewrite replay_draw_5, Rabs_R0. lra.
  - rewrite replay_draw_6, Rabs_pos_eq by lra. lra.
  - rewrite replay_draw_5, one_layer_unchanged, zoom_nearest_same. reflexivity.
  - rewrite replay_draw_6, one_layer_stretched, zoom_nearest_longer. reflexivity.
  - exact extract_unchanged.
  - exact extract_stretched.
  - exact score_unchanged.
  - exact score_stretched.
Qed.




(** ** The selected vector keeps the budgets *)

Lemma mapMS_Forall {S A B : Type} (P : B -> Prop) (f : A -> M S B) (l : list A)
    (s s' : S) (ys : list B) :
  (forall x s0 y s1, f x s0 = (Ok y, s1) -> P y) ->
  mapMS f l s = (Ok ys, s') -> Forall P ys.
Proof.
  intros Hf. revert s s' ys. induction l as [| x l IH]; intros s s' ys; cbn [mapMS].
  - unfold ret. intros H. injection H as <- _. constructor.
  - intros H. apply bindM_inv_Ok in H. destruct H as [y [s1 [Hy H]]].
    apply bindM_inv_Ok in H. destruct H as [ys' [s2 [Hrest H]]].
    unfold ret in H. injection H as <- _.
    constructor; [exact (Hf _ _ _ _ Hy) | exact (IH _ _ _ Hrest)].
Qed.

Section Budgets.

Variable G : Type.
Variable choice : nat -> G -> list nat * G.
Variable uniform : R -> R -> G -> R * G.
Variable zoom : list float -> R -> list float.

Hypothesis choice_permutation :
  forall n g, Permutation (fst (choice n g)) (seq 0 n).
Hypothesis uniform_range :
  forall lo hi g, lo <= hi -> lo <= fst (uniform lo hi g) <= hi.

Lemma random_scaling_in_budget (fuel : nat) (layer_num : Z) (mc mcl : R)
    (g g' : G) (v : list R) :
  0 <= mcl ->
  random_scaling G choice uniform fuel layer_num mc mcl g = (Ok v, g') ->
  Z.of_nat (length v) = layer_num
  /\ Forall (fun s => Rabs s <= mcl) v
  /\ Rabs (Rsum v) <= mc.
Proof.
  intros Hm. revert g. induction fuel as [| fuel IH]; intros g Hrun; [discriminate |].
  rewrite random_scaling_round in Hrun.
  destruct (layer_num <? 0)%Z eqn:Hneg; [discriminate |]. cbv zeta in Hrun.
  set (c := choice (Z.to_nat layer_num) g) in *.
  set (d := draw_layers G uniform (length (fst c)) mcl (snd c)) in *.
  destruct (Rleb (Rabs (Rsum (fst d))) mc) eqn:Hacc; [| exact (IH _ Hrun)].
  pose proof (choice_permutation (Z.to_nat layer_num) g) as Hperm. fold c in Hperm.
  destruct (draw_layers_spec G uniform uniform_range (length (fst c)) mcl (snd c) Hm)
    as [Hlen Hall].
  fold d in Hlen, Hall.
  assert (Hp : Permutation (np.argsort (fst c)) (seq 0 (length (fst d)))).
  { rewrite Hlen. apply argsort_perm. }
  destruct (take_permutation (fst d) _ Hp) as [v' [Htake Hv']].
  rewrite Htake in Hrun. injection Hrun as <- _.
  apply Rleb_iff in Hacc. repeat split.
  - rewrite (Permutation_length Hv'), Hlen, (Permutation_length Hperm), length_seq.
    apply Z.ltb_ge in Hneg. lia.
  - apply (Permutation_Forall (Permutation_sym Hv')). exact Hall.
  - rewrite (Rsum_permutation _ _ Hv'). exact Hacc.
Qed.

(** In exact arithmetic, the scaling vector that [eval_scaling] reports
    keeps the two budgets it was drawn under: every coefficient is
    within [max_layer_stretch] and their sum within [max_stretch].
    (The sum here is the exact one.  The code tests the binary64 sum of
    the draws in the order drawn, so that the sum of the reported
    vector can exceed [max_stretch] by a rounding error; the bound on
    the coefficients does not depend on rounding.) *)
Theorem eval_scaling_selected_vector_in_budget (fuel num_tests : nat)
    (layer_h max_stretch max_layer_stretch samp_h : R) (w w' : world G)
    (meta : scaling_meta) (tbl : DataFrame) :
  0 <= max_layer_stretch ->
  eval_scaling G choice uniform zoom fuel num_tests
    layer_h max_stretch max_layer_stretch samp_h w
  = (Ok (meta, tbl), w') ->
  Forall (fun s => Rabs s <= max_layer_stretch) (scale_coeff meta)
  /\ Rabs (Rsum (scale_coeff meta)) <= max_stretch.
Proof.
  intros Hm Hrun. rewrite eval_scaling_unfold in Hrun.
  destruct (reference_type (ref_dat G w)) as [t | |]; [| discriminate ..].
  apply eval_scaling_body_draws in Hrun.
  destruct Hrun as [num_sections [random_tests [Hdraws Hsel]]].
  assert (Hall : Forall (fun v => Forall (fun s => Rabs s <= max_layer_stretch) v
                                  /\ Rabs (Rsum v) <= max_stretch) random_tests).
  { refine (mapMS_Forall _ _ _ _ _ _ _ Hdraws).
    intros x g0 v g1 Hv.
    destruct (random_scaling_in_budget _ _ _ _ _ _ _ Hm Hv) as [_ Hb]. exact Hb. }
  rewrite Forall_forall in Hall. apply Hall.
  apply (nth_error_In _ _ Hsel).
Qed.

End Budgets.

Lemma eval_scaling_selected_vector_in_budget_witness :
  0 <= 0.75
  /\ eval_scaling (list nat) replay_choice replay_uniform zoom_nearest
       1 2 3 0.15 0.75 0.5
       {| rng := [5; 6]%nat; smp_dat := layered_profile;
          ref_dat := pit_two_layers |}
     = (Ok ({| index := 1; r := Fin 1; rmse := Fin 0; ref_type := "density";
               scale_coeff := [replay_draw 6]; scale_per := Rsum [replay_draw 6];
               n_obs := 2; n_comp := 2; n_tests := 2 |},
            dropna table_stretched),
        {| rng := [];
           smp_dat := rename layered_profile "density" "smp_val";
           ref_dat := rename pit_two_layers "density" "ref_val" |})
  /\ Forall (fun s => Rabs s <= 0.75) [replay_draw 6]
  /\ Rabs (Rsum [replay_draw 6]) <= 0.15.
Proof.
  assert (Hm : 0 <= 0.75) by lra.
  assert (Hrun := scored_run_stretched []).
  split; [exact Hm |]. split; [exact Hrun |].
  exact (eval_scaling_selected_vector_in_budget (list nat) replay_choice
           replay_uniform zoom_nearest replay_choice_permutation
           replay_uniform_range 1 2 3 0.15 0.75 0.5 _ _ _ _ Hm Hrun).
Defined.

(** ** Outcomes of the alignment search *)

Lemma lookup_rename_absent (df : DataFrame) (old new c : string) :
  lookup df c = None -> c <> new -> lookup (rename df old new) c = None.
Proof.
  intros Habs Hne. apply String.eqb_neq in Hne.
  induction df as [| [n col] t IH]; [reflexivity |].
  cbn [lookup] in Habs. destruct (String.eqb c n) eqn:E; [discriminate |].
  cbn [rename map fst snd]. fold (rename t old new).
  destruct (String.eqb n old); cbn [lookup]; rewrite ?Hne, ?E; apply IH; exact Habs.
Qed.

Lemma nrows_rename (df : DataFrame) (old new : string) :
  nrows (rename df old new) = nrows df.
Proof.
  destruct df as [| [n col] t]; [reflexivity |].
  cbn [rename map fst snd nrows]. destruct (String.eqb n old); reflexivity.
Qed.

Lemma reference_type_known (ref : DataFrame) (t : string) :
  reference_type ref = Ok t -> t = "density"%string \/ t = "ssa"%string.
Proof.
  intros H.
  destruct (has_column ref "density") eqn:Hd.
  - rewrite (reference_type_density ref Hd) in H. injection H as <-. left. reflexivity.
  - destruct (has_column ref "ssa") eqn:Hs.
    + rewrite (reference_type_ssa ref Hd Hs) in H. injection H as <-. right. reflexivity.
    + rewrite (reference_type_neither ref Hd Hs) in H. discriminate.
Qed.

Lemma mapMS_length {S A B : Type} (f : A -> M S B) (l : list A) (s s' : S)
    (ys : list B) :
  mapMS f l s = (Ok ys, s') -> length ys = length l.
Proof.
  revert s s' ys. induction l as [| x l IH]; intros s s' ys; cbn [mapMS].
  - unfold ret. intros H. injection H as <- _. reflexivity.
  - intros H. apply bindM_inv_Ok in H. destruct H as [y [s1 [_ H]]].
    apply bindM_inv_Ok in H. destruct H as [ys' [s2 [Hrest H]]].
    unfold ret in H. injection H as <- _. cbn [length].
    rewrite (IH _ _ _ Hrest). reflexivity.
Qed.

Lemma score_profiles_tables (samp_h : R) (profiles : list DataFrame)
    (skills : list (float * float)) (tables : list DataFrame) :
  score_profiles samp_h profiles = Ok (skills, tables) ->
  tables = map dropna profiles /\ length skills = length profiles.
Proof.
  revert skills tables. induction profiles as [| p t IH]; intros skills tables;
    cbn [score_profiles].
  - intros H. injection H as <- <-. split; reflexivity.
  - pose proof (calc_skill_table samp_h true p) as Htab.
    destruct (calc_skill samp_h true p) as [[s | |] p']; [| discriminate ..].
    cbn [snd] in Htab. subst p'.
    destruct (score_profiles samp_h t) as [[sk tb] | |]; [| discriminate ..].
    cbn [bind fst snd]. intros H. injection H as <- <-.
    destruct (IH sk tb eq_refl) as [-> Hlen]. cbn [map length].
    split; [reflexivity | rewrite Hlen; reflexivity].
Qed.

Section SearchOutcomes.

Variable G : Type.
Variable choice : nat -> G -> list nat * G.
Variable uniform : R -> R -> G -> R * G.
Variable zoom : list float -> R -> list float.

Ltac step H a w1 Hstep :=
  apply bindM_inv_Ok in H; destruct H as [a [w1 [Hstep H]]].

Ltac unchanged :=
  repeat first
    [ apply tables_unchanged_lift
    | apply tables_unchanged_ret
    | apply tables_unchanged_get_smp
    | apply tables_unchanged_get_ref
    | apply tables_unchanged_with_rng
    | apply tables_unchanged_mapMS; intros ?
    | apply tables_unchanged_bind; [| intros ?] ].

(** The reference table after a step that keeps the tables. *)
Ltac kept H Hk :=
  match type of H with
  | ?m ?w0 = (Ok ?a, ?w1) =>
      assert (Hk : ref_dat G w1 = ref_dat G w0);
      [ let Hm := fresh "Hm" in
        assert (Hm : tables_unchanged G m) by unchanged;
        specialize (Hm w0); rewrite H in Hm; apply Hm
      | ]
  end.

(** The summary row of a run of [eval_scaling]: the index is one of the
    [num_tests] trials (so a run without trials returns nothing), the
    reference type is [density] or [ssa], [scale_per] is the sum of the
    coefficients, [n_obs] is the number of rows of the reference table,
    [n_comp] the number of rows of the comparison table that is
    returned, and that table has no missing value. *)
Theorem eval_scaling_summary (fuel num_tests : nat)
    (layer_h max_stretch max_layer_stretch samp_h : R) (w w' : world G)
    (meta : scaling_meta) (tbl : DataFrame) :
  eval_scaling G choice uniform zoom fuel num_tests
    layer_h max_stretch max_layer_stretch samp_h w
  = (Ok (meta, tbl), w') ->
  (index meta < num_tests)%nat
  /\ n_tests meta = num_tests
  /\ (ref_type meta = "density"%string \/ ref_type meta = "ssa"%string)
  /\ scale_per meta = Rsum (scale_coeff meta)
  /\ n_obs meta = nrows (ref_dat G w)
  /\ n_comp meta = nrows tbl
  /\ no_missing tbl.
Proof.
  rewrite eval_scaling_unfold.
  destruct (reference_type (ref_dat G w)) as [t | |] eqn:Ht; [| discriminate ..].
  unfold eval_scaling_body. intros H.
  step H u1 w1 H1. unfold rename_ref, modify in H1. injection H1 as _ Hw1.
  step H u2 w2 H2. unfold rename_smp, modify in H2. injection H2 as _ Hw2.
  step H ref w3 H3. unfold get_ref in H3. injection H3 as Href Hw3.
  step H u4 w4 H4. unfold lift in H4. injection H4 as _ Hw4.
  step H smp w5 H5. unfold get_smp in H5. injection H5 as _ Hw5.
  step H smp_max w6 H6. unfold lift in H6. injection H6 as _ Hw6.
  step H ref' w7 H7. unfold get_ref in H7. injection H7 as _ Hw7.
  step H ref_max w8 H8. unfold lift in H8. injection H8 as _ Hw8.
  cbv zeta in H.
  step H random_tests w9 Hdraw.
  pose proof (mapMS_length _ _ _ _ _ Hdraw) as Hlen. rewrite repeat_length in Hlen.
  kept Hdraw Hw9.
  step H scaled w10 H10. kept H10 Hw10.
  step H tables1 w11 H11. kept H11 Hw11.
  step H tables2 w12 H12. kept H12 Hw12.
  step H scored w13 H13. unfold lift in H13. injection H13 as Hscore Hw13.
  step H i w14 H14. unfold lift in H14. injection H14 as Hi Hw14.
  step H test w15 H15. unfold lift in H15. injection H15 as Htest Hw15.
  step H ref'' w16 H16. unfold get_ref in H16. injection H16 as Href'' Hw16.
  step H best w17 H17. unfold lift in H17. injection H17 as Hbest Hw17.
  step H skill w18 H18. unfold lift in H18. injection H18 as Hskill Hw18.
  unfold ret in H. injection H as Hmeta Htbl _.
  subst tbl. rewrite <- Hmeta.
  cbn [index n_tests ref_type scale_per scale_coeff n_obs n_comp].
  destruct scored as [skills tables]. cbn [fst snd] in *.
  apply score_profiles_tables in Hscore. destruct Hscore as [-> Hskills].
  repeat split.
  - unfold nth_or in Htest.
    destruct (nth_error random_tests i) eqn:E; [| discriminate].
    assert (Hi' : (i < length random_tests)%nat)
      by (apply nth_error_Some; congruence).
    lia.
  - exact (reference_type_known _ _ Ht).
  - rewrite <- Href''.
    assert (Hchain : ref_dat G w15 = rename (ref_dat G w) t "ref_val").
    { rewrite <- Hw15, <- Hw14, <- Hw13, Hw12, Hw11, Hw10, Hw9.
      rewrite <- Hw8, <- Hw7, <- Hw6, <- Hw5, <- Hw4, <- Hw3, <- Hw2.
      cbn [ref_dat]. rewrite <- Hw1. reflexivity. }
    rewrite Hchain. apply nrows_rename.
  - unfold nth_or in Hbest.
    destruct (nth_error (map dropna tables2) i) as [b |] eqn:E; [| discriminate].
    injection Hbest as <-. apply nth_error_In in E. apply in_map_iff in E.
    destruct E as [p [<- _]]. apply dropna_no_missing.
Qed.

(** A reference table without a [site] column makes [eval_scaling] raise
    a [KeyError], after both tables have been renamed in place and
    before anything is drawn. *)
Theorem eval_scaling_missing_site (fuel num_tests : nat)
    (layer_h max_stretch max_layer_stretch samp_h : R) (w : world G) (t : string) :
  reference_type (ref_dat G w) = Ok t ->
  lookup (ref_dat G w) "site" = None ->
  eval_scaling G choice uniform zoom fuel num_tests
    layer_h max_stretch max_layer_stretch samp_h w
  = (Raise KeyError,
     {| rng := rng G w;
        smp_dat := rename (smp_dat G w) t "smp_val";
        ref_dat := rename (ref_dat G w) t "ref_val" |}).
Proof.
  intros Ht Hsite. rewrite eval_scaling_unfold, Ht.
  unfold eval_scaling_body.
  unfold bindM at 1. unfold rename_ref at 1. unfold modify at 1.
  unfold bindM at 1. unfold rename_smp at 1. unfold modify at 1.
  unfold bindM at 1. unfold get_ref at 1.
  unfold bindM at 1. unfold lift at 1. cbn [rng smp_dat ref_dat].
  unfold getitem.
  rewrite (lookup_rename_absent _ t "ref_val" "site" Hsite) by discriminate.
  reflexivity.
Qed.

End SearchOutcomes.

Lemma eval_scaling_summary_witness :
  eval_scaling (list nat) replay_choice replay_uniform zoom_nearest
    1 2 3 0.15 0.75 0.5
    {| rng := [5; 6]%nat; smp_dat := layered_profile;
       ref_dat := pit_two_layers |}
  = (Ok ({| index := 1; r := Fin 1; rmse := Fin 0; ref_type := "density";
            scale_coeff := [replay_draw 6]; scale_per := Rsum [replay_draw 6];
            n_obs := 2; n_comp := 2; n_tests := 2 |},
         dropna table_stretched),
     {| rng := [];
        smp_dat := rename layered_profile "density" "smp_val";
        ref_dat := rename pit_two_layers "density" "ref_val" |})
  /\ (1 < 2)%nat
  /\ 2%nat = 2%nat
  /\ ("density"%string = "density"%string \/ "density"%string = "ssa"%string)
  /\ Rsum [replay_draw 6] = Rsum [replay_draw 6]
  /\ 2%nat = nrows pit_two_layers
  /\ 2%nat = nrows (dropna table_stretched)
  /\ no_missing (dropna table_stretched).
Proof.
  assert (Hrun := scored_run_stretched []).
  split; [exact Hrun |].
  exact (eval_scaling_summary (list nat) replay_choice replay_uniform zoom_nearest
           1 2 3 0.15 0.75 0.5 _ _ _ _ Hrun).
Defined.

Lemma eval_scaling_missing_site_witness :
  reference_type short_profile = Ok "density"%string
  /\ lookup short_profile "site" = None
  /\ eval_scaling (list nat) replay_choice replay_uniform zoom_nearest
       1 1 2 0.15 0.75 15
       {| rng := [5]%nat; smp_dat := short_profile; ref_dat := short_profile |}
     = (Raise KeyError,
        {| rng := [5]%nat;
           smp_dat := rename short_profile "density" "smp_val";
           ref_dat := rename short_profile "density" "ref_val" |}).
Proof.
  assert (Ht : reference_type short_profile = Ok "density"%string) by reflexivity.
  assert (Hsite : lookup short_profile "site" = None) by reflexivity.
  split; [exact Ht |]. split; [exact Hsite |].
  exact (eval_scaling_missing_site (list nat) replay_choice replay_uniform
           zoom_nearest 1 1 2 0.15 0.75 15
           {| rng := [5]%nat; smp_dat := short_profile; ref_dat := short_profile |}
           "density" Ht Hsite).
Defined.

(** ** Decibels *)

Lemma ln10_pos : 0 < ln 10.
Proof. rewrite <- ln_1. apply ln_increasing; lra. Qed.

Lemma to_dB_to_lin_one (v : float) :
  fmul (Fin 10) (np.log10 (np.pow10 (fdiv v (Fin 10)))) = v.
Proof.
  pose proof ln10_pos as Hln.
  destruct v as [x | | |]; cbn [fdiv].
  - rewrite Reqb_false by lra. cbn [np.pow10 np.log10].
    rewrite Rltb_true by (unfold Rpower; apply exp_pos).
    unfold Rpower. rewrite ln_exp. cbn [fmul]. f_equal. field. lra.
  - rewrite Rltb_false by lra. cbn [np.pow10 np.log10 fmul].
    unfold signed_inf. rdecide. reflexivity.
  - rewrite Rltb_false by lra. cbn [np.pow10 np.log10].
    rewrite Rltb_false by lra. rewrite Reqb_true by reflexivity. cbn [fmul].
    unfold signed_inf. rdecide. reflexivity.
  - reflexivity.
Qed.

Lemma to_lin_to_dB_one (v : float) :
  not_negative v ->
  np.pow10 (fdiv (fmul (Fin 10) (np.log10 v)) (Fin 10)) = v.
Proof.
  pose proof ln10_pos as Hln.
  destruct v as [x | | |]; cbn [not_negative]; intros Hv.
  - cbn [np.log10]. destruct (Rlt_dec 0 x) as [Hpos | Hzero].
    + rewrite Rltb_true by exact Hpos. cbn [fmul fdiv].
      rewrite Reqb_false by lra. cbn [np.pow10]. f_equal.
      unfold Rpower.
      replace (10 * (ln x / ln 10) / 10 * ln 10) with (ln x) by (field; lra).
      apply exp_ln. exact Hpos.
    + assert (x = 0) as -> by lra.
      rewrite Rltb_false by lra. rewrite Reqb_true by reflexivity.
      cbn [fmul]. unfold signed_inf. rdecide. cbn [fdiv].
      rewrite Rltb_false by lra. reflexivity.
  - cbn [np.log10 fmul]. unfold signed_inf. rdecide. cbn [fdiv].
    rewrite Rltb_false by lra. reflexivity.
  - destruct Hv.
  - reflexivity.
Qed.

(** Decibels back and forth: [to_dB (to_lin val)] is [val], for every
    value. *)
Theorem to_dB_to_lin (val : list float) : to_dB (to_lin val) = val.
Proof.
  unfold to_dB, to_lin. rewrite map_map.
  induction val as [| v val IH]; [reflexivity |].
  cbn [map]. rewrite to_dB_to_lin_one, IH. reflexivity.
Qed.

Lemma to_lin_to_dB_one_inv (v : float) :
  np.pow10 (fdiv (fmul (Fin 10) (np.log10 v)) (Fin 10)) = v -> not_negative v.
Proof.
  destruct v as [x | | |]; cbn [not_negative]; try (intros _; exact I).
  - destruct (Rlt_dec x 0) as [Hneg | Hge]; [| intros _; lra].
    cbn [np.log10]. rewrite Rltb_false by lra. rewrite Reqb_false by lra.
    discriminate.
  - discriminate.
Qed.

(** The other way round, [to_lin (to_dB val)] is [val] exactly when no
    value is negative: a negative value has the decibel value NaN. *)
Theorem to_lin_to_dB (val : list float) :
  to_lin (to_dB val) = val <-> Forall not_negative val.
Proof.
  unfold to_dB, to_lin. rewrite map_map. split.
  - induction val as [| v val IH]; [constructor |].
    cbn [map]. intros H. injection H as Hv Hval.
    constructor; [exact (to_lin_to_dB_one_inv v Hv) | exact (IH Hval)].
  - induction 1 as [| v val Hv _ IH]; [reflexivity |].
    cbn [map]. rewrite (to_lin_to_dB_one v Hv), IH. reflexivity.
Qed.

(** ** The error of a comparison table *)

Lemma Rsum_zero_inv (l : list R) :
  Forall (fun t => 0 <= t) l -> Rsum l = 0 -> Forall (fun t => t = 0) l.
Proof.
  induction 1 as [| t l Ht Hl IH]; intros Hs; [constructor |].
  rewrite Rsum_cons in Hs. pose proof (Rsum_nonneg l Hl) as Hge.
  constructor; [lra | apply IH; lra].
Qed.

Lemma squares_zero (xs ys : list R) :
  length ys = length xs ->
  Forall (fun t => t = 0) (map2 (fun a b => (a - b) * (a - b)) xs ys) ->
  xs = ys.
Proof.
  revert ys. induction xs as [| x xs IH]; intros ys Hlen Hz.
  - destruct ys; [reflexivity | discriminate].
  - destruct ys as [| y ys]; [discriminate |]. injection Hlen as Hlen.
    cbn [map2] in Hz. inversion Hz as [| ? ? Hxy Hrest]; subst.
    f_equal; [| apply IH; assumption].
    assert (Hd : x - y = 0).
    { destruct (Rmult_integral _ _ Hxy); assumption. }
    lra.
Qed.

Lemma squares_nonneg (xs ys : list R) :
  Forall (fun t => 0 <= t) (map2 (fun a b => (a - b) * (a - b)) xs ys).
Proof.
  revert ys. induction xs as [| x xs IH]; intros ys; [constructor |].
  destruct ys as [| y ys]; [constructor |]. cbn [map2].
  constructor; [apply (Rle_0_sqr (x - y)) | apply IH].
Qed.

(** In exact arithmetic, on two columns of finite numbers (no NaN and
    no infinity) of the same positive length [calc_rmse] returns a real
    that is not negative, and zero exactly when the two columns are
    equal.  (A row with a NaN is left out of the mean, so the property
    is about the other rows then; and in binary64 the square of a tiny
    difference can underflow to zero.) *)
Theorem calc_rmse_zero (x : DataFrame) (smp ref : list R) :
  getitem x "smp_val" = Ok (map (fun v => Num (Fin v)) smp) ->
  getitem x "ref_val" = Ok (map (fun v => Num (Fin v)) ref) ->
  length ref = length smp ->
  smp <> [] ->
  exists e, calc_rmse x = Ok (Fin e) /\ 0 <= e /\ (e = 0 <-> smp = ref).
Proof.
  intros Hs Hr Hlen Hne. unfold calc_rmse. rewrite Hs, Hr. cbn [bind].
  rewrite !values_Num. cbn [bind].
  rewrite rmse_fin by assumption.
  eexists. split; [reflexivity |]. split; [apply sqrt_pos |].
  pose proof (squares_nonneg smp ref) as Hnn.
  assert (Hpos : 0 < INR (length smp)).
  { apply lt_0_INR. destruct smp; [contradiction | cbn [length]; lia]. }
  split.
  - intros He. apply squares_zero; [exact Hlen |].
    apply Rsum_zero_inv; [exact Hnn |].
    apply sqrt_eq_0 in He.
    + assert (Hmul : Rsum (map2 (fun a b => (a - b) * (a - b)) smp ref)
                     = Rsum (map2 (fun a b => (a - b) * (a - b)) smp ref)
                       / INR (length smp) * INR (length smp)) by (field; lra).
      rewrite Hmul, He. lra.
    + apply Rmult_le_pos; [apply Rsum_nonneg; exact Hnn |].
      left. apply Rinv_0_lt_compat. exact Hpos.
  - intros <-. rewrite map2_same.
    rewrite Rsum_zero.
    + replace (0 / INR (length smp)) with 0 by (field; lra). apply sqrt_0.
    + apply Forall_forall. intros t Ht. apply in_map_iff in Ht.
      destruct Ht as [u [<- _]]. lra.
Qed.

Lemma calc_rmse_zero_witness :
  exists e,
    calc_rmse [("smp_val"%string, [Num (Fin 300); Num (Fin 320)]);
               ("ref_val"%string, [Num (Fin 310); Num (Fin 320)])]
    = Ok (Fin e)
    /\ 0 <= e /\ (e = 0 <-> [300; 320] = [310; 320]).
Proof.
  apply (calc_rmse_zero
           [("smp_val"%string, [Num (Fin 300); Num (Fin 320)]);
            ("ref_val"%string, [Num (Fin 310); Num (Fin 320)])]
           [300; 320] [310; 320]).
  - reflexivity.
  - reflexivity.
  - reflexivity.
  - discriminate.
Defined.
